(** * Open-graph image generator: the generation-request orchestrator

    A shallow embedding of [app/api/utils.py], [app/api/endpoints.py],
    [app/api/crud.py], [app/tasks/screenshot.py], [app/services/cache.py],
    the URL construction of [app/services/storage.py] and the parts of
    [app/config.py] and [app/models] they use, with the properties of the
    design document stated and settled against it, followed by further
    properties of the program.

    Conventions of the embedding.
    - Python [str] is [string]; [datetime] and [time.time()] are an integer
      number of microseconds (the resolution of [datetime]);
      [timedelta.total_seconds] followed by [int] is truncating division by
      one million.  The clock advances when the program sleeps.
    - Functions with effects live in the monad [M]: a function of the
      [World] returning a [Result] and the new world.  [Raise] is a Python
      exception; [try_except] is [try: ... except ...].
    - The world holds the clock, the table [screenshots], the Redis store and
      a trace of the calls made to the collaborators (cache, record store,
      renderer, publisher, task queue, sleeping) and of the [logger.error]
      calls of [create_db_record], [run_sync_generation],
      [dispatch_celery_task], [generate_screenshot_task] and the two request
      handlers.  Other logger calls have no effect on any result and are
      left out.
    - The record store and Redis can fail where the code catches their
      failure: each write transaction and each Redis call consumes one entry
      of a fault script kept in the world.
    - [expires_at] is nullable in the table, but [create_db_record], the only
      writer of new rows, always sets it and every reader uses it without a
      [None] check: the embedding gives it the type [datetime].
    - Response models are plain data: FastAPI's and pydantic's validation and
      serialization of them are outside the embedding. *)

From stdpp Require Import base option list strings pretty gmap.
From Stdlib Require Import ZArith Lia Ascii String.

Local Open Scope string_scope.
Local Open Scope Z_scope.

(** ** Python strings *)

Module PyStr.

Definition is_upper (c : ascii) : bool :=
  let n := nat_of_ascii c in (65 <=? n)%nat && (n <=? 90)%nat.

Definition lower_char (c : ascii) : ascii :=
  if is_upper c then ascii_of_nat (nat_of_ascii c + 32) else c.

(** [s.lower()] on ASCII text. *)
Fixpoint lower (s : string) : string :=
  match s with
  | EmptyString => EmptyString
  | String c s' => String (lower_char c) (lower s')
  end.

(** [s[:n]] *)
Fixpoint take (n : nat) (s : string) : string :=
  match n, s with
  | O, _ => EmptyString
  | S _, EmptyString => EmptyString
  | S n', String c s' => String c (take n' s')
  end.

(** [s[n:]] *)
Fixpoint drop (n : nat) (s : string) : string :=
  match n, s with
  | O, _ => s
  | S _, EmptyString => EmptyString
  | S n', String _ s' => drop n' s'
  end.

(** [c in s] for a character [c]. *)
Fixpoint mem (c : ascii) (s : string) : bool :=
  match s with
  | EmptyString => false
  | String d s' => Ascii.eqb c d || mem c s'
  end.

(** [s.startswith(p)] *)
Fixpoint startswith (s p : string) : bool :=
  match p, s with
  | EmptyString, _ => true
  | String _ _, EmptyString => false
  | String a p', String b s' => Ascii.eqb a b && startswith s' p'
  end.

(** [s.endswith(p)] *)
Definition endswith (s p : string) : bool :=
  (String.length p <=? String.length s)%nat
  && String.eqb (drop (String.length s - String.length p) s) p.

(** [s.find(c)]: the index of the first [c], if any. *)
Fixpoint find (c : ascii) (s : string) : option nat :=
  match s with
  | EmptyString => None
  | String d s' => if Ascii.eqb c d then Some O else S <$> find c s'
  end.

(** Truthiness of a string: [bool(s)]. *)
Definition truthy (s : string) : bool :=
  match s with EmptyString => false | _ => true end.

(** Truthiness of an optional string ([None] and the empty string are falsy). *)
Definition truthy_opt (o : option string) : bool :=
  match o with Some s => truthy s | None => false end.

(** [str(x)] for [x : Optional[str]]. *)
Definition str_opt (o : option string) : string :=
  match o with Some s => s | None => "None" end.

End PyStr.

(** ** Exceptions *)

Inductive exn :=
| HTTPException (status_code : Z) (detail : string)
| DomainValidationError (msg : string)
| ValueError (msg : string)
| TypeError (msg : string)
| Exception (cls msg : string).   (* any other class, with its [str()] *)

(** [str(exc)]; Starlette prints an [HTTPException] as "code: detail". *)
Definition exn_str (e : exn) : string :=
  match e with
  | HTTPException c d => pretty c +:+ ": " +:+ d
  | DomainValidationError m | ValueError m | TypeError m | Exception _ m => m
  end.

(** [isinstance(e, ValueError)]: [DomainValidationError] subclasses it. *)
Definition is_ValueError (e : exn) : bool :=
  match e with DomainValidationError _ | ValueError _ => true | _ => false end.

Definition HTTP_400_BAD_REQUEST : Z := 400.
Definition HTTP_500_INTERNAL_SERVER_ERROR : Z := 500.
Definition HTTP_504_GATEWAY_TIMEOUT : Z := 504.
Definition HTTP_307_TEMPORARY_REDIRECT : Z := 307.

(** ** The data model ([app/models/db_models.py]) *)

Inductive ScreenshotStatus := PENDING | PROCESSING | COMPLETED | FAILED.

Global Instance ScreenshotStatus_eq_dec : EqDecision ScreenshotStatus.
Proof. solve_decision. Defined.

(** A UUID is a 128-bit number. *)
Definition UUID := N.
Bind Scope N_scope with UUID.

(** A [datetime], in microseconds. *)
Definition datetime := Z.

Record Screenshot := mkScreenshot {
  id : UUID;
  url : string;
  s3_path : option string;
  created_at : datetime;
  expires_at : datetime;
  status : ScreenshotStatus;
  error_message : option string
}.

Definition set_status (st : ScreenshotStatus) (r : Screenshot) : Screenshot :=
  mkScreenshot (id r) (url r) (s3_path r) (created_at r) (expires_at r) st
               (error_message r).
Definition set_s3_path (p : option string) (r : Screenshot) : Screenshot :=
  mkScreenshot (id r) (url r) p (created_at r) (expires_at r) (status r)
               (error_message r).
Definition set_error_message (m : option string) (r : Screenshot) : Screenshot :=
  mkScreenshot (id r) (url r) (s3_path r) (created_at r) (expires_at r)
               (status r) m.

(** ** The world *)

(** The calls a run makes, in order: [CacheGet] and [CacheSet] are the calls
    of [cache.get_cache] and [cache.set_cache], [DbFind], [DbGet] the
    queries by URL and by id, [DbInsert] and [DbSetStatus] the committed
    writes, [Render] and [Publish] the calls of [take_screenshot] and
    [upload_to_s3], [Enqueue] the call of [generate_screenshot_task.delay]. *)
Inductive Event :=
| CacheGet (key : string)
| CacheSet (key : string) (value : list (string * string)) (ttl : Z)
| DbFind (url : string)
| DbGet (record_id : UUID)
| DbInsert (record_id : UUID)
| DbSetStatus (record_id : UUID) (st : ScreenshotStatus)
| DbRollback
| Render (url : string) (width height : Z)
| Publish (path key : string)
| Enqueue (record_id url : string) (width height : Z)
| Sleep (seconds : Z)
| LogError (msg : string).

(** A Redis entry: the JSON object stored (its string fields), the
    expiration it was stored with and the time at which Redis drops it. *)
Record CacheEntry := mkCacheEntry {
  ce_value : list (string * string);
  ce_ttl : Z;
  ce_expiry : datetime
}.

Record World := mkWorld {
  w_now : datetime;                          (* the clock *)
  w_db : gmap N Screenshot;                  (* table screenshots, by id *)
  w_db_faults : list (option exn);           (* coming write transactions *)
  w_redis : option (gmap string CacheEntry); (* None: no redis_client *)
  w_redis_faults : list (option string);     (* coming Redis calls *)
  w_uuid_calls : nat;                        (* calls of uuid.uuid4 so far *)
  w_trace : list Event
}.

Definition with_now (t : datetime) (w : World) : World :=
  mkWorld t (w_db w) (w_db_faults w) (w_redis w) (w_redis_faults w)
          (w_uuid_calls w) (w_trace w).
Definition with_db (d : gmap N Screenshot) (w : World) : World :=
  mkWorld (w_now w) d (w_db_faults w) (w_redis w) (w_redis_faults w)
          (w_uuid_calls w) (w_trace w).
Definition with_db_faults (f : list (option exn)) (w : World) : World :=
  mkWorld (w_now w) (w_db w) f (w_redis w) (w_redis_faults w)
          (w_uuid_calls w) (w_trace w).
Definition with_redis (r : option (gmap string CacheEntry)) (w : World) : World :=
  mkWorld (w_now w) (w_db w) (w_db_faults w) r (w_redis_faults w)
          (w_uuid_calls w) (w_trace w).
Definition with_redis_faults (f : list (option string)) (w : World) : World :=
  mkWorld (w_now w) (w_db w) (w_db_faults w) (w_redis w) f
          (w_uuid_calls w) (w_trace w).
Definition with_uuid_calls (n : nat) (w : World) : World :=
  mkWorld (w_now w) (w_db w) (w_db_faults w) (w_redis w) (w_redis_faults w)
          n (w_trace w).
Definition emit (e : Event) (w : World) : World :=
  mkWorld (w_now w) (w_db w) (w_db_faults w) (w_redis w) (w_redis_faults w)
          (w_uuid_calls w) (w_trace w ++ [e]).

(** ** The monad of effects *)

Inductive Result (A : Type) :=
| Ok (a : A)
| Raise (e : exn)
| Stuck.               (* the model ran out of fuel *)
Arguments Ok {A} a.
Arguments Raise {A} e.
Arguments Stuck {A}.

Definition M (A : Type) : Type := World → Result A * World.

Global Instance M_ret : MRet M := λ A a w, (Ok a, w).
Global Instance M_bind : MBind M := λ A B f m w,
  match m w with
  | (Ok a, w') => f a w'
  | (Raise e, w') => (Raise e, w')
  | (Stuck, w') => (Stuck, w')
  end.

Definition raise {A} (e : exn) : M A := λ w, (Raise e, w).
Definition lift {A} (r : Result A) : M A := λ w, (r, w).

(** [try: m except Exception as e: h e]; a handler that does not apply
    re-raises. *)
Definition try_except {A} (m : M A) (h : exn → M A) : M A := λ w,
  match m w with
  | (Raise e, w') => h e w'
  | r => r
  end.

Definition tell (e : Event) : M unit := λ w, (Ok tt, emit e w).
Definition get_world : M World := λ w, (Ok w, w).
Definition datetime_now : M datetime := λ w, (Ok (w_now w), w).

Definition put_db (d : gmap N Screenshot) : M unit := λ w, (Ok tt, with_db d w).
Definition put_redis (r : gmap string CacheEntry) : M unit := λ w,
  (Ok tt, with_redis (Some r) w).

(** ** Configuration ([app/config.py]) and the outside world *)

Module Config.

Definition is_space (c : ascii) : bool :=
  let n := nat_of_ascii c in (n =? 32)%nat || ((9 <=? n)%nat && (n <=? 13)%nat).

Fixpoint lstrip (s : string) : string :=
  match s with
  | String c s' => if is_space c then lstrip s' else s
  | EmptyString => EmptyString
  end.

Fixpoint rstrip (s : string) : string :=
  match s with
  | EmptyString => EmptyString
  | String c s' =>
      match rstrip s' with
      | EmptyString => if is_space c then EmptyString else String c EmptyString
      | t => String c t
      end
  end.

(** [s.strip()] *)
Definition strip (s : string) : string := rstrip (lstrip s).

(** [s.split(",")] *)
Fixpoint split_comma (s : string) : list string :=
  match s with
  | EmptyString => [EmptyString]
  | String c s' =>
      if Ascii.eqb c "," then EmptyString :: split_comma s'
      else match split_comma s' with
           | t :: ts => String c t :: ts
           | [] => [String c EmptyString]
           end
  end.

(** [Settings.__init__], the allow-list: the comma-separated text is split,
    stripped, lower-cased, and empty items are dropped; a missing or empty
    text leaves the list unset. *)
Definition parse_allowed_domains (ALLOWED_SCREENSHOT_DOMAINS_STR : option string)
  : option (list string) :=
  match ALLOWED_SCREENSHOT_DOMAINS_STR with
  | Some text =>
      if PyStr.truthy text
      then Some (List.map (λ domain, PyStr.lower (strip domain))
                   (List.filter (λ domain, PyStr.truthy (strip domain))
                      (split_comma text)))
      else None
  | None => None
  end.

End Config.

Record Settings := mkSettings {
  CELERY_ENABLED : bool;
  SCREENSHOT_DEFAULT_TTL : Z;                      (* seconds *)
  ALLOWED_SCREENSHOT_DOMAINS : option (list string);
  CONTACT_EMAIL : string
}.

(** What the program is linked against: its settings and the collaborators
    whose insides are not part of the orchestrator. *)
Record Env := mkEnv {
  settings : Settings;
  uuid4 : nat → UUID;                              (* the n-th uuid.uuid4() *)
  uuid_str : UUID → string;                        (* str(uuid) *)
  uuid_parse : string → option UUID;               (* UUID(text) *)
  take_screenshot : string → Z → Z → exn + string; (* the renderer *)
  upload_to_s3 : string → string → exn + string;   (* the publisher *)
  delay : string → string → Z → Z → exn + string;  (* the task queue *)
  url_for_status : string → string;                (* request.url_for *)
  (* what other processes do to the table while this task sleeps *)
  worker : datetime → gmap N Screenshot → gmap N Screenshot
}.

(** ** The cache layer ([app/services/cache.py]) *)

Definition pop_redis_fault : M (option string) := λ w,
  match w_redis_faults w with
  | [] => (Ok None, w)
  | f :: fs => (Ok f, with_redis_faults fs w)
  end.

(** [d.get(k)] of a JSON object. *)
Fixpoint dict_get (k : string) (d : list (string * string)) : option string :=
  match d with
  | [] => None
  | (k', v) :: d' => if String.eqb k k' then Some v else dict_get k d'
  end.

Definition micro : Z := 1000000.

(** The entries Redis still holds at time [now]. *)
Definition redis_get (store : gmap string CacheEntry) (key : string)
    (now : datetime) : option (list (string * string)) :=
  match store !! key with
  | Some e => if now <? ce_expiry e then Some (ce_value e) else None
  | None => None
  end.

Definition set_cache (key : string) (value : list (string * string))
    (expiration_seconds : Z) : M unit :=
  tell (CacheSet key value expiration_seconds);;
  w ← get_world;
  match w_redis w return M unit with
  | None => mret tt
  | Some store =>
      fault ← pop_redis_fault;
      match fault return M unit with
      | Some _ => mret tt
      | None =>
          put_redis (<[key := mkCacheEntry value expiration_seconds
                              (w_now w + expiration_seconds * micro)]> store)
      end
  end.

Definition get_cache (key : string) : M (option (list (string * string))) :=
  tell (CacheGet key);;
  w ← get_world;
  match w_redis w return M _ with
  | None => mret None
  | Some store =>
      fault ← pop_redis_fault;
      match fault return M _ with
      | Some _ => mret None
      | None => mret (redis_get store key (w_now w))
      end
  end.

(** ** [urllib.parse.urlparse]: the scheme and the network location *)

Module Urllib.

Definition is_alpha (c : ascii) : bool :=
  let n := nat_of_ascii c in
  ((65 <=? n)%nat && (n <=? 90)%nat) || ((97 <=? n)%nat && (n <=? 122)%nat).

Definition is_digit (c : ascii) : bool :=
  let n := nat_of_ascii c in (48 <=? n)%nat && (n <=? 57)%nat.

Definition is_scheme_char (c : ascii) : bool :=
  is_alpha c || is_digit c || Ascii.eqb c "+" || Ascii.eqb c "-"
  || Ascii.eqb c ".".

Fixpoint all_chars (p : ascii → bool) (s : string) : bool :=
  match s with
  | EmptyString => true
  | String c s' => p c && all_chars p s'
  end.

Definition is_delim (c : ascii) : bool :=
  Ascii.eqb c "/" || Ascii.eqb c "?" || Ascii.eqb c "#".

(** [_splitnetloc]: the text up to the first of [/], [?], [#]. *)
Fixpoint splitnetloc (s : string) : string * string :=
  match s with
  | EmptyString => (EmptyString, EmptyString)
  | String c s' =>
      if is_delim c then (EmptyString, s)
      else let '(n, r) := splitnetloc s' in (String c n, r)
  end.

Record ParseResult := mkParseResult {
  scheme : string;
  netloc : string;
  rest : string
}.

(** The scheme is the text before the first colon when that text is not
    empty, starts with a letter and is made of scheme characters; a network
    location follows a leading [//]; unbalanced brackets in it are an
    error.  (The stripping of control characters and the further checks of
    bracketed hosts are not modelled.) *)
Definition urlparse (url : string) : exn + ParseResult :=
  let '(scheme, url) :=
    match PyStr.find ":" url with
    | Some (S i) =>
        let head := PyStr.take (S i) url in
        if all_chars is_alpha (PyStr.take 1 url) && all_chars is_scheme_char head
        then (PyStr.lower head, PyStr.drop (S (S i)) url)
        else (EmptyString, url)
    | _ => (EmptyString, url)
    end in
  if PyStr.startswith url "//" then
    let '(netloc, rest) := splitnetloc (PyStr.drop 2 url) in
    if (PyStr.mem "[" netloc && negb (PyStr.mem "]" netloc))
       || (PyStr.mem "]" netloc && negb (PyStr.mem "[" netloc))
    then inl (ValueError "Invalid IPv6 URL")
    else inr (mkParseResult scheme netloc rest)
  else inr (mkParseResult scheme EmptyString url).

End Urllib.

(** ** [app/api/utils.py] *)

Definition lift_sum {A} (r : exn + A) : M A :=
  match r with inl e => raise e | inr a => mret a end.

(** Does [domain] match one entry of the allow-list?  (The [for] loop with
    [break].) *)
Definition domain_matches (domain allowed_domain : string) : bool :=
  String.eqb domain allowed_domain
  || PyStr.endswith domain ("." +:+ allowed_domain).

Definition not_allowed_message (env : Env) (domain : string) : string :=
  "Domain '" +:+ domain +:+ "' is not allowed. Please contact "
  +:+ CONTACT_EMAIL (settings env) +:+ " if you want to whitelist it.".

(** The body of the [try] of [validate_domain]. *)
Definition validate_domain_body (env : Env) (url : string) : exn + string :=
  match Urllib.urlparse url with
  | inl e => inl e
  | inr parsed_url =>
      let domain := PyStr.lower (Urllib.netloc parsed_url) in
      if negb ((String.eqb (Urllib.scheme parsed_url) "http"
                || String.eqb (Urllib.scheme parsed_url) "https")
               && PyStr.truthy domain)
      then inl (DomainValidationError
                  ("Invalid or unsupported URL scheme: " +:+ url))
      else
        match ALLOWED_SCREENSHOT_DOMAINS (settings env) with
        | Some ((_ :: _) as allowed) =>
            if existsb (domain_matches domain) allowed
            then inr domain
            else inl (DomainValidationError (not_allowed_message env domain))
        | _ => inr domain
        end
  end.

(** [validate_domain]: any [ValueError] of the body, a
    [DomainValidationError] included, is caught and raised anew as a
    [DomainValidationError]. *)
Definition validate_domain (env : Env) (url : string) : exn + string :=
  match validate_domain_body env url with
  | inl e =>
      if is_ValueError e
      then inl (DomainValidationError ("URL validation error: " +:+ exn_str e))
      else inl e
  | inr domain => inr domain
  end.

Definition check_cache (cache_key : string)
  : M (option (list (string * string))) :=
  cached_data ← get_cache cache_key;
  match cached_data return M _ with
  | Some ((_ :: _) as d) =>
      if bool_decide (is_Some (dict_get "s3_url" d))
      then mret (Some d) else mret None
  | _ => mret None
  end.

(** [int(delta.total_seconds())]: whole seconds, the fraction dropped. *)
Definition int_total_seconds (delta : Z) : Z := Z.quot delta micro.

Definition cache_ttl_of (expiry_time_utc now_utc : datetime) : Z :=
  Z.max 0 (int_total_seconds (expiry_time_utc - now_utc)).

Definition update_cache (cache_key s3_url : string)
    (expiry_time_utc : datetime) : M unit :=
  now_utc ← datetime_now;
  let cache_ttl := cache_ttl_of expiry_time_utc now_utc in
  if (0 <? cache_ttl) && PyStr.truthy s3_url
  then set_cache cache_key [("s3_url", s3_url)] cache_ttl
  else mret tt.

(** [ORDER BY created_at DESC ... first()]: a row with the greatest
    [created_at]; SQL leaves the choice among equal times open, the model
    keeps the first such row met. *)
Definition newest (acc : option Screenshot) (r : Screenshot)
  : option Screenshot :=
  match acc with
  | Some a => if created_at a <? created_at r then Some r else Some a
  | None => Some r
  end.

Definition rows_for_url (db : gmap N Screenshot) (u : string)
  : list Screenshot :=
  List.filter (λ r, String.eqb (url r) u) (snd <$> map_to_list db).

Definition most_recent_for_url (db : gmap N Screenshot) (u : string)
  : option Screenshot :=
  foldl newest None (rows_for_url db u).

Definition find_existing_record (u : string) : M (option Screenshot) :=
  tell (DbFind u);;
  w ← get_world;
  mret (most_recent_for_url (w_db w) u).

Definition pop_db_fault : M (option exn) := λ w,
  match w_db_faults w with
  | [] => (Ok None, w)
  | f :: fs => (Ok f, with_db_faults fs w)
  end.

Definition next_uuid (env : Env) : M UUID := λ w,
  (Ok (uuid4 env (w_uuid_calls w)), with_uuid_calls (S (w_uuid_calls w)) w).

(** A new row gets its id from [uuid.uuid4] and [created_at] from the
    clock; the commit fails on a scripted fault or when the id is taken. *)
Definition create_db_record (env : Env) (u : string) (expires : datetime)
  : M Screenshot :=
  try_except
    (new_id ← next_uuid env;
     fault ← pop_db_fault;
     match fault return M Screenshot with
     | Some e => raise e
     | None =>
         w ← get_world;
         if bool_decide (is_Some (w_db w !! new_id))
         then raise (Exception "IntegrityError" "duplicate key value")
         else
           let new_record :=
             mkScreenshot new_id u None (w_now w) expires PENDING None in
           put_db (<[new_id := new_record]> (w_db w));;
           tell (DbInsert new_id);;
           mret new_record
     end)
    (λ e,
       tell DbRollback;;
       tell (LogError ("Database error creating record for " +:+ u +:+ ": "
                       +:+ exn_str e));;
       raise (HTTPException HTTP_500_INTERNAL_SERVER_ERROR
                "Database error during record creation")).

(** ** [app/tasks/screenshot.py] *)

(** Render, then publish under the key [og_images/<id>.png].  (The
    temporary file removed by the [finally] clause is not modelled.) *)
Definition _perform_screenshot_and_upload (env : Env)
    (record_id_str u : string) (width height : Z) : M string :=
  match uuid_parse env record_id_str return M string with
  | None => raise (ValueError "badly formed hexadecimal UUID string")
  | Some db_record_id =>
      tell (Render u width height);;
      screenshot_path ← lift_sum (take_screenshot env u width height);
      let s3_destination_key :=
        "og_images/" +:+ uuid_str env db_record_id +:+ ".png" in
      tell (Publish screenshot_path s3_destination_key);;
      lift_sum (upload_to_s3 env screenshot_path s3_destination_key)
  end.

(** The assignments [_update_db_status] makes to a row it found. *)
Definition apply_status (st : ScreenshotStatus)
    (s3 err : option string) (record : Screenshot) : Screenshot :=
  let record := set_status st record in
  match st with
  | COMPLETED => set_error_message None (set_s3_path s3 record)
  | FAILED =>
      set_error_message (Some (PyStr.take 500 (PyStr.str_opt err))) record
  | _ => record
  end.

(** One write transaction: a fault raised by the query or the commit is
    rolled back and raised again; a missing row gives [False]. *)
Definition _update_db_status (record_id : UUID) (st : ScreenshotStatus)
    (s3 err : option string) : M bool :=
  try_except
    (fault ← pop_db_fault;
     match fault return M bool with
     | Some e => raise e
     | None =>
         w ← get_world;
         match w_db w !! record_id return M bool with
         | Some record =>
             put_db (<[record_id := apply_status st s3 err record]> (w_db w));;
             tell (DbSetStatus record_id st);;
             mret true
         | None => mret false
         end
     end)
    (λ e, tell DbRollback;; raise e).

(** The Celery task.  It returns [None] when it gives up early. *)
Definition generate_screenshot_task (env : Env)
    (record_id u : string) (width height : Z) : M (option string) :=
  match uuid_parse env record_id return M (option string) with
  | None => mret None
  | Some db_record_id =>
      found ← try_except
                (_update_db_status db_record_id PROCESSING None None)
                (λ db_exc,
                   tell (LogError ("[Celery Task] Failed to set PROCESSING status for "
                                   +:+ uuid_str env db_record_id +:+ ": "
                                   +:+ exn_str db_exc));;
                   raise db_exc);
      if negb found then mret None
      else
        try_except
          (s3_url ← _perform_screenshot_and_upload env record_id u width height;
           _update_db_status db_record_id COMPLETED (Some s3_url) None;;
           mret (Some s3_url))
          (λ exc,
             tell (LogError ("[Celery Task] Core logic failed for "
                             +:+ record_id +:+ ": " +:+ exn_str exc));;
             try_except
               (_update_db_status db_record_id FAILED None
                  (Some (exn_str exc));;
                mret tt)
               (λ db_fail_exc,
                  tell (LogError ("[Celery Task] Failed to set FAILED status for "
                                  +:+ uuid_str env db_record_id +:+ ": "
                                  +:+ exn_str db_fail_exc)));;
             raise exc)
  end.

(** ** [app/api/utils.py]: generation *)

Definition run_sync_generation (env : Env) (record_id : UUID) (u : string)
    (width height : Z) (cache_key : string) (expires : datetime) : M string :=
  let record_id_str := uuid_str env record_id in
  try_except
    (_update_db_status record_id PROCESSING None None;;
     s3_url ← _perform_screenshot_and_upload env record_id_str u width height;
     _update_db_status record_id COMPLETED (Some s3_url) None;;
     update_cache cache_key s3_url expires;;
     mret s3_url)
    (λ exc,
       tell (LogError ("Synchronous execution failed for "
                       +:+ uuid_str env record_id +:+ ": " +:+ exn_str exc));;
       try_except
         (_update_db_status record_id FAILED None (Some (exn_str exc));;
          mret tt)
         (λ db_fail_exc,
            tell (LogError ("Failed to update DB status to FAILED after sync error: "
                            +:+ exn_str db_fail_exc)));;
       raise exc).

Definition dispatch_celery_task (env : Env) (record_id : UUID) (u : string)
    (width height : Z) : M unit :=
  try_except
    (tell (Enqueue (uuid_str env record_id) u width height);;
     lift_sum (delay env (uuid_str env record_id) u width height);;
     mret tt)
    (λ e,
       tell (LogError ("Failed to launch Celery task for "
                       +:+ uuid_str env record_id +:+ ": " +:+ exn_str e));;
       try_except
         (_update_db_status record_id FAILED None (Some "Failed to queue task");;
          mret tt)
         (λ db_fail_exc,
            tell (LogError ("Failed to update DB status to FAILED after Celery dispatch error: "
                            +:+ exn_str db_fail_exc)));;
       raise (HTTPException HTTP_500_INTERNAL_SERVER_ERROR
                "Failed to queue generation task")).

(** ** [app/api/utils.py]: the completion poller *)

Definition max_wait_seconds : Z := 60.
Definition poll_interval_seconds : Z := 2.

(** [await asyncio.sleep(seconds)]: the clock advances and the other
    processes get their turn at the table. *)
Definition asyncio_sleep (env : Env) (seconds : Z) : M unit := λ w,
  (Ok tt,
   emit (Sleep seconds)
     (with_now (w_now w + seconds * micro)
        (with_db (worker env (w_now w) (w_db w)) w))).

Definition query_by_id (task_id : UUID) : M (option Screenshot) :=
  tell (DbGet task_id);;
  w ← get_world;
  mret (w_db w !! task_id).

Definition failed_detail (r : Screenshot) : string :=
  "Image generation failed: "
  +:+ (if PyStr.truthy_opt (error_message r)
       then PyStr.str_opt (error_message r) else "Unknown error").

Definition timeout_detail : string :=
  "Image generation timed out. Please try again later or check API status.".

Definition not_found_detail : string :=
  "Error checking generation status. Record not found.".

(** The [while] loop; [fuel] bounds the number of times its condition is
    evaluated. *)
Fixpoint poll_loop (env : Env) (fuel : nat) (start_time : datetime)
    (task_id : UUID) (cache_key : string) : M (option string) :=
  match fuel with
  | O => lift Stuck
  | S fuel' =>
      t ← datetime_now;
      if t - start_time <? max_wait_seconds * micro then
        current_record ← query_by_id task_id;
        match current_record return M (option string) with
        | Some r =>
            match status r return M (option string) with
            | COMPLETED =>
                (if PyStr.truthy_opt (s3_path r) return M unit
                 then update_cache cache_key (PyStr.str_opt (s3_path r))
                        (expires_at r)
                 else mret tt);;
                mret (s3_path r)
            | FAILED =>
                raise (HTTPException HTTP_500_INTERNAL_SERVER_ERROR
                         (failed_detail r))
            | _ =>
                asyncio_sleep env poll_interval_seconds;;
                poll_loop env fuel' start_time task_id cache_key
            end
        | None =>
            raise (HTTPException HTTP_500_INTERNAL_SERVER_ERROR
                     not_found_detail)
        end
      else
        raise (HTTPException HTTP_504_GATEWAY_TIMEOUT timeout_detail)
  end.

Definition poll_task_completion (env : Env) (fuel : nat) (task_id : UUID)
    (cache_key : string) : M (option string) :=
  start_time ← datetime_now;
  poll_loop env fuel start_time task_id cache_key.

(** ** [app/api/endpoints.py] *)

Inductive Response :=
| CachedResponse (status image_url : string)
| ProcessingResponse (status : string) (task_id : UUID)
    (check_status_url : string)
| JSONResponse (status_code : Z) (error : string)
| RedirectResponse (url : option string) (status_code : Z)
| HTMLResponse (content : string) (status_code : Z)
| TemplateResponse (name : string) (default_ttl_hours : Z).

Definition create_error_response (status_code : Z) (message : string)
  : Response := JSONResponse status_code message.

Definition make_cache_key (u : string) (request_width request_height : Z)
  : string :=
  "og_image:" +:+ u +:+ ":" +:+ pretty request_width +:+ ":"
  +:+ pretty request_height.

Definition ttl_seconds_of (env : Env) (ttl : option Z) : Z :=
  match ttl with
  | Some hours => hours * 3600
  | None => SCREENSHOT_DEFAULT_TTL (settings env)
  end.

Definition in_flight (st : ScreenshotStatus) : bool :=
  bool_decide (st = PENDING) || bool_decide (st = PROCESSING).

(** What the database check of a handler decides: answer at once, or go on
    (for the root handler, with the record and the task to poll). *)
Inductive Decision (A : Type) :=
| Answer (r : Response)
| GoOn (a : A).
Arguments Answer {A} r.
Arguments GoOn {A} a.

(** The block "Database Check" of [generate_og_image]. *)
Definition generate_db_check (env : Env) (cache_key : string)
    (existing_record : option Screenshot) (force_refresh : bool)
    (now_utc : datetime) : M (Decision unit) :=
  match existing_record return M (Decision unit) with
  | Some r =>
      if force_refresh then mret (GoOn tt)
      else if bool_decide (status r = COMPLETED) && (now_utc <? expires_at r)
      then
        if PyStr.truthy_opt (s3_path r)
        then
          update_cache cache_key (PyStr.str_opt (s3_path r)) (expires_at r);;
          mret (Answer (CachedResponse "cached" (PyStr.str_opt (s3_path r))))
        else mret (GoOn tt)
      else if in_flight (status r) && (now_utc <? expires_at r)
      then mret (Answer (ProcessingResponse "processing" (id r)
                           (url_for_status env (uuid_str env (id r)))))
      else mret (GoOn tt)
  | None => mret (GoOn tt)
  end.

(** The blocks "Create New Record and Trigger Generation" and "Execute
    Synchronously or Asynchronously" of [generate_og_image]. *)
Definition generate_new (env : Env) (u : string)
    (request_width request_height : Z) (cache_key : string)
    (future_expiry_time : datetime) : M Response :=
  created ← try_except
              (new_record ← create_db_record env u future_expiry_time;
               mret (GoOn new_record))
              (λ e,
                 match e return M (Decision Screenshot) with
                 | HTTPException c d => mret (Answer (create_error_response c d))
                 | _ =>
                     tell (LogError ("Unexpected error creating DB record for "
                                     +:+ u +:+ ": " +:+ exn_str e));;
                     mret (Answer (create_error_response
                                     HTTP_500_INTERNAL_SERVER_ERROR
                                     "Failed to initiate generation"))
                 end);
  match created return M Response with
  | Answer resp => mret resp
  | GoOn new_record =>
      try_except
        (if CELERY_ENABLED (settings env) return M Response
         then
           dispatch_celery_task env (id new_record) u request_width
             request_height;;
           mret (ProcessingResponse "processing" (id new_record)
                   (url_for_status env (uuid_str env (id new_record))))
         else
           s3_url ← run_sync_generation env (id new_record) u request_width
                      request_height cache_key future_expiry_time;
           mret (CachedResponse "generated" s3_url))
        (λ e,
           match e return M Response with
           | HTTPException c d => mret (create_error_response c d)
           | exc =>
               tell (LogError ("Generation process failed for "
                               +:+ uuid_str env (id new_record) +:+ ": "
                               +:+ exn_str exc));;
               mret (create_error_response HTTP_500_INTERNAL_SERVER_ERROR
                       ("Generation failed: " +:+ exn_str exc))
           end)
  end.

(** [GET /generate] *)
Definition generate_og_image (env : Env) (u : string) (ttl width height : option Z)
    (force_refresh : bool) : M Response :=
  let request_width := default 1200 width in
  let request_height := default 630 height in
  match validate_domain env u return M Response with
  | inl (DomainValidationError _ as e) =>
      mret (create_error_response HTTP_400_BAD_REQUEST (exn_str e))
  | inl e =>
      tell (LogError ("Unexpected validation error for " +:+ u +:+ ": "
                      +:+ exn_str e));;
      mret (create_error_response HTTP_500_INTERNAL_SERVER_ERROR
              "Internal validation error")
  | inr _ =>
      let cache_key := make_cache_key u request_width request_height in
      cached_data ← (if force_refresh return M _ then mret None
                     else check_cache cache_key);
      match cached_data return M Response with
      | Some d =>
          mret (CachedResponse "cached" (default EmptyString (dict_get "s3_url" d)))
      | None =>
          now_utc ← datetime_now;
          let future_expiry_time := now_utc + ttl_seconds_of env ttl * micro in
          existing_record ← find_existing_record u;
          decision ← generate_db_check env cache_key existing_record
                       force_refresh now_utc;
          match decision return M Response with
          | Answer resp => mret resp
          | GoOn _ =>
              generate_new env u request_width request_height cache_key
                future_expiry_time
          end
      end
  end.

Definition html_validation_failed (e : exn) : string :=
  "<html><body><h1>Error</h1><p>URL validation failed: " +:+ exn_str e
  +:+ "</p></body></html>".

Definition html_generation_failed (detail : string) : string :=
  "<html><body><h1>Error</h1><p>Image generation failed: " +:+ detail
  +:+ "</p></body></html>".

Definition html_unexpected : string :=
  "<html><body><h1>Error</h1><p>An unexpected error occurred during image generation.</p></body></html>".

Definition html_processing : string :=
  "<html><body><h1>Processing</h1><p>Image generation is in progress or encountered an issue. Please check API status or try again.</p></body></html>".

(** Step 2 of the root handler.  On [GoOn] it hands over the values of the
    variables [record] and [task_id_to_poll]. *)
Definition root_db_check (env : Env) (cache_key : string)
    (record : option Screenshot) (now_utc : datetime)
  : M (Decision (option Screenshot * option UUID)) :=
  match record return M (Decision (option Screenshot * option UUID)) with
  | Some r =>
      if bool_decide (status r = COMPLETED) && (now_utc <? expires_at r)
      then
        if PyStr.truthy_opt (s3_path r)
        then
          update_cache cache_key (PyStr.str_opt (s3_path r)) (expires_at r);;
          mret (Answer (RedirectResponse (s3_path r)
                          HTTP_307_TEMPORARY_REDIRECT))
        else mret (GoOn (Some r, None))
      else if in_flight (status r) && (now_utc <? expires_at r)
      then
        if CELERY_ENABLED (settings env)
        then mret (GoOn (Some r, Some (id r)))
        else mret (GoOn (None, None))
      else mret (GoOn (None, None))
  | None => mret (GoOn (None, None))
  end.

(** Step 3 of the root handler, the body of its [try]; [None] when the
    body ends without returning. *)
Definition root_generate_or_poll (env : Env) (fuel : nat) (u : string)
    (request_width request_height : Z) (cache_key : string)
    (future_expiry_time : datetime) (record : option Screenshot)
    (task_id_to_poll : option UUID) : M (option Response) :=
  generated ←
    (if bool_decide (record = None ∧ task_id_to_poll = None)
       return M (Decision (option UUID))
     then
       new_record ← create_db_record env u future_expiry_time;
       if CELERY_ENABLED (settings env) return M (Decision (option UUID))
       then
         dispatch_celery_task env (id new_record) u request_width
           request_height;;
         mret (GoOn (Some (id new_record)))
       else
         s3_url ← run_sync_generation env (id new_record) u request_width
                    request_height cache_key future_expiry_time;
         mret (Answer (RedirectResponse (Some s3_url)
                         HTTP_307_TEMPORARY_REDIRECT))
     else mret (GoOn task_id_to_poll));
  match generated return M (option Response) with
  | Answer resp => mret (Some resp)
  | GoOn task_id_to_poll =>
      match CELERY_ENABLED (settings env), task_id_to_poll
            return M (option Response) with
      | true, Some task_id =>
          s3_url ← poll_task_completion env fuel task_id cache_key;
          mret (Some (RedirectResponse s3_url HTTP_307_TEMPORARY_REDIRECT))
      | false, _ =>
          tell (LogError "Sync execution path ended without redirect or error.");;
          raise (HTTPException 500 "Internal error after sync processing.")
      | true, None => mret None
      end
  end.

(** Step 3 of the root handler with its [try] and what follows it: the
    exceptions of generation and polling become error pages, and a body
    that ends without returning gives the "Processing" page. *)
Definition root_step3 (env : Env) (fuel : nat) (u : string)
    (request_width request_height : Z) (cache_key : string)
    (future_expiry_time : datetime) (record : option Screenshot)
    (task_id_to_poll : option UUID) : M Response :=
  returned ←
    try_except
      (root_generate_or_poll env fuel u request_width request_height
         cache_key future_expiry_time record task_id_to_poll)
      (λ e,
         match e return M (option Response) with
         | HTTPException c d =>
             tell (LogError ("HTTPException during root processing for "
                             +:+ u +:+ ": " +:+ d));;
             mret (Some (HTMLResponse (html_generation_failed d) c))
         | _ =>
             tell (LogError ("Unexpected error during root processing for "
                             +:+ u +:+ ": " +:+ exn_str e));;
             mret (Some (HTMLResponse html_unexpected
                           HTTP_500_INTERNAL_SERVER_ERROR))
         end);
  match returned return M Response with
  | Some resp => mret resp
  | None => mret (HTMLResponse html_processing HTTP_500_INTERNAL_SERVER_ERROR)
  end.

(** Steps 2 and 3 of the root handler: what it does once the cache gave
    nothing to redirect to. *)
Definition root_after_cache (env : Env) (fuel : nat) (u : string)
    (request_width request_height : Z) (cache_key : string)
    (now_utc future_expiry_time : datetime) (force_refresh : bool)
  : M Response :=
  record ← (if force_refresh return M (option Screenshot) then mret None
            else find_existing_record u);
  decision ← root_db_check env cache_key record now_utc;
  match decision return M Response with
  | Answer resp => mret resp
  | GoOn (record, task_id_to_poll) =>
      root_step3 env fuel u request_width request_height cache_key
        future_expiry_time record task_id_to_poll
  end.

(** Is there something in the cached object to redirect to?
    ([cached_data and cached_data.get("s3_url")]) *)
Definition cached_s3_url (cached_data : option (list (string * string)))
  : option string :=
  match cached_data with
  | Some ((_ :: _) as d) =>
      if PyStr.truthy_opt (dict_get "s3_url" d) then dict_get "s3_url" d
      else None
  | _ => None
  end.

(** [GET /] *)
Definition root_handler (env : Env) (fuel : nat) (url : option string)
    (ttl width height : option Z) (force_refresh : bool) : M Response :=
  match url return M Response with
  | None =>
      mret (TemplateResponse "index.html"
              (SCREENSHOT_DEFAULT_TTL (settings env) `div` 3600))
  | Some u =>
      let request_width := default 1200 width in
      let request_height := default 630 height in
      match validate_domain env u return M Response with
      | inl (DomainValidationError _ as e) =>
          mret (HTMLResponse (html_validation_failed e) HTTP_400_BAD_REQUEST)
      | inl e =>
          tell (LogError ("Unexpected root validation error for " +:+ u
                          +:+ ": " +:+ exn_str e));;
          mret (HTMLResponse
                  "<html><body><h1>Error</h1><p>Internal validation error.</p></body></html>"
                  HTTP_500_INTERNAL_SERVER_ERROR)
      | inr _ =>
          let cache_key := make_cache_key u request_width request_height in
          now_utc ← datetime_now;
          let future_expiry_time := now_utc + ttl_seconds_of env ttl * micro in
          cached_data ← (if force_refresh return M _ then mret None
                         else check_cache cache_key);
          match cached_s3_url cached_data return M Response with
          | Some s3_url =>
              mret (RedirectResponse (Some s3_url) HTTP_307_TEMPORARY_REDIRECT)
          | None =>
              root_after_cache env fuel u request_width request_height
                cache_key now_utc future_expiry_time force_refresh
          end
      end
  end.

(** ** [app/api/crud.py] and the status and image endpoints *)

Definition HTTP_404_NOT_FOUND : Z := 404.

(** [db.query(Screenshot).filter(Screenshot.id == task_id).first()] *)
Definition get_screenshot_record (task_id : UUID) : M (option Screenshot) :=
  tell (DbGet task_id);;
  w ← get_world;
  mret (w_db w !! task_id).

(** [StatusResponse] of [app/models/api_models.py]. *)
Inductive StatusResponse :=
| mkStatusResponse (status : ScreenshotStatus)
    (image_url error_message : option string).

(** [GET /status/{task_id}] *)
Definition get_task_status (task_id : UUID) : M StatusResponse :=
  record ← get_screenshot_record task_id;
  match record return M StatusResponse with
  | None => raise (HTTPException HTTP_404_NOT_FOUND "Task/Record not found")
  | Some r =>
      mret (mkStatusResponse (status r)
              (if bool_decide (status r = COMPLETED) then s3_path r else None)
              (if bool_decide (status r = FAILED) then error_message r
               else None))
  end.

(** [GET /image/{image_id}] *)
Definition get_image (image_id : UUID) : M Response :=
  record ← get_screenshot_record image_id;
  match record return M Response with
  | Some r =>
      if negb (bool_decide (status r = COMPLETED))
         || negb (PyStr.truthy_opt (s3_path r))
      then raise (HTTPException HTTP_404_NOT_FOUND
                    "Image not found, not ready, or URL missing")
      else mret (RedirectResponse (s3_path r) HTTP_307_TEMPORARY_REDIRECT)
  | None =>
      raise (HTTPException HTTP_404_NOT_FOUND
               "Image not found, not ready, or URL missing")
  end.

(** ** [app/services/storage.py] *)

Module Storage.

(** [s.rstrip("/")] *)
Fixpoint rstrip_slash (s : string) : string :=
  match s with
  | EmptyString => EmptyString
  | String c s' =>
      match rstrip_slash s' with
      | EmptyString =>
          if Ascii.eqb c "/" then EmptyString else String c EmptyString
      | t => String c t
      end
  end.

(** The settings the publisher reads; the two URLs as [str()] prints
    them. *)
Record S3Settings := mkS3Settings {
  AWS_BUCKET_NAME : string;
  AWS_ENDPOINT_URL : option string;
  CDN_URL : option string
}.

(** The access URL of an uploaded object: the CDN when there is one, else
    the custom endpoint, else the virtual-hosted AWS address. *)
Definition object_url (st : S3Settings) (destination_s3_key : string)
  : string :=
  match CDN_URL st, AWS_ENDPOINT_URL st with
  | Some cdn, _ => rstrip_slash cdn +:+ "/" +:+ destination_s3_key
  | None, Some endpoint =>
      rstrip_slash endpoint +:+ "/" +:+ AWS_BUCKET_NAME st +:+ "/"
      +:+ destination_s3_key
  | None, None =>
      "https://" +:+ AWS_BUCKET_NAME st +:+ ".s3.amazonaws.com/"
      +:+ destination_s3_key
  end.

(** [upload_file] is [s3_client.upload_file] (local path, bucket, key);
    each [except] clause logs and raises the exception again. *)
Definition upload_to_s3 (st : S3Settings)
    (upload_file : string → string → string → option exn)
    (local_file_path destination_s3_key : string) : exn + string :=
  match upload_file local_file_path (AWS_BUCKET_NAME st) destination_s3_key with
  | Some e => inl e
  | None => inr (object_url st destination_s3_key)
  end.

End Storage.

(** ** [app/services/screenshot.py] *)

Module ScreenshotService.

(** [take_screenshot]: the check of the URL, then the browser session.
    [browser] is the [try] block with its handlers and its [finally]: the
    page load, the waits, the hiding of banners, the capture and the
    resizing, returning the path of the image or raising. *)
Definition take_screenshot (browser : string → Z → Z → exn + string)
    (url : string) (width height : Z) : exn + string :=
  match Urllib.urlparse url with
  | inl e => inl e
  | inr parsed_url =>
      if negb ((String.eqb (Urllib.scheme parsed_url) "http"
                || String.eqb (Urllib.scheme parsed_url) "https")
               && PyStr.truthy (Urllib.netloc parsed_url))
      then inl (ValueError ("Invalid or unsupported URL scheme: " +:+ url))
      else browser url width height
  end.

End ScreenshotService.

(** ** A concrete environment, for examples *)

Module Demo.

Fixpoint parse_decimal (acc : N) (s : string) : option N :=
  match s with
  | EmptyString => Some acc
  | String c s' =>
      if Urllib.is_digit c
      then parse_decimal (acc * 10 + N.of_nat (nat_of_ascii c - 48))%N s'
      else None
  end.

Definition uuid_parse (s : string) : option UUID :=
  match s with EmptyString => None | _ => parse_decimal 0%N s end.

Definition cdn (key : string) : string := "https://cdn.example.net/" +:+ key.

Definition settings (celery : bool) (allowed : option string) : Settings :=
  mkSettings celery (24 * 3600) (Config.parse_allowed_domains allowed)
             "support@kactica.com".

(** Renderer and publisher that succeed, a queue that accepts, and no other
    process touching the table. *)
Definition env (celery : bool) (allowed : option string) : Env :=
  mkEnv (settings celery allowed)
        (λ n, N.of_nat n + 100)%N
        pretty
        uuid_parse
        (λ _ _ _, inr "/tmp/shot.png")
        (λ _ key, inr (cdn key))
        (λ _ _ _ _, inr "celery-task-1")
        (λ task_id, "/status/" +:+ task_id)
        (λ _ db, db).

(** The same with a renderer that fails. *)
Definition env_render_fails (celery : bool) : Env :=
  mkEnv (settings celery None)
        (λ n, N.of_nat n + 100)%N
        pretty
        uuid_parse
        (λ _ _ _, inl (Exception "TimeoutException" "Timeout waiting for page"))
        (λ _ key, inr (cdn key))
        (λ _ _ _ _, inr "celery-task-1")
        (λ task_id, "/status/" +:+ task_id)
        (λ _ db, db).

(** The same with a queue that refuses. *)
Definition env_queue_down : Env :=
  mkEnv (settings true None)
        (λ n, N.of_nat n + 100)%N
        pretty
        uuid_parse
        (λ _ _ _, inr "/tmp/shot.png")
        (λ _ key, inr (cdn key))
        (λ _ _ _ _, inl (Exception "OperationalError" "Connection refused"))
        (λ task_id, "/status/" +:+ task_id)
        (λ _ db, db).

(** A worker that completes job [i] during the first sleep that starts at
    [at_time] or later. *)
Definition finishing_worker (i : N) (at_time : datetime) (s3 : string)
  : datetime → gmap N Screenshot → gmap N Screenshot :=
  λ t db, if at_time <=? t
          then alter (apply_status COMPLETED (Some s3) None) i db
          else db.

Definition env_worker (i : N) (at_time : datetime) (s3 : string) : Env :=
  mkEnv (settings true None)
        (λ n, N.of_nat n + 100)%N
        pretty
        uuid_parse
        (λ _ _ _, inr "/tmp/shot.png")
        (λ _ key, inr (cdn key))
        (λ _ _ _ _, inr "celery-task-1")
        (λ task_id, "/status/" +:+ task_id)
        (finishing_worker i at_time s3).

Definition second : Z := micro.
Definition hour : Z := 3600 * micro.

(** A row of the table for [https://example.com/], created at time 0 and
    expiring after one day. *)
Definition row (i : N) (st : ScreenshotStatus) (s3 : option string)
  : Screenshot :=
  mkScreenshot i "https://example.com/" s3 0 (24 * hour) st None.

(** A world at one hour past time 0 with the given table, an empty Redis
    and no fault to come. *)
Definition world (rows : list Screenshot) : World :=
  mkWorld hour (list_to_map ((λ r, (id r, r)) <$> rows)) [] (Some ∅) [] 0 [].

End Demo.


(** ** Notions used to state the properties *)

(** [ParseResult.hostname] of urllib: the network location without the user
    information and the port, lower-cased. *)
Module Hostname.

Fixpoint after_last (c : ascii) (s : string) : string :=
  match s with
  | EmptyString => EmptyString
  | String d s' =>
      if PyStr.mem c s' then after_last c s'
      else if Ascii.eqb c d then s' else s
  end.

Fixpoint after_first (c : ascii) (s : string) : string :=
  match s with
  | EmptyString => EmptyString
  | String d s' => if Ascii.eqb c d then s' else after_first c s'
  end.

Fixpoint before_first (c : ascii) (s : string) : string :=
  match s with
  | EmptyString => EmptyString
  | String d s' => if Ascii.eqb c d then EmptyString
                   else String d (before_first c s')
  end.

Definition hostname (netloc : string) : string :=
  let hostinfo := after_last "@" netloc in
  PyStr.lower
    (if PyStr.mem "[" hostinfo
     then before_first "]" (after_first "[" hostinfo)
     else before_first ":" hostinfo).

End Hostname.

Definition allow_list (env : Env) : list string :=
  default [] (ALLOWED_SCREENSHOT_DOMAINS (settings env)).

(** Validation as the design document words it: the URL parses with scheme
    http or https and a non-empty host and, when an allow-list is
    configured, the host is an allowed domain or ends with a dot followed
    by one. *)
Definition accepts_as_stated (env : Env) (u : string) : bool :=
  match Urllib.urlparse u with
  | inl _ => false
  | inr parsed =>
      let host := Hostname.hostname (Urllib.netloc parsed) in
      (String.eqb (Urllib.scheme parsed) "http"
       || String.eqb (Urllib.scheme parsed) "https")
      && PyStr.truthy host
      && match allow_list env with
         | [] => true
         | allowed =>
             existsb (λ a, String.eqb host a
                           || PyStr.endswith host ("." +:+ a)) allowed
         end
  end.

(** The time to live as the design document words it: the time left,
    [max(0, expiresAt − now)], here in microseconds. *)
Definition ttl_as_stated (expiresAt now : datetime) : Z :=
  Z.max 0 (expiresAt - now).

(** Cache population as the design document words it: the entry is written,
    with exactly that time to live, if and only if that time is positive
    and the reference is not empty. *)
Definition populate_as_stated (cache_key s3_url : string)
    (expiresAt : datetime) (w : World) : Prop :=
  let w' := (update_cache cache_key s3_url expiresAt w).2 in
  (0 < ttl_as_stated expiresAt (w_now w) ∧ s3_url ≠ EmptyString) ↔
  ∃ ttl, ttl * micro = ttl_as_stated expiresAt (w_now w)
         ∧ w_trace w'
           = (w_trace w ++ [CacheSet cache_key [("s3_url", s3_url)] ttl])%list.

(** One call of the status-update operation. *)
Record StatusUpdate := mkStatusUpdate {
  su_id : UUID;
  su_status : ScreenshotStatus;
  su_s3_path : option string;
  su_error_message : option string
}.

(** A sequence of status updates, each run to its end. *)
Definition run_updates (ops : list StatusUpdate) (w : World) : World :=
  foldl (λ w op,
           (_update_db_status (su_id op) (su_status op) (su_s3_path op)
              (su_error_message op) w).2)
        w ops.

Definition terminal (st : ScreenshotStatus) : bool :=
  bool_decide (st = COMPLETED) || bool_decide (st = FAILED).

(** The next write transaction of the record store goes through. *)
Definition next_write_ok (w : World) : Prop := hd None (w_db_faults w) = None.

(** The statuses written to row [i], in order, in a trace. *)
Definition status_writes (i : UUID) (tr : list Event)
  : list ScreenshotStatus :=
  omap (λ e, match e with
             | DbSetStatus j st => if bool_decide (j = i) then Some st else None
             | _ => None
             end) tr.

(** What the status-update operation keeps true of a row. *)
Definition record_ok (r : Screenshot) : Prop :=
  (status r = COMPLETED → error_message r = None)
  ∧ (status r = FAILED →
     ∃ m, error_message r = Some m ∧ (String.length m ≤ 500)%nat).

(** The invariant of rows as the design document words it. *)
Definition record_as_stated (r : Screenshot) : Prop :=
  (status r = COMPLETED →
   PyStr.truthy_opt (s3_path r) = true
   ∧ PyStr.truthy_opt (error_message r) = false)
  ∧ (status r = FAILED →
     PyStr.truthy_opt (error_message r) = true
     ∧ (String.length (default EmptyString (error_message r)) ≤ 500)%nat
     ∧ PyStr.truthy_opt (s3_path r) = false)
  ∧ (PyStr.truthy_opt (s3_path r) = true → status r = COMPLETED).

(** The status-update operation as the design document words it: a row in
    a terminal state keeps its status. *)
Definition update_as_stated (i : UUID) (st : ScreenshotStatus)
    (s3 err : option string) (w : World) : Prop :=
  ∀ r r', w_db w !! i = Some r → terminal (status r) = true →
          w_db (_update_db_status i st s3 err w).2 !! i = Some r' →
          status r' = status r.

(** The world after a write transaction that stored [r'] in row [i]. *)
Definition after_write (i : UUID) (st : ScreenshotStatus) (r' : Screenshot)
    (w : World) : World :=
  emit (DbSetStatus i st)
    (with_db (<[i := r']> (w_db w)) (with_db_faults (tl (w_db_faults w)) w)).

(** The world after a write transaction that failed and was rolled back. *)
Definition after_rollback (w : World) : World :=
  emit DbRollback (with_db_faults (tl (w_db_faults w)) w).





(** The events that create a record or start generation work. *)
Definition starts_work (e : Event) : bool :=
  match e with
  | DbInsert _ | DbSetStatus _ _ | Render _ _ _ | Publish _ _
  | Enqueue _ _ _ _ => true
  | _ => false
  end.

(** The events a run has added to the trace. *)
Definition new_events (w w' : World) : list Event :=
  drop (List.length (w_trace w)) (w_trace w').

(** What the root handler makes of the end of the poller. *)
Definition root_poll_answer (u : string)
    (run : Result (option string) * World) : Result Response * World :=
  match run with
  | (Ok s3_url, w') =>
      (Ok (RedirectResponse s3_url HTTP_307_TEMPORARY_REDIRECT), w')
  | (Raise (HTTPException c d), w') =>
      (Ok (HTMLResponse (html_generation_failed d) c),
       emit (LogError ("HTTPException during root processing for "
                       +:+ u +:+ ": " +:+ d)) w')
  | (Raise e, w') =>
      (Ok (HTMLResponse html_unexpected HTTP_500_INTERNAL_SERVER_ERROR),
       emit (LogError ("Unexpected error during root processing for "
                       +:+ u +:+ ": " +:+ exn_str e)) w')
  | (Stuck, w') => (Stuck, w')
  end.

(** The treatment of an in-flight record as the design document words it:
    the handler answers InProgress with the id of the record, creates no
    record and starts no generation work. *)
Definition in_flight_as_stated (handler : M Response) (r : Screenshot)
    (w : World) : Prop :=
  (∃ check_status_url,
     (handler w).1 = Ok (ProcessingResponse "processing" (id r)
                           check_status_url))
  ∧ w_db (handler w).2 = w_db w
  ∧ Forall (λ e, starts_work e = false) (new_events w (handler w).2).

(** *** Frames and outcomes of computations *)

(** Every run of [m] relates the world it ends in to the world it started
    from. *)
Definition respects {A} (R : relation World) (m : M A) : Prop :=
  ∀ w, R w (m w).2.

(** [m] never runs out of fuel. *)
Definition lands {A} (m : M A) : Prop := ∀ w, (m w).1 ≠ Stuck.

(** [m] always returns: it neither raises nor runs out of fuel. *)
Definition answers {A} (m : M A) : Prop := ∀ w, ∃ a, (m w).1 = Ok a.

(** The tables agree on every row but row [i]. *)
Definition same_rows_but (i : UUID) : relation World :=
  λ w w', ∀ j, j ≠ i → w_db w' !! j = w_db w !! j.

(** The trace grew by events of the given kind only. *)
Definition adds_only (allowed : Event → bool) : relation World :=
  λ w w', ∃ evs, w_trace w' = (w_trace w ++ evs)%list
                 ∧ Forall (λ e, allowed e = true) evs.

Definition cache_event (e : Event) : bool :=
  match e with CacheGet _ | CacheSet _ _ _ => true | _ => false end.

(** Redis is as it was and was not called. *)
Definition cache_untouched : relation World :=
  λ w w', w_redis w' = w_redis w ∧ w_redis_faults w' = w_redis_faults w
          ∧ adds_only (λ e, negb (cache_event e)) w w'.

(** The record store and the clock are as they were: only Redis and the
    trace may differ. *)
Definition same_store : relation World :=
  λ w w', w_db w' = w_db w ∧ w_db_faults w' = w_db_faults w
          ∧ w_uuid_calls w' = w_uuid_calls w ∧ w_now w' = w_now w.

Global Instance same_rows_but_preorder (i : UUID) : PreOrder (same_rows_but i).
Proof.
  split.
  - intros w j _. reflexivity.
  - intros a b c Hab Hbc j Hj. rewrite (Hbc j Hj). apply (Hab j Hj).
Qed.

Global Instance same_store_preorder : PreOrder same_store.
Proof.
  split.
  - intros w. repeat split.
  - intros a b c (H1 & H2 & H3 & H4) (K1 & K2 & K3 & K4).
    repeat split; congruence.
Qed.

Global Instance adds_only_preorder (allowed : Event → bool)
  : PreOrder (adds_only allowed).
Proof.
  split.
  - intros w. exists []. split; [symmetry; apply app_nil_r | constructor].
  - intros a b c (e1 & H1 & F1) (e2 & H2 & F2). exists (e1 ++ e2)%list. split.
    + rewrite H2, H1. symmetry. apply app_assoc.
    + apply Forall_app. split; assumption.
Qed.

Global Instance cache_untouched_preorder : PreOrder cache_untouched.
Proof.
  split.
  - intros w. repeat split. reflexivity.
  - intros a b c (H1 & H2 & H3) (K1 & K2 & K3).
    split; [congruence|]. split; [congruence|]. etransitivity; eassumption.
Qed.

(** A record [/generate] answers from: not expired, and in flight or
    Completed with an artifact reference. *)
Definition reusable (now : datetime) (r : Screenshot) : bool :=
  (now <? expires_at r)
  && (in_flight (status r)
      || (bool_decide (status r = COMPLETED) && PyStr.truthy_opt (s3_path r))).

(** An entry of the allow-list as [Settings] stores it: not empty,
    lower-case, without blanks around it and without a comma. *)
Definition clean_domain (d : string) : Prop :=
  d ≠ EmptyString ∧ PyStr.lower d = d ∧ Config.strip d = d
  ∧ PyStr.mem "," d = false.

(** A run of [n] slashes. *)
Fixpoint slashes (n : nat) : string :=
  match n with
  | O => EmptyString
  | S n' => String "/" (slashes n')
  end.

(** A record neither handler reuses: expired, or Failed. *)
Definition stale (now : datetime) (r : Screenshot) : bool :=
  negb (now <? expires_at r) || bool_decide (status r = FAILED).

(** The answer of [/generate] to an exception of the attempt. *)
Definition generation_error_response (exc : exn) : Response :=
  match exc with
  | HTTPException c d => JSONResponse c d
  | _ => JSONResponse HTTP_500_INTERNAL_SERVER_ERROR
           ("Generation failed: " +:+ exn_str exc)
  end.
(** * Properties *)

(** ** Strings *)

Lemma cons_app (c : ascii) (a b : string) :
  String c a +:+ b = String c (a +:+ b).
Proof. reflexivity. Qed.

Lemma take_drop (n : nat) (s : string) :
  PyStr.take n s +:+ PyStr.drop n s = s.
Proof.
  revert s; induction n as [|n IH]; intros [|c s]; simpl; try reflexivity.
  now rewrite cons_app, IH.
Qed.

Lemma take_length (n : nat) (s : string) :
  (String.length (PyStr.take n s) <= n)%nat.
Proof.
  revert s; induction n as [|n IH]; intros [|c s]; simpl; try lia.
  specialize (IH s); lia.
Qed.

Lemma endswith_suffix (s p : string) :
  PyStr.endswith s p = true → ∃ pre, s = pre +:+ p.
Proof.
  unfold PyStr.endswith; intros H.
  apply andb_prop in H as [_ H]. apply String.eqb_eq in H.
  exists (PyStr.take (String.length s - String.length p) s).
  rewrite <- H at 2. symmetry; apply take_drop.
Qed.


Lemma mem_app (c : ascii) (a b : string) :
  PyStr.mem c (a +:+ b) = PyStr.mem c a || PyStr.mem c b.
Proof.
  induction a as [|d a IH]; [reflexivity|].
  rewrite cons_app. simpl. rewrite IH. now rewrite orb_assoc.
Qed.






(** ** Validation *)

Lemma length_app (a b : string) :
  String.length (a +:+ b) = (String.length a + String.length b)%nat.
Proof.
  induction a as [|c a IH]; [reflexivity|].
  rewrite cons_app. simpl. now rewrite IH.
Qed.

Lemma drop_app (a b : string) : PyStr.drop (String.length a) (a +:+ b) = b.
Proof. induction a as [|c a IH]; [reflexivity|]. now rewrite cons_app. Qed.

Lemma suffix_endswith (pre p : string) : PyStr.endswith (pre +:+ p) p = true.
Proof.
  unfold PyStr.endswith. rewrite length_app.
  apply andb_true_intro; split.
  - apply Nat.leb_le. lia.
  - replace (String.length pre + String.length p - String.length p)%nat
      with (String.length pre) by lia.
    rewrite drop_app. apply String.eqb_refl.
Qed.

Lemma domain_matches_spec (domain a : string) :
  domain_matches domain a = true ↔
  domain = a ∨ ∃ pre, domain = pre +:+ "." +:+ a.
Proof.
  unfold domain_matches. rewrite orb_true_iff, String.eqb_eq. split.
  - intros [H|H]; [now left | right; now apply endswith_suffix].
  - intros [H|[pre H]]; [now left | right].
    rewrite H. apply suffix_endswith.
Qed.

Lemma truthy_nonempty (s : string) : PyStr.truthy s = true ↔ s ≠ EmptyString.
Proof. destruct s; simpl; split; congruence. Qed.

(** What the body of [validate_domain] accepts. *)
Lemma validate_domain_body_accepts (env : Env) (u d : string) :
  validate_domain_body env u = inr d ↔
  ∃ p, Urllib.urlparse u = inr p
       ∧ (Urllib.scheme p = "http" ∨ Urllib.scheme p = "https")
       ∧ d = PyStr.lower (Urllib.netloc p) ∧ d ≠ EmptyString
       ∧ (allow_list env = []
          ∨ ∃ a, In a (allow_list env)
                 ∧ (d = a ∨ ∃ pre, d = pre +:+ "." +:+ a)).
Proof.
  unfold validate_domain_body, allow_list.
  destruct (Urllib.urlparse u) as [e|p].
  { split; [discriminate|]. intros (p & H & _); discriminate. }
  destruct ((String.eqb (Urllib.scheme p) "http"
             || String.eqb (Urllib.scheme p) "https")
            && PyStr.truthy (PyStr.lower (Urllib.netloc p))) eqn:Hok.
  - apply andb_prop in Hok as [Hs Ht].
    apply orb_true_iff in Hs. rewrite !String.eqb_eq in Hs.
    apply truthy_nonempty in Ht. cbn [negb].
    destruct (ALLOWED_SCREENSHOT_DOMAINS (settings env)) as [[|a0 l]|] eqn:Ha;
      cbv beta iota.
    + split.
      * intros [= <-]. exists p. cbn. auto 10.
      * intros (p' & [= <-] & _ & -> & _). reflexivity.
    + destruct (existsb _ (a0 :: l)) eqn:Hex.
      * split.
        -- intros [= <-].
           apply existsb_exists in Hex as (a & Hin & Hm).
           apply domain_matches_spec in Hm.
           exists p. repeat split; auto. right; eauto.
        -- intros (p' & [= <-] & _ & -> & _). reflexivity.
      * split; [discriminate|].
        intros (p' & [= <-] & _ & -> & _ & [Hnil|(a & Hin & Hm)]).
        -- discriminate.
        -- apply domain_matches_spec in Hm.
           assert (existsb (domain_matches (PyStr.lower (Urllib.netloc p)))
                     (a0 :: l) = true)
             by (apply existsb_exists; eauto).
           congruence.
    + split.
      * intros [= <-]. exists p. cbn. auto 10.
      * intros (p' & [= <-] & _ & -> & _). reflexivity.
  - cbn [negb]. split; [discriminate|].
    intros (p' & [= <-] & Hs & -> & Ht & _).
    apply truthy_nonempty in Ht. rewrite Ht in Hok.
    rewrite andb_true_r in Hok. apply orb_false_iff in Hok as [H1 H2].
    apply String.eqb_neq in H1, H2. tauto.
Qed.

Lemma validate_domain_accepts (env : Env) (u d : string) :
  validate_domain env u = inr d ↔ validate_domain_body env u = inr d.
Proof.
  unfold validate_domain.
  destruct (validate_domain_body env u) as [e|d']; [|tauto].
  destruct (is_ValueError e); split; discriminate.
Qed.

Lemma urlparse_error (u : string) (e : exn) :
  Urllib.urlparse u = inl e → is_ValueError e = true.
Proof.
  unfold Urllib.urlparse. intros H.
  repeat case_match; simplify_eq; reflexivity.
Qed.

(** The body raises nothing but [ValueError]s. *)
Lemma validate_domain_body_error (env : Env) (u : string) (e : exn) :
  validate_domain_body env u = inl e → is_ValueError e = true.
Proof.
  unfold validate_domain_body.
  destruct (Urllib.urlparse u) as [e0|p] eqn:E.
  - intros [= <-]. eapply urlparse_error; eauto.
  - intros H. repeat case_match; simplify_eq; reflexivity.
Qed.

(** Every error of [validate_domain] is a [DomainValidationError]. *)
Lemma validate_domain_error (env : Env) (u : string) (e : exn) :
  validate_domain env u = inl e → e = DomainValidationError (exn_str e).
Proof.
  unfold validate_domain.
  destruct (validate_domain_body env u) as [e0|d] eqn:E; [|discriminate].
  rewrite (validate_domain_body_error _ _ _ E). now intros [= <-].
Qed.

(** C5 (as amended).  [validate_domain] accepts a URL exactly when it parses
    with scheme http or https and a non-empty network location and, when an
    allow-list is configured, the lower-cased network location (user
    information and port included) is an allowed domain or ends with a dot
    followed by one.  A request failing validation is answered by both
    handlers with status 400 and the reason, and leaves the world as it
    was: no record is created and no collaborator is called. *)
Theorem validation_gate (env : Env) (u : string) :
  (∀ d, validate_domain env u = inr d ↔
        ∃ p, Urllib.urlparse u = inr p
             ∧ (Urllib.scheme p = "http" ∨ Urllib.scheme p = "https")
             ∧ d = PyStr.lower (Urllib.netloc p) ∧ d ≠ EmptyString
             ∧ (allow_list env = []
                ∨ ∃ a, In a (allow_list env)
                       ∧ (d = a ∨ ∃ pre, d = pre +:+ "." +:+ a)))
  ∧ (∀ e, validate_domain env u = inl e →
          e = DomainValidationError (exn_str e)
          ∧ ∀ ttl width height force_refresh w,
              generate_og_image env u ttl width height force_refresh w
              = (Ok (JSONResponse HTTP_400_BAD_REQUEST (exn_str e)), w)
              ∧ ∀ fuel,
                  root_handler env fuel (Some u) ttl width height
                    force_refresh w
                  = (Ok (HTMLResponse (html_validation_failed e)
                           HTTP_400_BAD_REQUEST), w)).
Proof.
  split.
  - intros d. rewrite validate_domain_accepts.
    apply validate_domain_body_accepts.
  - intros e He. pose proof (validate_domain_error _ _ _ He) as Hd.
    split; [exact Hd|]. intros ttl width height force_refresh w.
    unfold generate_og_image, root_handler. rewrite He.
    destruct e; try discriminate Hd. split; reflexivity.
Qed.

Lemma validation_gate_witness :
  generate_og_image (Demo.env true (Some "example.com")) "https://evil.com/x"
    None None None false (Demo.world [])
  = (Ok (JSONResponse 400
           "URL validation error: Domain 'evil.com' is not allowed. Please contact support@kactica.com if you want to whitelist it."),
     Demo.world []).
Proof.
  refine (proj1 (proj2 (proj2 (validation_gate _ _)
                          (DomainValidationError _) _) _ _ _ _ _)).
  vm_compute. reflexivity.
Defined.

(** C5 as stated fails: with the allow-list [example.com], the URL
    [https://example.com:8443/] has scheme https and the allowed host
    [example.com], and is rejected. *)
Lemma validation_gate_counterexample :
  let env := Demo.env true (Some "example.com") in
  let u := "https://example.com:8443/" in
  allow_list env = ["example.com"]
  ∧ Urllib.urlparse u
    = inr (Urllib.mkParseResult "https" "example.com:8443" "/")
  ∧ Hostname.hostname "example.com:8443" = "example.com"
  ∧ accepts_as_stated env u = true
  ∧ validate_domain env u
    = inl (DomainValidationError
             "URL validation error: Domain 'example.com:8443' is not allowed. Please contact support@kactica.com if you want to whitelist it.").
Proof. vm_compute. repeat split. Qed.



(** ** Cache population *)

Lemma whole_seconds_bounds (expiresAt now : datetime) :
  0 ≤ cache_ttl_of expiresAt now * micro ≤ ttl_as_stated expiresAt now
  ∧ ttl_as_stated expiresAt now < (cache_ttl_of expiresAt now + 1) * micro.
Proof.
  unfold cache_ttl_of, ttl_as_stated, int_total_seconds, micro.
  set (d := expiresAt - now).
  destruct (Z.le_gt_cases 0 d) as [Hd|Hd].
  - rewrite Z.quot_div_nonneg by lia.
    pose proof (Z.div_pos d 1000000 Hd ltac:(lia)).
    pose proof (Z.mul_div_le d 1000000 ltac:(lia)).
    pose proof (Z.mul_succ_div_gt d 1000000 ltac:(lia)).
    lia.
  - assert (d ÷ 1000000 ≤ 0).
    { replace d with (- (- d)) by lia. rewrite Z.quot_opp_l by lia.
      pose proof (Z.quot_pos (- d) 1000000 ltac:(lia) ltac:(lia)). lia. }
    lia.
Qed.

Lemma set_cache_trace (k : string) (v : list (string * string)) (ttl : Z)
    (w : World) :
  (set_cache k v ttl w).1 = Ok tt
  ∧ w_trace (set_cache k v ttl w).2 = (w_trace w ++ [CacheSet k v ttl])%list
  ∧ w_db (set_cache k v ttl w).2 = w_db w
  ∧ w_now (set_cache k v ttl w).2 = w_now w
  ∧ w_redis (set_cache k v ttl w).2
    = match w_redis w, w_redis_faults w with
      | Some store, ([] | None :: _) =>
          Some (<[k := mkCacheEntry v ttl (w_now w + ttl * micro)]> store)
      | r, _ => r
      end.
Proof.
  destruct w as [now db dbf [store|] [|[msg|] rf] uc tr]; cbn; auto.
Qed.

(** C4 (as amended).  The time to live is the time left counted in whole
    seconds, the fraction dropped: [max(0, int(expiresAt − now))].  The
    entry is written (Redis allowing) with exactly that time to live if and
    only if it is positive and the reference is not empty; otherwise
    nothing happens at all, so a lookup of the key gives what it gave
    before. *)
Theorem update_cache_populates (cache_key s3_url : string)
    (expiresAt : datetime) (w : World) :
  let ttl := cache_ttl_of expiresAt (w_now w) in
  let w' := (update_cache cache_key s3_url expiresAt w).2 in
  ttl = Z.max 0 ((expiresAt - w_now w) ÷ 1000000)
  ∧ (0 ≤ ttl * micro ≤ ttl_as_stated expiresAt (w_now w)
     ∧ ttl_as_stated expiresAt (w_now w) < (ttl + 1) * micro)
  ∧ (if (0 <? ttl) && PyStr.truthy s3_url
     then w_trace w'
          = (w_trace w ++ [CacheSet cache_key [("s3_url", s3_url)] ttl])%list
          ∧ w_redis w'
            = match w_redis w, w_redis_faults w with
              | Some store, ([] | None :: _) =>
                  Some (<[cache_key :=
                            mkCacheEntry [("s3_url", s3_url)] ttl
                              (w_now w + ttl * micro)]> store)
              | r, _ => r
              end
     else update_cache cache_key s3_url expiresAt w = (Ok tt, w)
          ∧ check_cache cache_key w' = check_cache cache_key w).
Proof.
  cbv zeta. split; [reflexivity|]. split; [apply whole_seconds_bounds|].
  unfold update_cache, datetime_now, mbind, M_bind. cbv beta iota.
  destruct ((0 <? cache_ttl_of expiresAt (w_now w)) && PyStr.truthy s3_url).
  - pose proof (set_cache_trace cache_key [("s3_url", s3_url)]
                  (cache_ttl_of expiresAt (w_now w)) w) as (_ & Ht & _ & _ & Hr).
    auto.
  - split; reflexivity.
Qed.

(** C4 as stated fails: with half a second left and a reference to show,
    the time left is positive, yet nothing is written. *)
Lemma update_cache_populates_counterexample :
  ¬ populate_as_stated "og_image:https://example.com/:1200:630"
      "https://cdn.example.net/og_images/7.png"
      (Demo.hour + 500000) (Demo.world []).
Proof.
  unfold populate_as_stated. intros [H _].
  destruct H as (ttl & _ & H).
  - split; [reflexivity | discriminate].
  - vm_compute in H. discriminate.
Qed.

(** ** The status-update operation *)

Ltac run_m :=
  unfold try_except, pop_db_fault, pop_redis_fault, mbind, M_bind, mret, M_ret,
    raise, lift, lift_sum, tell, get_world, put_db, put_redis, datetime_now;
  cbn -[lookup insert PyStr.take].

Lemma update_found (i : UUID) (st : ScreenshotStatus) (s3 err : option string)
    (w : World) (r : Screenshot) :
  next_write_ok w → w_db w !! i = Some r →
  _update_db_status i st s3 err w
  = (Ok true, after_write i st (apply_status st s3 err r) w).
Proof.
  unfold next_write_ok.
  destruct w as [now db [|[e|] dbf] redis rf uc tr];
    unfold _update_db_status; run_m; intros Hf Hr;
    try discriminate; rewrite Hr; reflexivity.
Qed.

Lemma update_missing (i : UUID) (st : ScreenshotStatus)
    (s3 err : option string) (w : World) :
  next_write_ok w → w_db w !! i = None →
  _update_db_status i st s3 err w
  = (Ok false, with_db_faults (tl (w_db_faults w)) w).
Proof.
  unfold next_write_ok.
  destruct w as [now db [|[e|] dbf] redis rf uc tr];
    unfold _update_db_status; run_m; intros Hf Hr;
    try discriminate; rewrite Hr; reflexivity.
Qed.

Lemma update_fault (i : UUID) (st : ScreenshotStatus) (s3 err : option string)
    (w : World) (e : exn) :
  hd None (w_db_faults w) = Some e →
  _update_db_status i st s3 err w = (Raise e, after_rollback w).
Proof.
  destruct w as [now db [|[e'|] dbf] redis rf uc tr];
    unfold _update_db_status; run_m; intros [= ->].
  reflexivity.
Qed.

(** The table after an update: the row is rewritten, or nothing changes. *)
Lemma update_table (i : UUID) (st : ScreenshotStatus) (s3 err : option string)
    (w : World) :
  w_db (_update_db_status i st s3 err w).2
  = match hd None (w_db_faults w), w_db w !! i with
    | None, Some r => <[i := apply_status st s3 err r]> (w_db w)
    | _, _ => w_db w
    end.
Proof.
  destruct (hd None (w_db_faults w)) as [e|] eqn:Hf.
  - now rewrite (update_fault _ _ _ _ _ _ Hf).
  - destruct (w_db w !! i) as [r|] eqn:Hr.
    + now rewrite (update_found _ _ _ _ _ _ Hf Hr).
    + now rewrite (update_missing _ _ _ _ _ Hf Hr).
Qed.

Lemma apply_status_ok (st : ScreenshotStatus) (s3 err : option string)
    (r : Screenshot) :
  record_ok r → record_ok (apply_status st s3 err r).
Proof.
  intros [Hc Hf].
  destruct st; split; cbn -[PyStr.take]; try discriminate; auto.
  intros _. eexists; split; [reflexivity | apply take_length].
Qed.

(** C2 as stated fails: a failure update reaching a Completed row changes
    its status to Failed. *)
Lemma status_update_last_write_wins_counterexample :
  ¬ update_as_stated 7 FAILED None (Some "late failure")
      (Demo.world [Demo.row 7 COMPLETED (Some "https://cdn.example.net/og_images/7.png")]).
Proof.
  intros H.
  specialize (H (Demo.row 7 COMPLETED (Some "https://cdn.example.net/og_images/7.png"))
                (apply_status FAILED None (Some "late failure")
                   (Demo.row 7 COMPLETED (Some "https://cdn.example.net/og_images/7.png")))
                eq_refl eq_refl eq_refl).
  discriminate H.
Qed.

Lemma run_updates_ok (ops : list StatusUpdate) (w : World) :
  (∀ i r, w_db w !! i = Some r → record_ok r) →
  ∀ i r, w_db (run_updates ops w) !! i = Some r → record_ok r.
Proof.
  unfold run_updates. revert w.
  induction ops as [|op ops IH]; intros w Hw; [exact Hw|].
  cbn [foldl]. apply IH. intros i r. rewrite update_table.
  destruct (hd None (w_db_faults w)); [apply Hw|].
  destruct (w_db w !! su_id op) as [r0|] eqn:Hr0; [|apply Hw].
  rewrite lookup_insert. case_decide as Hi.
  - intros [= <-]. apply apply_status_ok. eapply Hw; eauto.
  - apply Hw.
Qed.

(** Updates create no row, and an artifact reference comes from nowhere
    but a Completed update of that row. *)
Lemma run_updates_reference (ops : list StatusUpdate) :
  ∀ (w : World) (i : UUID) (r : Screenshot),
    w_db (run_updates ops w) !! i = Some r →
    ∃ r0, w_db w !! i = Some r0
          ∧ (s3_path r = s3_path r0
             ∨ ∃ op, In op ops ∧ su_id op = i ∧ su_status op = COMPLETED
                     ∧ su_s3_path op = s3_path r).
Proof.
  induction ops as [|op ops IH]; intros w i r Hr.
  - exists r. split; [exact Hr | now left].
  - unfold run_updates in Hr. cbn [foldl] in Hr.
    apply IH in Hr as (r1 & Hr1 & Href).
    assert (Hlater : ∀ r0, s3_path r1 = s3_path r0 →
              s3_path r = s3_path r0
              ∨ ∃ op', In op' (op :: ops) ∧ su_id op' = i
                       ∧ su_status op' = COMPLETED
                       ∧ su_s3_path op' = s3_path r).
    { intros r0 E. destruct Href as [Href|(op' & Hin & Hop)].
      - left. congruence.
      - right. exists op'. split; [now right | exact Hop]. }
    rewrite update_table in Hr1.
    destruct (hd None (w_db_faults w)); [eauto|].
    destruct (w_db w !! su_id op) as [r0|] eqn:Hr0; [|eauto].
    rewrite lookup_insert in Hr1. case_decide as Hi; [|eauto].
    injection Hr1 as <-. subst i. exists r0. split; [exact Hr0|].
    destruct (su_status op) eqn:Hst; try (apply Hlater; reflexivity).
    destruct Href as [Href|(op' & Hin & Hop)].
    + right. exists op. split; [now left|]. repeat split; [exact Hst|].
      rewrite Href. reflexivity.
    + right. exists op'. split; [now right | exact Hop].
Qed.

(** C9 (as amended).  After any sequence of status updates on a table
    whose rows satisfy it (a new row is Pending and does), a Completed row
    has no error detail and a Failed row has an error detail of at most
    500 characters.  The artifact reference is not tied to the status: it
    is the one the row had at the start or the one given by a Completed
    update of that row, whatever the status is now. *)
Theorem status_updates_keep_rows_ok (ops : list StatusUpdate) (w : World)
    (i : UUID) (r : Screenshot) :
  (∀ j r0, w_db w !! j = Some r0 → record_ok r0) →
  w_db (run_updates ops w) !! i = Some r →
  (status r = COMPLETED → error_message r = None)
  ∧ (status r = FAILED →
     ∃ m, error_message r = Some m ∧ (String.length m ≤ 500)%nat)
  ∧ ∃ r0, w_db w !! i = Some r0
          ∧ (s3_path r = s3_path r0
             ∨ ∃ op, In op ops ∧ su_id op = i ∧ su_status op = COMPLETED
                     ∧ su_s3_path op = s3_path r).
Proof.
  intros Hw Hr. destruct (run_updates_ok ops w Hw i r Hr) as [Hc Hf].
  split; [exact Hc|]. split; [exact Hf|].
  now apply run_updates_reference.
Qed.

Lemma status_updates_keep_rows_ok_witness :
  let ops := [mkStatusUpdate 7 PROCESSING None None;
              mkStatusUpdate 7 FAILED None (Some "Timeout waiting for page")] in
  let w := Demo.world [Demo.row 7 PENDING None] in
  let r := mkScreenshot 7 "https://example.com/" None 0 (24 * Demo.hour) FAILED
             (Some "Timeout waiting for page") in
  (status r = COMPLETED → error_message r = None)
  ∧ (status r = FAILED →
     ∃ m, error_message r = Some m ∧ (String.length m ≤ 500)%nat)
  ∧ ∃ r0, w_db w !! 7%N = Some r0
          ∧ (s3_path r = s3_path r0
             ∨ ∃ op, In op ops ∧ su_id op = 7%N ∧ su_status op = COMPLETED
                     ∧ su_s3_path op = s3_path r).
Proof.
  intros ops w r. apply (status_updates_keep_rows_ok ops w 7 r).
  - intros j r0 Hj.
    change (w_db w)
      with (<[7%N := Demo.row 7 PENDING None]> (∅ : gmap N Screenshot)) in Hj.
    apply lookup_insert_Some in Hj as [[_ <-]|[_ Hj]].
    + split; discriminate.
    + rewrite lookup_empty in Hj. discriminate Hj.
  - vm_compute. reflexivity.
Defined.

(** C9 as stated fails: a Completed update followed by a Failed update
    leaves a Failed row that still has its artifact reference. *)
Lemma status_updates_keep_rows_ok_counterexample :
  let ops := [mkStatusUpdate 7 COMPLETED
                (Some "https://cdn.example.net/og_images/7.png") None;
              mkStatusUpdate 7 FAILED None (Some "late failure")] in
  let w := Demo.world [Demo.row 7 PROCESSING None] in
  (∀ i r, w_db w !! i = Some r → record_as_stated r)
  ∧ ∃ r, w_db (run_updates ops w) !! 7%N = Some r
         ∧ status r = FAILED
         ∧ s3_path r = Some "https://cdn.example.net/og_images/7.png"
         ∧ ¬ record_as_stated r.
Proof.
  intros ops w. split.
  - intros i r Hi.
    change (w_db w)
      with (<[7%N := Demo.row 7 PROCESSING None]> (∅ : gmap N Screenshot))
      in Hi.
    apply lookup_insert_Some in Hi as [[_ <-]|[_ Hi]].
    + repeat split; discriminate.
    + rewrite lookup_empty in Hi. discriminate Hi.
  - eexists. split; [vm_compute; reflexivity|].
    repeat split. intros (_ & _ & H). discriminate (H eq_refl).
Qed.

(** ** Running the monad *)

Lemma bind_ok {A B} (m : M A) (f : A → M B) (w w' : World) (a : A) :
  m w = (Ok a, w') → (m ≫= f) w = f a w'.
Proof. unfold mbind, M_bind. now intros ->. Qed.

Lemma bind_raise {A B} (m : M A) (f : A → M B) (w w' : World) (e : exn) :
  m w = (Raise e, w') → (m ≫= f) w = (Raise e, w').
Proof. unfold mbind, M_bind. now intros ->. Qed.

Lemma try_ok {A} (m : M A) (h : exn → M A) (w w' : World) (a : A) :
  m w = (Ok a, w') → try_except m h w = (Ok a, w').
Proof. unfold try_except. now intros ->. Qed.

Lemma try_raise {A} (m : M A) (h : exn → M A) (w w' : World) (e : exn) :
  m w = (Raise e, w') → try_except m h w = h e w'.
Proof. unfold try_except. now intros ->. Qed.

(** Rendering and publishing touch nothing but the trace, and write no
    status. *)
Lemma perform_frame (env : Env) (rid u : string) (width height : Z)
    (w : World) (i : UUID) :
  let w' := (_perform_screenshot_and_upload env rid u width height w).2 in
  w_db w' = w_db w ∧ w_db_faults w' = w_db_faults w ∧ w_now w' = w_now w
  ∧ w_redis w' = w_redis w ∧ w_redis_faults w' = w_redis_faults w
  ∧ status_writes i (w_trace w') = status_writes i (w_trace w).
Proof.
  unfold _perform_screenshot_and_upload.
  destruct w as [now db dbf redis rf uc tr].
  destruct (uuid_parse env rid) as [j|]; [|cbn; auto 10].
  run_m. destruct (take_screenshot env u width height) as [e|path]; cbn.
  - unfold status_writes. rewrite omap_app. cbn. rewrite app_nil_r. auto 10.
  - destruct (upload_to_s3 env path _) as [e|s3]; cbn;
      unfold status_writes; rewrite !omap_app; cbn; rewrite !app_nil_r;
      auto 10.
Qed.

(** The block that records a failure: it never raises; the row becomes
    Failed, or the failed write is rolled back and logged. *)
Lemma record_failure_run (i : UUID) (detail : string) (msg_of : exn → string)
    (w : World) :
  let m := try_except
             (_update_db_status i FAILED None (Some detail);; mret tt)
             (λ db_fail_exc, tell (LogError (msg_of db_fail_exc))) in
  m w = (Ok tt,
         match hd None (w_db_faults w), w_db w !! i with
         | Some e2, _ => emit (LogError (msg_of e2)) (after_rollback w)
         | None, Some r =>
             after_write i FAILED (apply_status FAILED None (Some detail) r) w
         | None, None => with_db_faults (tl (w_db_faults w)) w
         end).
Proof.
  cbv zeta. destruct (hd None (w_db_faults w)) as [e2|] eqn:Hf.
  - erewrite try_raise; [reflexivity|].
    erewrite bind_raise; [reflexivity|]. now apply update_fault.
  - destruct (w_db w !! i) as [r|] eqn:Hr.
    + erewrite try_ok; [reflexivity|].
      erewrite bind_ok; [reflexivity|]. now apply update_found.
    + erewrite try_ok; [reflexivity|].
      erewrite bind_ok; [reflexivity|]. now apply update_missing.
Qed.

(** ** Failures of a generation attempt *)

(** C7.  In an inline generation attempt whose render-and-publish step
    raises, the original exception is raised again unchanged.  Before that
    the row is set to Failed with the text of the exception cut at 500
    characters; when that write itself fails it is rolled back and logged,
    the row stays Processing, and the original exception is still the one
    raised. *)
Theorem sync_failure_is_recorded_and_reraised (env : Env) (i : UUID)
    (u : string) (width height : Z) (cache_key : string) (expires : datetime)
    (w : World) (r : Screenshot) (exc : exn) :
  let processing := apply_status PROCESSING None None r in
  let run := run_sync_generation env i u width height cache_key expires w in
  w_db w !! i = Some r →
  next_write_ok w →
  (_perform_screenshot_and_upload env (uuid_str env i) u width height
     (after_write i PROCESSING processing w)).1 = Raise exc →
  run.1 = Raise exc
  ∧ match hd None (tl (w_db_faults w)) with
    | None =>
        ∃ r', w_db run.2 !! i = Some r'
              ∧ status r' = FAILED
              ∧ error_message r' = Some (PyStr.take 500 (exn_str exc))
              ∧ (String.length (PyStr.take 500 (exn_str exc)) ≤ 500)%nat
              ∧ last (w_trace run.2) = Some (DbSetStatus i FAILED)
    | Some db_fail_exc =>
        w_db run.2 !! i = Some processing
        ∧ last (w_trace run.2)
          = Some (LogError
                    ("Failed to update DB status to FAILED after sync error: "
                     +:+ exn_str db_fail_exc))
    end.
Proof.
  intros processing run Hr Hf Hp. subst run.
  set (w1 := after_write i PROCESSING processing w) in *.
  pose proof (perform_frame env (uuid_str env i) u width height w1 i)
    as (Hdb & Hfaults & _).
  destruct (_perform_screenshot_and_upload env (uuid_str env i) u width
              height w1) as [res w2] eqn:Hrun.
  cbn [fst snd] in *. subst res.
  unfold run_sync_generation.
  erewrite try_raise; cycle 1.
  { erewrite bind_ok; [|apply (update_found _ _ _ _ _ _ Hf Hr)].
    erewrite bind_raise; [reflexivity|]. exact Hrun. }
  erewrite bind_ok; [|reflexivity].
  erewrite bind_ok; [|apply record_failure_run].
  cbn [raise fst snd].
  split; [reflexivity|].
  cbn [emit w_db w_db_faults]. rewrite Hdb, Hfaults.
  cbn [w1 after_write emit with_db with_db_faults w_db w_db_faults].
  rewrite lookup_insert_eq.
  destruct (hd None (tl (w_db_faults w))) as [e2|].
  - cbn [emit after_rollback with_db_faults w_db w_trace].
    rewrite Hdb. cbn [w1 after_write emit with_db w_db].
    rewrite lookup_insert_eq. split; [reflexivity|]. apply last_snoc.
  - eexists. cbn [after_write emit with_db w_db w_trace].
    rewrite lookup_insert_eq. split; [reflexivity|].
    split; [reflexivity|]. split; [reflexivity|].
    split; [apply take_length | apply last_snoc].
Qed.

Lemma sync_failure_is_recorded_and_reraised_witness :
  let run := run_sync_generation (Demo.env_render_fails false) 7
               "https://example.com/" 1200 630
               "og_image:https://example.com/:1200:630" (25 * Demo.hour)
               (Demo.world [Demo.row 7 PENDING None]) in
  run.1 = Raise (Exception "TimeoutException" "Timeout waiting for page")
  ∧ ∃ r', w_db run.2 !! 7%N = Some r'
          ∧ status r' = FAILED
          ∧ error_message r' = Some "Timeout waiting for page".
Proof.
  destruct (sync_failure_is_recorded_and_reraised
              (Demo.env_render_fails false) 7 "https://example.com/" 1200 630
              "og_image:https://example.com/:1200:630" (25 * Demo.hour)
              (Demo.world [Demo.row 7 PENDING None])
              (Demo.row 7 PENDING None)
              (Exception "TimeoutException" "Timeout waiting for page")
              eq_refl eq_refl eq_refl) as [H1 (r' & H2 & H3 & H4 & _)].
  split; [exact H1|]. exists r'. repeat split; assumption.
Defined.

(** The same holds of the Celery task: the exception of the core logic is
    raised again after the row was set to Failed, or after the failed
    write was logged. *)
Lemma task_failure_is_recorded_and_reraised (env : Env) (record_id : string)
    (i : UUID) (u : string) (width height : Z) (w : World) (r : Screenshot)
    (exc : exn) :
  let processing := apply_status PROCESSING None None r in
  let run := generate_screenshot_task env record_id u width height w in
  uuid_parse env record_id = Some i →
  w_db w !! i = Some r →
  next_write_ok w →
  (_perform_screenshot_and_upload env record_id u width height
     (after_write i PROCESSING processing w)).1 = Raise exc →
  run.1 = Raise exc
  ∧ match hd None (tl (w_db_faults w)) with
    | None =>
        ∃ r', w_db run.2 !! i = Some r'
              ∧ status r' = FAILED
              ∧ error_message r' = Some (PyStr.take 500 (exn_str exc))
    | Some db_fail_exc =>
        w_db run.2 !! i = Some processing
        ∧ last (w_trace run.2)
          = Some (LogError
                    ("[Celery Task] Failed to set FAILED status for "
                     +:+ uuid_str env i +:+ ": " +:+ exn_str db_fail_exc))
    end.
Proof.
  intros processing run Hid Hr Hf Hp. subst run.
  set (w1 := after_write i PROCESSING processing w) in *.
  pose proof (perform_frame env record_id u width height w1 i)
    as (Hdb & Hfaults & _).
  destruct (_perform_screenshot_and_upload env record_id u width height w1)
    as [res w2] eqn:Hrun.
  cbn [fst snd] in *. subst res.
  unfold generate_screenshot_task. rewrite Hid.
  erewrite bind_ok; cycle 1.
  { erewrite try_ok; [reflexivity|].
    apply (update_found _ _ _ _ _ _ Hf Hr). }
  cbn [negb].
  erewrite try_raise; cycle 1.
  { erewrite bind_raise; [reflexivity|]. exact Hrun. }
  erewrite bind_ok; [|reflexivity].
  erewrite bind_ok; [|apply record_failure_run].
  cbn [raise fst snd].
  split; [reflexivity|].
  cbn [emit w_db w_db_faults]. rewrite Hdb, Hfaults.
  cbn [w1 after_write emit with_db with_db_faults w_db w_db_faults].
  rewrite lookup_insert_eq.
  destruct (hd None (tl (w_db_faults w))) as [e2|].
  - cbn [emit after_rollback with_db_faults w_db w_trace].
    rewrite Hdb. cbn [w1 after_write emit with_db w_db].
    rewrite lookup_insert_eq. split; [reflexivity|]. apply last_snoc.
  - eexists. cbn [after_write emit with_db w_db w_trace].
    rewrite lookup_insert_eq. repeat split; reflexivity.
Qed.

(** C8.  When the handoff to the task queue raises, the dispatcher does not
    return: it raises an [HTTPException] with status 500.  Before that the
    row is set to Failed with the detail "Failed to queue task"; when that
    write itself fails it is rolled back and logged, and the same
    [HTTPException] is raised. *)
Theorem enqueue_failure_is_recorded_and_surfaced (env : Env) (i : UUID)
    (u : string) (width height : Z) (w : World) (e : exn) :
  let run := dispatch_celery_task env i u width height w in
  delay env (uuid_str env i) u width height = inl e →
  run.1 = Raise (HTTPException 500 "Failed to queue generation task")
  ∧ match hd None (w_db_faults w), w_db w !! i with
    | None, Some r =>
        ∃ r', w_db run.2 !! i = Some r'
              ∧ status r' = FAILED
              ∧ error_message r' = Some "Failed to queue task"
              ∧ last (w_trace run.2) = Some (DbSetStatus i FAILED)
    | None, None => w_db run.2 = w_db w
    | Some db_fail_exc, _ =>
        w_db run.2 = w_db w
        ∧ last (w_trace run.2)
          = Some (LogError
                    ("Failed to update DB status to FAILED after Celery dispatch error: "
                     +:+ exn_str db_fail_exc))
    end.
Proof.
  intros run He. subst run. unfold dispatch_celery_task.
  erewrite try_raise; cycle 1.
  { erewrite bind_ok; [|reflexivity].
    erewrite bind_raise; [reflexivity|]. rewrite He. reflexivity. }
  erewrite bind_ok; [|reflexivity].
  erewrite bind_ok; [|apply record_failure_run].
  cbn [raise fst snd]. split; [reflexivity|].
  cbn [emit w_db w_db_faults].
  destruct (hd None (w_db_faults w)) as [e2|].
  - split; [reflexivity | apply last_snoc].
  - destruct (w_db w !! i) as [r|]; [|reflexivity].
    eexists. cbn [after_write emit with_db w_db w_trace].
    rewrite lookup_insert_eq. repeat split; try reflexivity.
    apply last_snoc.
Qed.

Lemma enqueue_failure_is_recorded_and_surfaced_witness :
  let run := dispatch_celery_task Demo.env_queue_down 7
               "https://example.com/" 1200 630
               (Demo.world [Demo.row 7 PENDING None]) in
  run.1 = Raise (HTTPException 500 "Failed to queue generation task")
  ∧ ∃ r', w_db run.2 !! 7%N = Some r'
          ∧ status r' = FAILED
          ∧ error_message r' = Some "Failed to queue task".
Proof.
  destruct (enqueue_failure_is_recorded_and_surfaced Demo.env_queue_down 7
              "https://example.com/" 1200 630
              (Demo.world [Demo.row 7 PENDING None])
              (Exception "OperationalError" "Connection refused") eq_refl)
    as [H1 (r' & H2 & H3 & H4 & _)].
  split; [exact H1|]. exists r'. repeat split; assumption.
Defined.

(** The orchestrator turns the dispatch failure into a 500 response, and
    the row it had created is left Failed. *)
Example generate_with_queue_down :
  let run := generate_og_image Demo.env_queue_down "https://example.com/"
               None None None false (Demo.world []) in
  run.1 = Ok (JSONResponse 500 "Failed to queue generation task")
  ∧ (status <$> w_db run.2 !! 100%N) = Some FAILED.
Proof. vm_compute. split; reflexivity. Qed.

(** ** The completion poller *)







(** A job that never leaves Processing: the caller gets the 504 sixty
    seconds after the start, the cache untouched. *)
Example poll_times_out :
  let env := Demo.env true None in
  let w := Demo.world [Demo.row 7 PROCESSING None] in
  let run := poll_task_completion env 31 7
               "og_image:https://example.com/:1200:630" w in
  run.1 = Raise (HTTPException 504 timeout_detail)
  ∧ w_now run.2 = w_now w + 60 * Demo.second
  ∧ w_redis run.2 = w_redis w.
Proof. vm_compute. repeat split. Qed.

(** A job completed by the worker during the sleep that starts six seconds
    in: the next poll, eight seconds in, returns the reference and has
    populated the cache. *)
Example poll_sees_completion :
  let s3 := "https://cdn.example.net/og_images/7.png" in
  let env := Demo.env_worker 7 (Demo.hour + 6 * Demo.second) s3 in
  let w := Demo.world [Demo.row 7 PROCESSING None] in
  let key := "og_image:https://example.com/:1200:630" in
  let run := poll_task_completion env 31 7 key w in
  run.1 = Ok (Some s3)
  ∧ w_now run.2 = w_now w + 8 * Demo.second
  ∧ (check_cache key run.2).1 = Ok (Some [("s3_url", s3)]).
Proof. vm_compute. repeat split. Qed.

(** ** The record store *)

Lemma foldl_newest (l : list Screenshot) :
  ∀ acc,
    match foldl newest acc l with
    | Some r =>
        (acc = Some r ∨ In r l)
        ∧ (∀ a, acc = Some a → created_at a ≤ created_at r)
        ∧ (∀ x, In x l → created_at x ≤ created_at r)
    | None => acc = None ∧ l = []
    end.
Proof.
  induction l as [|x l IH]; intros acc; cbn [foldl].
  - destruct acc as [a|]; [|auto].
    split; [auto|]. split; [intros ? [= <-]; lia | intros ? []].
  - specialize (IH (newest acc x)).
    destruct (foldl newest (newest acc x) l) as [r|].
    + destruct IH as (Hin & Hacc & Hl).
      assert (Hx : created_at x ≤ created_at r
                   ∧ ∀ a, acc = Some a → created_at a ≤ created_at r).
      { destruct acc as [a|]; cbn [newest] in Hacc.
        - destruct (created_at a <? created_at x) eqn:E.
          + specialize (Hacc x eq_refl). apply Z.ltb_lt in E.
            split; [lia | intros ? [= <-]; lia].
          + specialize (Hacc a eq_refl). apply Z.ltb_ge in E.
            split; [lia | intros ? [= <-]; lia].
        - specialize (Hacc x eq_refl). split; [lia | discriminate]. }
      destruct Hx as [Hx Ha]. split; [|split; [exact Ha|]].
      * destruct Hin as [Hin|Hin]; [|right; right; exact Hin].
        destruct acc as [a|]; cbn [newest] in Hin.
        -- destruct (created_at a <? created_at x); injection Hin as <-;
             [right; left; reflexivity | left; reflexivity].
        -- injection Hin as <-. right; left; reflexivity.
      * intros y [<-|Hy]; [exact Hx | apply Hl, Hy].
    + destruct IH as [Hacc _]. destruct acc as [a|]; cbn [newest] in Hacc;
        [destruct (created_at a <? created_at x)|]; discriminate.
Qed.

(** [find_existing_record] gives a row of the table for the URL with the
    greatest [created_at], and nothing only when the URL has no row. *)
Lemma most_recent_for_url_spec (db : gmap N Screenshot) (u : string) :
  match most_recent_for_url db u with
  | Some r =>
      (∃ i, db !! i = Some r) ∧ url r = u
      ∧ ∀ i r', db !! i = Some r' → url r' = u →
                created_at r' ≤ created_at r
  | None => ∀ i r', db !! i = Some r' → url r' ≠ u
  end.
Proof.
  unfold most_recent_for_url.
  pose proof (foldl_newest (rows_for_url db u) None) as H.
  assert (Hrows : ∀ x, In x (rows_for_url db u)
                       ↔ (∃ i, db !! i = Some x) ∧ url x = u).
  { intros x. unfold rows_for_url. rewrite filter_In, String.eqb_eq.
    rewrite <- list_elem_of_In, list_elem_of_fmap. split.
    - intros [([i y] & -> & Hy) Hu]. apply elem_of_map_to_list in Hy. eauto.
    - intros [[i Hi] Hu]. split; [|exact Hu].
      exists (i, x). split; [reflexivity|]. now apply elem_of_map_to_list. }
  destruct (foldl newest None (rows_for_url db u)) as [r|].
  - destruct H as ([H|H] & _ & Hmax); [discriminate|].
    apply Hrows in H as [Hi Hu]. split; [exact Hi|]. split; [exact Hu|].
    intros i r' Hr' Hu'. apply Hmax, Hrows. eauto.
  - destruct H as [_ Hnil]. intros i r' Hr' Hu'.
    assert (Hin : In r' (rows_for_url db u)) by (apply Hrows; eauto).
    rewrite Hnil in Hin. destruct Hin.
Qed.

(** ** The orchestrator *)

Lemma new_events_app (w w' : World) (evs : list Event) :
  w_trace w' = (w_trace w ++ evs)%list → new_events w w' = evs.
Proof. unfold new_events. intros ->. apply drop_app_length. Qed.

(** A cache lookup never raises and touches neither the table nor the
    clock. *)
Lemma check_cache_frame (cache_key : string) (w : World) :
  (∃ found, (check_cache cache_key w).1 = Ok found)
  ∧ w_db (check_cache cache_key w).2 = w_db w
  ∧ w_now (check_cache cache_key w).2 = w_now w
  ∧ w_trace (check_cache cache_key w).2
    = (w_trace w ++ [CacheGet cache_key])%list.
Proof.
  unfold check_cache, get_cache.
  destruct w as [now db dbf [store|] [|[msg|] rf] uc tr]; run_m;
    try (split; [eexists; reflexivity | auto]).
  all: unfold redis_get; destruct (store !! cache_key) as [[v ttl ex]|];
    cbn -[lookup insert];
    [ destruct (now <? ex); [destruct v as [|? ?]|];
      try destruct (bool_decide _)
    | ];
    (split; [eexists; reflexivity | auto]).
Qed.

Lemma update_cache_quiet (cache_key s3_url : string) (expires : datetime)
    (w : World) :
  (update_cache cache_key s3_url expires w).1 = Ok tt
  ∧ ∃ evs, w_trace (update_cache cache_key s3_url expires w).2
           = (w_trace w ++ evs)%list
           ∧ Forall (λ e, starts_work e = false) evs.
Proof.
  unfold update_cache. erewrite bind_ok; [|reflexivity].
  destruct (_ && _).
  - pose proof (set_cache_trace cache_key [("s3_url", s3_url)]
                  (cache_ttl_of expires (w_now w)) w) as (H1 & H2 & _).
    split; [exact H1|]. eexists; split; [exact H2|]. repeat constructor.
  - split; [reflexivity|]. exists []. rewrite app_nil_r. split; constructor.
Qed.

Lemma update_cache_db (cache_key s3_url : string) (expires : datetime)
    (w : World) :
  w_db (update_cache cache_key s3_url expires w).2 = w_db w.
Proof.
  unfold update_cache. erewrite bind_ok; [|reflexivity].
  destruct (_ && _); [|reflexivity].
  apply (set_cache_trace cache_key [("s3_url", s3_url)]
           (cache_ttl_of expires (w_now w)) w).
Qed.

(** Polling creates no record and starts no generation work. *)
Lemma poll_loop_quiet (env : Env) (start_time : datetime) (task_id : UUID)
    (cache_key : string) (fuel : nat) :
  ∀ w, ∃ evs,
    w_trace (poll_loop env fuel start_time task_id cache_key w).2
    = (w_trace w ++ evs)%list
    ∧ Forall (λ e, starts_work e = false) evs.
Proof.
  induction fuel as [|fuel IH]; intros w.
  - exists []. rewrite app_nil_r. split; constructor.
  - cbn [poll_loop]. erewrite bind_ok; [|reflexivity].
    destruct (w_now w - start_time <? max_wait_seconds * micro);
      [|exists []; rewrite app_nil_r; split; constructor].
    erewrite bind_ok; [|reflexivity]. cbn [w_db emit].
    destruct (w_db w !! task_id) as [r|];
      [|exists [DbGet task_id]; split; repeat constructor].
    destruct (status r).
    1, 2: set (w1 := (asyncio_sleep env poll_interval_seconds
                        (emit (DbGet task_id) w)).2);
      erewrite (bind_ok _ _ _ w1); [|reflexivity];
      destruct (IH w1) as (evs & Ht & Hq);
      exists (DbGet task_id :: Sleep poll_interval_seconds :: evs);
      split; [|repeat constructor; exact Hq];
      rewrite Ht; subst w1;
      cbn [asyncio_sleep snd emit with_now with_db w_trace];
      rewrite <- !app_assoc; reflexivity.
    + destruct (PyStr.truthy_opt (s3_path r)).
      * pose proof (update_cache_quiet cache_key (PyStr.str_opt (s3_path r))
                      (expires_at r) (emit (DbGet task_id) w))
          as (H1 & evs & Ht & Hq).
        destruct (update_cache _ _ _ _) as [res w'] eqn:Hu.
        cbn [fst snd] in *. subst res.
        erewrite bind_ok; [|exact Hu]. cbn [mret M_ret snd].
        exists (DbGet task_id :: evs). split; [|constructor; auto].
        rewrite Ht. cbn [emit w_trace]. rewrite <- app_assoc. reflexivity.
      * erewrite bind_ok; [|reflexivity].
        exists [DbGet task_id]. split; repeat constructor.
    + exists [DbGet task_id]. split; repeat constructor.
Qed.

Lemma in_flight_not_completed (st : ScreenshotStatus) :
  in_flight st = true → bool_decide (st = COMPLETED) = false.
Proof. destruct st; vm_compute; congruence. Qed.

(** C1 (as amended).  A request with [force_refresh] false whose cache
    lookup misses and whose most recent record for the URL is Pending or
    Processing and unexpired creates no record and starts no generation
    work when it comes through [/generate], which answers InProgress with
    the id of that record, and when it comes through the root handler in
    deferred mode, which polls that record and answers with what the
    poller ends in.  In inline mode the root handler goes on as if it had
    found no record. *)
Theorem in_flight_record_is_reused (env : Env) (fuel : nat) (u : string)
    (ttl width height : option Z) (w : World) (r : Screenshot) :
  let key := make_cache_key u (default 1200 width) (default 630 height) in
  let w1 := emit (DbFind u) (check_cache key w).2 in
  let root := root_handler env fuel (Some u) ttl width height false w in
  (∃ domain, validate_domain env u = inr domain) →
  (check_cache key w).1 = Ok None →
  most_recent_for_url (w_db w) u = Some r →
  in_flight (status r) = true →
  w_now w < expires_at r →
  generate_og_image env u ttl width height false w
  = (Ok (ProcessingResponse "processing" (id r)
           (url_for_status env (uuid_str env (id r)))), w1)
  ∧ w_db w1 = w_db w
  ∧ new_events w w1 = [CacheGet key; DbFind u]
  ∧ if CELERY_ENABLED (settings env)
    then root = root_poll_answer u
                  (poll_task_completion env fuel (id r) key w1)
         ∧ Forall (λ e, starts_work e = false) (new_events w root.2)
    else root = root_step3 env fuel u (default 1200 width)
                  (default 630 height) key
                  (w_now w + ttl_seconds_of env ttl * micro) None None w1.
Proof.
  intros key w1 root [domain Hv] Hmiss Hr Hfl Hexp.
  pose proof (check_cache_frame key w) as (_ & Hdb & Hnow & Htr).
  destruct (check_cache key w) as [res w0] eqn:Hcc.
  cbn [fst snd] in *. subst res.
  assert (Hfind : find_existing_record u w0 = (Ok (Some r), emit (DbFind u) w0)).
  { unfold find_existing_record. erewrite bind_ok; [|reflexivity].
    erewrite bind_ok; [|reflexivity]. cbn [emit w_db mret M_ret].
    now rewrite Hdb, Hr. }
  assert (Hexp' : (w_now w <? expires_at r) = true) by now apply Z.ltb_lt.
  pose proof (in_flight_not_completed _ Hfl) as Hnc.
  split; [|split; [exact Hdb|split]].
  - unfold generate_og_image. rewrite Hv.
    erewrite bind_ok; [|exact Hcc]. cbv beta iota.
    erewrite bind_ok; [|reflexivity]. cbv beta iota.
    erewrite bind_ok; [|exact Hfind]. cbv beta iota.
    unfold generate_db_check. rewrite Hnow, Hnc, Hfl, Hexp'. cbn [andb].
    erewrite bind_ok; [|reflexivity]. reflexivity.
  - apply new_events_app. subst w1. cbn [emit w_trace].
    rewrite Htr, <- app_assoc. reflexivity.
  - assert (Hroot : root
                    = root_after_cache env fuel u (default 1200 width)
                        (default 630 height) key (w_now w)
                        (w_now w + ttl_seconds_of env ttl * micro) false w0).
    { subst root. unfold root_handler. rewrite Hv.
      erewrite bind_ok; [|reflexivity]. cbv beta iota.
      erewrite bind_ok; [|exact Hcc]. reflexivity. }
    rewrite Hroot. unfold root_after_cache.
    erewrite bind_ok; [|exact Hfind]. cbv beta iota.
    unfold root_db_check. rewrite Hnc, Hfl, Hexp'. cbn [andb].
    destruct (CELERY_ENABLED (settings env)) eqn:Hmode.
    + erewrite bind_ok; [|reflexivity].
      assert (Hstep :
                root_step3 env fuel u (default 1200 width) (default 630 height)
                  key (w_now w + ttl_seconds_of env ttl * micro) (Some r)
                  (Some (id r)) w1
                = root_poll_answer u
                    (poll_task_completion env fuel (id r) key w1)).
      { assert (Hbody :
                  root_generate_or_poll env fuel u (default 1200 width)
                    (default 630 height) key
                    (w_now w + ttl_seconds_of env ttl * micro) (Some r)
                    (Some (id r)) w1
                  = (s3_url ← poll_task_completion env fuel (id r) key;
                     mret (Some (RedirectResponse s3_url
                                   HTTP_307_TEMPORARY_REDIRECT))) w1).
        { unfold root_generate_or_poll.
          erewrite bind_ok; [|reflexivity]. cbv beta iota.
          rewrite Hmode. reflexivity. }
        unfold root_step3.
        destruct (poll_task_completion env fuel (id r) key w1)
          as [[s3|e|] w2] eqn:Hpoll; cbn [root_poll_answer].
        - erewrite bind_ok; cycle 1.
          { erewrite try_ok; [reflexivity|]. rewrite Hbody.
            erewrite bind_ok; [|exact Hpoll]. reflexivity. }
          reflexivity.
        - destruct e.
          all: erewrite bind_ok; cycle 1;
            [erewrite try_raise; cycle 1;
             [rewrite Hbody; erewrite bind_raise; [reflexivity|exact Hpoll]
             |cbv beta iota; erewrite bind_ok; [|reflexivity]; reflexivity]
            |reflexivity].
        - unfold mbind, M_bind, try_except. rewrite Hbody.
          unfold mbind, M_bind. rewrite Hpoll. reflexivity. }
      cbv beta iota. fold w1. rewrite Hstep. split; [reflexivity|].
      destruct (poll_loop_quiet env (w_now w1) (id r) key fuel w1)
        as (evs & Hpt & Hq).
      assert (Hp2 : w_trace (poll_task_completion env fuel (id r) key w1).2
                    = (w_trace w ++ CacheGet key :: DbFind u :: evs)%list).
      { unfold poll_task_completion. erewrite bind_ok; [|reflexivity].
        rewrite Hpt. subst w1. cbn [emit w_trace].
        rewrite Htr, <- !app_assoc. reflexivity. }
      destruct (poll_task_completion env fuel (id r) key w1)
        as [[s3|e|] w2]; cbn [snd root_poll_answer] in *.
      * erewrite new_events_app; [|exact Hp2]. repeat constructor; exact Hq.
      * destruct e; cbn [snd]; (erewrite new_events_app;
          [|cbn [emit w_trace]; rewrite Hp2, <- app_assoc; reflexivity]);
          cbn [app]; repeat constructor;
          apply Forall_app; split; try exact Hq; repeat constructor.
      * erewrite new_events_app; [|exact Hp2]. repeat constructor; exact Hq.
    + erewrite bind_ok; [|reflexivity]. reflexivity.
Qed.

Lemma in_flight_record_is_reused_witness :
  let w := Demo.world [Demo.row 7 PROCESSING None] in
  let key := "og_image:https://example.com/:1200:630" in
  generate_og_image (Demo.env true None) "https://example.com/" None None None
    false w
  = (Ok (ProcessingResponse "processing" 7 "/status/7"),
     emit (DbFind "https://example.com/") (check_cache key w).2).
Proof.
  refine (proj1 (in_flight_record_is_reused (Demo.env true None) 31
                   "https://example.com/" None None None
                   (Demo.world [Demo.row 7 PROCESSING None])
                   (Demo.row 7 PROCESSING None) _ _ _ _ _)).
  - exists "example.com". vm_compute. reflexivity.
  - vm_compute. reflexivity.
  - vm_compute. reflexivity.
  - vm_compute. reflexivity.
  - vm_compute. reflexivity.
Defined.

(** C1 as stated fails: in inline mode the root handler, finding a
    Processing and unexpired record, creates a new record and runs a new
    generation. *)
Lemma in_flight_record_is_reused_counterexample :
  let env := Demo.env false None in
  let u := "https://example.com/" in
  let key := "og_image:https://example.com/:1200:630" in
  let r := Demo.row 7 PROCESSING None in
  let w := Demo.world [r] in
  let root := root_handler env 31 (Some u) None None None false in
  validate_domain env u = inr "example.com"
  ∧ (check_cache key w).1 = Ok None
  ∧ most_recent_for_url (w_db w) u = Some r
  ∧ in_flight (status r) = true
  ∧ w_now w < expires_at r
  ∧ (root w).1
    = Ok (RedirectResponse (Some "https://cdn.example.net/og_images/100.png")
            307)
  ∧ new_events w (root w).2
    = [CacheGet key; DbFind u; DbInsert 100; DbSetStatus 100 PROCESSING;
       Render u 1200 630; Publish "/tmp/shot.png" "og_images/100.png";
       DbSetStatus 100 COMPLETED;
       CacheSet key [("s3_url", "https://cdn.example.net/og_images/100.png")]
         86400]
  ∧ ¬ in_flight_as_stated root r w.
Proof.
  cbv zeta. repeat split; try (vm_compute; reflexivity).
  intros ([check_status_url H] & _). vm_compute in H. discriminate.
Qed.

(** The first half of C3, for both handlers: a Completed, unexpired record
    with an artifact reference is served at once.  The handler runs cache
    population and answers with the reference; it creates no record and
    calls neither the renderer nor the publisher. *)
Lemma completed_record_is_served (env : Env) (fuel : nat) (u : string)
    (ttl width height : option Z) (w : World) (r : Screenshot) :
  let key := make_cache_key u (default 1200 width) (default 630 height) in
  let w1 := emit (DbFind u) (check_cache key w).2 in
  let w2 := (update_cache key (PyStr.str_opt (s3_path r)) (expires_at r)
               w1).2 in
  (∃ domain, validate_domain env u = inr domain) →
  (check_cache key w).1 = Ok None →
  most_recent_for_url (w_db w) u = Some r →
  status r = COMPLETED →
  w_now w < expires_at r →
  PyStr.truthy_opt (s3_path r) = true →
  generate_og_image env u ttl width height false w
  = (Ok (CachedResponse "cached" (PyStr.str_opt (s3_path r))), w2)
  ∧ root_handler env fuel (Some u) ttl width height false w
    = (Ok (RedirectResponse (s3_path r) HTTP_307_TEMPORARY_REDIRECT), w2)
  ∧ w_db w2 = w_db w
  ∧ Forall (λ e, starts_work e = false) (new_events w w2).
Proof.
  intros key w1 w2 [domain Hv] Hmiss Hr Hst Hexp Hs3.
  pose proof (check_cache_frame key w) as (_ & Hdb & Hnow & Htr).
  destruct (check_cache key w) as [res w0] eqn:Hcc.
  cbn [fst snd] in *. subst res.
  assert (Hfind : find_existing_record u w0 = (Ok (Some r), emit (DbFind u) w0)).
  { unfold find_existing_record. erewrite bind_ok; [|reflexivity].
    erewrite bind_ok; [|reflexivity]. cbn [emit w_db mret M_ret].
    now rewrite Hdb, Hr. }
  assert (Hexp' : (w_now w <? expires_at r) = true) by now apply Z.ltb_lt.
  pose proof (update_cache_quiet key (PyStr.str_opt (s3_path r))
                (expires_at r) w1) as (Hu1 & evs & Hu2 & Hq).
  assert (Hu : update_cache key (PyStr.str_opt (s3_path r)) (expires_at r) w1
               = (Ok tt, w2)).
  { subst w2. destruct (update_cache _ _ _ w1) as [res w']; cbn in *.
    now subst res. }
  split; [|split; [|split]].
  - unfold generate_og_image. rewrite Hv.
    erewrite bind_ok; [|exact Hcc]. cbv beta iota.
    erewrite bind_ok; [|reflexivity]. cbv beta iota.
    erewrite bind_ok; [|exact Hfind]. cbv beta iota.
    unfold generate_db_check. rewrite Hnow, Hst, Hexp', Hs3.
    change (bool_decide (COMPLETED = COMPLETED)) with true.
    cbn [andb]. cbv beta iota.
    erewrite bind_ok; cycle 1.
    { erewrite bind_ok; [|exact Hu]. reflexivity. }
    reflexivity.
  - unfold root_handler. rewrite Hv.
    erewrite bind_ok; [|reflexivity]. cbv beta iota.
    erewrite bind_ok; [|exact Hcc]. cbv beta iota.
    cbn [cached_s3_url]. unfold root_after_cache.
    erewrite bind_ok; [|exact Hfind]. cbv beta iota.
    unfold root_db_check. rewrite Hst, Hexp', Hs3.
    change (bool_decide (COMPLETED = COMPLETED)) with true.
    cbn [andb]. cbv beta iota.
    erewrite bind_ok; cycle 1.
    { erewrite bind_ok; [|exact Hu]. reflexivity. }
    reflexivity.
  - subst w2. rewrite update_cache_db. exact Hdb.
  - erewrite new_events_app; cycle 1.
    { subst w2. rewrite Hu2. subst w1. cbn [emit w_trace].
      rewrite Htr, <- !app_assoc. reflexivity. }
    cbn [app]. repeat constructor. exact Hq.
Qed.

(** C3, the second half, where the code departs from it.  When the
    Completed, unexpired record has no artifact reference, [/generate]
    goes on to create a new record and to generate; the root handler does
    not: it keeps the record, skips generation and polling, and answers
    with an error page of status 500, having created no record and started
    no generation work. *)
Theorem completed_without_reference (env : Env) (fuel : nat) (u : string)
    (ttl width height : option Z) (w : World) (r : Screenshot) :
  let key := make_cache_key u (default 1200 width) (default 630 height) in
  let w1 := emit (DbFind u) (check_cache key w).2 in
  let root := root_handler env fuel (Some u) ttl width height false w in
  (∃ domain, validate_domain env u = inr domain) →
  (check_cache key w).1 = Ok None →
  most_recent_for_url (w_db w) u = Some r →
  status r = COMPLETED →
  w_now w < expires_at r →
  PyStr.truthy_opt (s3_path r) = false →
  generate_og_image env u ttl width height false w
  = generate_new env u (default 1200 width) (default 630 height) key
      (w_now w + ttl_seconds_of env ttl * micro) w1
  ∧ root.1
    = Ok (HTMLResponse
            (if CELERY_ENABLED (settings env) then html_processing
             else html_generation_failed
                    "Internal error after sync processing.")
            HTTP_500_INTERNAL_SERVER_ERROR)
  ∧ w_db root.2 = w_db w
  ∧ Forall (λ e, starts_work e = false) (new_events w root.2).
Proof.
  intros key w1 root [domain Hv] Hmiss Hr Hst Hexp Hs3.
  pose proof (check_cache_frame key w) as (_ & Hdb & Hnow & Htr).
  destruct (check_cache key w) as [res w0] eqn:Hcc.
  cbn [fst snd] in *. subst res.
  assert (Hfind : find_existing_record u w0 = (Ok (Some r), emit (DbFind u) w0)).
  { unfold find_existing_record. erewrite bind_ok; [|reflexivity].
    erewrite bind_ok; [|reflexivity]. cbn [emit w_db mret M_ret].
    now rewrite Hdb, Hr. }
  assert (Hexp' : (w_now w <? expires_at r) = true) by now apply Z.ltb_lt.
  split.
  { unfold generate_og_image. rewrite Hv.
    erewrite bind_ok; [|exact Hcc]. cbv beta iota.
    erewrite bind_ok; [|reflexivity]. cbv beta iota.
    erewrite bind_ok; [|exact Hfind]. cbv beta iota.
    unfold generate_db_check. rewrite Hnow, Hst, Hexp', Hs3.
    change (bool_decide (COMPLETED = COMPLETED)) with true.
    cbn [andb]. cbv beta iota.
    erewrite bind_ok; [|reflexivity]. reflexivity. }
  assert (Hroot :
            root
            = root_step3 env fuel u (default 1200 width) (default 630 height)
                key (w_now w + ttl_seconds_of env ttl * micro) (Some r) None
                w1).
  { subst root. unfold root_handler. rewrite Hv.
    erewrite bind_ok; [|reflexivity]. cbv beta iota.
    erewrite bind_ok; [|exact Hcc]. cbv beta iota.
    cbn [cached_s3_url]. unfold root_after_cache.
    erewrite bind_ok; [|exact Hfind]. cbv beta iota.
    unfold root_db_check. rewrite Hst, Hexp', Hs3.
    change (bool_decide (COMPLETED = COMPLETED)) with true.
    cbn [andb]. cbv beta iota.
    erewrite bind_ok; [|reflexivity]. reflexivity. }
  rewrite Hroot. unfold root_step3, root_generate_or_poll.
  assert (Hw1 : w_trace w1 = (w_trace w ++ [CacheGet key; DbFind u])%list).
  { subst w1. cbn [emit w_trace]. rewrite Htr, <- app_assoc. reflexivity. }
  destruct (CELERY_ENABLED (settings env)).
  - erewrite bind_ok; cycle 1.
    { erewrite try_ok; [reflexivity|].
      erewrite bind_ok; [|reflexivity]. reflexivity. }
    cbn [mret M_ret fst snd]. split; [reflexivity|]. split; [exact Hdb|].
    erewrite new_events_app; [|exact Hw1]. repeat constructor.
  - erewrite bind_ok; cycle 1.
    { erewrite try_raise; cycle 1.
      { erewrite bind_ok; [|reflexivity]. cbv beta iota.
        erewrite bind_ok; [|reflexivity]. reflexivity. }
      cbv beta iota. erewrite bind_ok; [|reflexivity]. reflexivity. }
    cbn [mret M_ret fst snd emit w_db]. split; [reflexivity|].
    split; [exact Hdb|].
    erewrite new_events_app; cycle 1.
    { cbn [emit w_trace]. rewrite Hw1, <- !app_assoc. reflexivity. }
    repeat constructor.
Qed.

Lemma completed_without_reference_witness :
  let u := "https://example.com/" in
  let w := Demo.world [Demo.row 7 COMPLETED None] in
  let root mode := root_handler (Demo.env mode None) 31 (Some u) None None
                     None false w in
  (root false).1
  = Ok (HTMLResponse
          (html_generation_failed "Internal error after sync processing.") 500)
  ∧ w_db (root false).2 = w_db w
  ∧ (root true).1 = Ok (HTMLResponse html_processing 500)
  ∧ w_db (root true).2 = w_db w.
Proof.
  intros u w root.
  destruct (completed_without_reference (Demo.env false None) 31 u None None
              None w (Demo.row 7 COMPLETED None)
              (ex_intro _ "example.com" eq_refl) eq_refl eq_refl eq_refl
              eq_refl eq_refl) as (_ & H1 & H2 & _).
  destruct (completed_without_reference (Demo.env true None) 31 u None None
              None w (Demo.row 7 COMPLETED None)
              (ex_intro _ "example.com" eq_refl) eq_refl eq_refl eq_refl
              eq_refl eq_refl) as (_ & H3 & H4 & _).
  repeat split; assumption.
Defined.

(** At the same input [/generate] creates record 100 and generates. *)
Example generate_regenerates_when_reference_missing :
  let u := "https://example.com/" in
  let w := Demo.world [Demo.row 7 COMPLETED None] in
  let run := generate_og_image (Demo.env false None) u None None None false w in
  run.1 = Ok (CachedResponse "generated"
                "https://cdn.example.net/og_images/100.png")
  ∧ (status <$> w_db run.2 !! 100%N) = Some COMPLETED
  ∧ (status <$> w_db w !! 100%N) = None.
Proof. vm_compute. repeat split. Qed.

(** ** The order of the status updates of an attempt *)

Lemma perform_not_stuck (env : Env) (rid u : string) (width height : Z)
    (w : World) :
  (_perform_screenshot_and_upload env rid u width height w).1 ≠ Stuck.
Proof.
  unfold _perform_screenshot_and_upload.
  destruct (uuid_parse env rid) as [j|]; [|discriminate].
  run_m. destruct (take_screenshot env u width height) as [e|path]; cbn;
    [discriminate|].
  destruct (upload_to_s3 env path _) as [e|s3]; discriminate.
Qed.

Lemma status_writes_snoc (i : UUID) (tr : list Event) (e : Event) :
  status_writes i (tr ++ [e]) = (status_writes i tr ++ status_writes i [e])%list.
Proof. unfold status_writes. apply omap_app. Qed.

Lemma status_writes_own (i : UUID) (st : ScreenshotStatus) :
  status_writes i [DbSetStatus i st] = [st].
Proof. unfold status_writes. cbn. now rewrite bool_decide_eq_true_2. Qed.

Lemma status_writes_quiet (i : UUID) (evs : list Event) :
  Forall (λ e, starts_work e = false) evs → status_writes i evs = [].
Proof.
  induction 1 as [|e evs He _ IH]; [reflexivity|].
  destruct e; try discriminate He; exact IH.
Qed.

(** With the row in place and a record store that works, an inline attempt
    writes Processing and then exactly one terminal status: Completed when
    it returns, Failed when it raises. *)
Lemma sync_attempt_status_order (env : Env) (i : UUID) (u : string)
    (width height : Z) (cache_key : string) (expires : datetime) (w : World)
    (r : Screenshot) :
  let run := run_sync_generation env i u width height cache_key expires w in
  w_db w !! i = Some r →
  w_db_faults w = [] →
  status_writes i (w_trace run.2)
  = (status_writes i (w_trace w)
     ++ [PROCESSING; match run.1 with Ok _ => COMPLETED | _ => FAILED end])%list.
Proof.
  intros run Hr Hnf. subst run.
  assert (Hf : next_write_ok w) by (unfold next_write_ok; now rewrite Hnf).
  set (r1 := apply_status PROCESSING None None r).
  set (w1 := after_write i PROCESSING r1 w).
  pose proof (perform_frame env (uuid_str env i) u width height w1 i)
    as (Hdb & Hfaults & _ & _ & _ & Hsw).
  pose proof (perform_not_stuck env (uuid_str env i) u width height w1) as Hns.
  assert (Hsw1 : status_writes i (w_trace w1)
                 = (status_writes i (w_trace w) ++ [PROCESSING])%list).
  { subst w1. cbn [after_write emit w_trace with_db with_db_faults].
    now rewrite status_writes_snoc, status_writes_own. }
  destruct (_perform_screenshot_and_upload env (uuid_str env i) u width
              height w1) as [[s3|exc|] w2] eqn:Hrun;
    cbn [fst snd] in *; [| |congruence].
  - assert (Hf2 : next_write_ok w2).
    { unfold next_write_ok. rewrite Hfaults. subst w1.
      cbn [after_write emit with_db with_db_faults w_db_faults].
      now rewrite Hnf. }
    assert (Hr2 : w_db w2 !! i = Some r1).
    { rewrite Hdb. subst w1. cbn [after_write emit with_db w_db].
      apply lookup_insert_eq. }
    set (w3 := after_write i COMPLETED
                 (apply_status COMPLETED (Some s3) None r1) w2).
    pose proof (update_cache_quiet cache_key s3 expires w3)
      as (Hu1 & evs & Hu2 & Hq).
    destruct (update_cache cache_key s3 expires w3) as [res w4] eqn:Hu.
    cbn [fst snd] in *. subst res.
    unfold run_sync_generation.
    erewrite try_ok; cycle 1.
    { erewrite bind_ok; [|apply (update_found _ _ _ _ _ _ Hf Hr)].
      erewrite bind_ok; [|exact Hrun]. cbv beta.
      erewrite bind_ok; [|apply (update_found _ _ _ _ _ _ Hf2 Hr2)].
      erewrite bind_ok; [|exact Hu]. reflexivity. }
    cbn [fst snd]. rewrite Hu2. unfold status_writes at 1.
    rewrite omap_app. fold (status_writes i (w_trace w3)).
    fold (status_writes i evs). rewrite (status_writes_quiet _ _ Hq).
    rewrite app_nil_r. subst w3.
    cbn [after_write emit w_trace with_db with_db_faults].
    rewrite status_writes_snoc, status_writes_own, Hsw, Hsw1.
    now rewrite <- app_assoc.
  - unfold run_sync_generation.
    erewrite try_raise; cycle 1.
    { erewrite bind_ok; [|apply (update_found _ _ _ _ _ _ Hf Hr)].
      erewrite bind_raise; [reflexivity|]. exact Hrun. }
    erewrite bind_ok; [|reflexivity].
    erewrite bind_ok; [|apply record_failure_run].
    cbn [raise fst snd emit w_db w_db_faults].
    rewrite Hdb, Hfaults. subst w1.
    cbn [after_write emit with_db with_db_faults w_db w_db_faults].
    rewrite lookup_insert_eq, Hnf.
    cbn [tl hd after_write emit with_db with_db_faults w_trace].
    rewrite !status_writes_snoc, status_writes_own, Hsw.
    cbn [after_write emit w_trace with_db with_db_faults].
    rewrite status_writes_snoc, status_writes_own.
    change (status_writes i [LogError _]) with (@nil ScreenshotStatus).
    now rewrite app_nil_r, <- app_assoc.
Qed.

(** C2 (as amended).  The status-update operation has no guard on the
    status it finds: when the row exists and the record store works, the
    stored status afterwards is the requested one whatever it was before,
    a terminal one included.  The order Pending, Processing, then
    Completed or Failed is kept by the callers: an inline generation
    attempt writes Processing and then exactly one terminal status,
    Completed when it returns and Failed when it raises. *)
Theorem status_update_last_write_wins (env : Env) (i : UUID) (w : World)
    (r : Screenshot) :
  w_db w !! i = Some r →
  w_db_faults w = [] →
  (∀ st s3 err,
     ∃ r', _update_db_status i st s3 err w = (Ok true, after_write i st r' w)
           ∧ w_db (after_write i st r' w) !! i = Some r'
           ∧ status r' = st
           ∧ s3_path r'
             = (if bool_decide (st = COMPLETED) then s3 else s3_path r))
  ∧ (∀ u width height cache_key expires,
       let run := run_sync_generation env i u width height cache_key
                    expires w in
       status_writes i (w_trace run.2)
       = (status_writes i (w_trace w)
          ++ [PROCESSING;
              match run.1 with Ok _ => COMPLETED | _ => FAILED end])%list).
Proof.
  intros Hr Hnf. split.
  - intros st s3 err. exists (apply_status st s3 err r).
    assert (Hf : next_write_ok w) by (unfold next_write_ok; now rewrite Hnf).
    split; [now apply update_found|]. split; [apply lookup_insert_eq|].
    destruct st; split; reflexivity.
  - intros u width height cache_key expires.
    now apply (sync_attempt_status_order env i u width height cache_key
                 expires w r).
Qed.

Lemma status_update_last_write_wins_witness :
  let r := Demo.row 7 COMPLETED
             (Some "https://cdn.example.net/og_images/7.png") in
  let w := Demo.world [r] in
  ∃ r', _update_db_status 7 FAILED None (Some "late failure") w
        = (Ok true, after_write 7 FAILED r' w)
        ∧ w_db (after_write 7 FAILED r' w) !! 7%N = Some r'
        ∧ status r' = FAILED
        ∧ s3_path r' = Some "https://cdn.example.net/og_images/7.png".
Proof.
  intros r w.
  exact (proj1 (status_update_last_write_wins (Demo.env false None) 7 w r
                  eq_refl eq_refl)
           FAILED None (Some "late failure")).
Defined.

(** * Further properties of the program *)

(** ** Frames and outcomes *)

Section Frames.
Context (R : relation World) `{!PreOrder R}.

Lemma respects_ret {A} (a : A) : respects R (mret a).
Proof. intros w. reflexivity. Qed.

Lemma respects_raise {A} (e : exn) : respects R (raise e : M A).
Proof. intros w. reflexivity. Qed.

Lemma respects_lift {A} (r : Result A) : respects R (lift r).
Proof. intros w. reflexivity. Qed.

Lemma respects_lift_sum {A} (r : exn + A) : respects R (lift_sum r).
Proof. intros w. destruct r; reflexivity. Qed.

Lemma respects_get_world : respects R get_world.
Proof. intros w. reflexivity. Qed.

Lemma respects_datetime_now : respects R datetime_now.
Proof. intros w. reflexivity. Qed.

Lemma respects_bind {A B} (m : M A) (f : A → M B) :
  respects R m → (∀ a, respects R (f a)) → respects R (m ≫= f).
Proof.
  intros Hm Hf w. unfold mbind, M_bind. specialize (Hm w).
  destruct (m w) as [[a|e|] w']; cbn [snd] in *; [|assumption..].
  etransitivity; [exact Hm | apply Hf].
Qed.

Lemma respects_try {A} (m : M A) (h : exn → M A) :
  respects R m → (∀ e, respects R (h e)) → respects R (try_except m h).
Proof.
  intros Hm Hh w. unfold try_except. specialize (Hm w).
  destruct (m w) as [[a|e|] w']; cbn [snd] in *; [assumption| |assumption].
  etransitivity; [exact Hm | apply Hh].
Qed.

End Frames.

Lemma respects_weaken {A} (R R' : relation World) (m : M A) :
  (∀ w w', R w w' → R' w w') → respects R m → respects R' m.
Proof. intros HR Hm w. apply HR, Hm. Qed.

Lemma lands_of_answers {A} (m : M A) : answers m → lands m.
Proof. intros H w. destruct (H w) as [a ->]. discriminate. Qed.

Lemma answers_ret {A} (a : A) : answers (mret a).
Proof. intros w. now exists a. Qed.

Lemma lands_raise {A} (e : exn) : lands (raise e : M A).
Proof. intros w. discriminate. Qed.

Lemma lands_lift_sum {A} (r : exn + A) : lands (lift_sum r).
Proof. intros w. destruct r; discriminate. Qed.

Lemma answers_bind {A B} (m : M A) (f : A → M B) :
  answers m → (∀ a, answers (f a)) → answers (m ≫= f).
Proof.
  intros Hm Hf w. unfold mbind, M_bind. destruct (Hm w) as [a Ha].
  destruct (m w) as [r w']. cbn [fst] in Ha. subst r. apply Hf.
Qed.

Lemma lands_bind {A B} (m : M A) (f : A → M B) :
  lands m → (∀ a, lands (f a)) → lands (m ≫= f).
Proof.
  intros Hm Hf w. unfold mbind, M_bind. specialize (Hm w).
  destruct (m w) as [[a|e|] w']; cbn [fst] in *;
    [apply Hf | discriminate | congruence].
Qed.

Lemma lands_try {A} (m : M A) (h : exn → M A) :
  lands m → (∀ e, lands (h e)) → lands (try_except m h).
Proof.
  intros Hm Hh w. unfold try_except. specialize (Hm w).
  destruct (m w) as [[a|e|] w']; cbn [fst] in *;
    [discriminate | apply Hh | congruence].
Qed.

(** A [try] whose handlers all return always returns. *)
Lemma answers_try {A} (m : M A) (h : exn → M A) :
  lands m → (∀ e, answers (h e)) → answers (try_except m h).
Proof.
  intros Hm Hh w. unfold try_except. specialize (Hm w).
  destruct (m w) as [[a|e|] w']; cbn [fst] in *;
    [now exists a | apply Hh | congruence].
Qed.

Lemma answers_tell (e : Event) : answers (tell e).
Proof. intros w. now exists tt. Qed.

Lemma answers_get_world : answers get_world.
Proof. intros w. now exists w. Qed.

Lemma answers_datetime_now : answers datetime_now.
Proof. intros w. now exists (w_now w). Qed.

Lemma answers_put_db (d : gmap N Screenshot) : answers (put_db d).
Proof. intros w. now exists tt. Qed.

Lemma answers_pop_db_fault : answers pop_db_fault.
Proof.
  intros w. unfold pop_db_fault. destruct (w_db_faults w); eexists; reflexivity.
Qed.

Lemma answers_next_uuid (env : Env) : answers (next_uuid env).
Proof. intros w. eexists; reflexivity. Qed.

Create HintDb outcome.
#[export] Hint Resolve answers_ret answers_tell answers_get_world
  answers_datetime_now answers_put_db answers_pop_db_fault answers_next_uuid
  lands_raise lands_lift_sum : outcome.

(** Decomposes a goal about a computation along its binds, handlers and
    case distinctions. *)
Ltac outcome :=
  repeat first
    [ solve [auto with outcome]
    | apply lands_of_answers; solve [auto with outcome]
    | apply answers_bind; [|intros ?]
    | apply answers_try; [|intros ?]
    | apply lands_bind; [|intros ?]
    | apply lands_try; [|intros ?]
    | match goal with
      | |- answers (match ?x with _ => _ end) => destruct x
      | |- lands (match ?x with _ => _ end) => destruct x
      end ].

(** ** The handlers always answer *)

Lemma answers_pop_redis_fault : answers pop_redis_fault.
Proof.
  intros w. unfold pop_redis_fault.
  destruct (w_redis_faults w); eexists; reflexivity.
Qed.

Lemma answers_put_redis (r : gmap string CacheEntry) : answers (put_redis r).
Proof. intros w. now exists tt. Qed.

#[export] Hint Resolve answers_pop_redis_fault answers_put_redis : outcome.

Lemma answers_set_cache (k : string) (v : list (string * string)) (ttl : Z) :
  answers (set_cache k v ttl).
Proof. unfold set_cache. outcome. Qed.

Lemma answers_get_cache (k : string) : answers (get_cache k).
Proof. unfold get_cache. outcome. Qed.

Lemma answers_check_cache (k : string) : answers (check_cache k).
Proof. unfold check_cache. pose proof (answers_get_cache k). outcome. Qed.

Lemma answers_update_cache (k s3_url : string) (expires : datetime) :
  answers (update_cache k s3_url expires).
Proof. unfold update_cache. pose proof answers_set_cache. outcome. Qed.

Lemma answers_find_existing_record (u : string) :
  answers (find_existing_record u).
Proof. unfold find_existing_record. outcome. Qed.

Lemma lands_update_db_status (i : UUID) (st : ScreenshotStatus)
    (s3 err : option string) : lands (_update_db_status i st s3 err).
Proof. unfold _update_db_status. outcome. Qed.

Lemma lands_perform (env : Env) (rid u : string) (width height : Z) :
  lands (_perform_screenshot_and_upload env rid u width height).
Proof. intros w. apply perform_not_stuck. Qed.

Lemma lands_create_db_record (env : Env) (u : string) (expires : datetime) :
  lands (create_db_record env u expires).
Proof. unfold create_db_record. outcome. Qed.

#[export] Hint Resolve answers_set_cache answers_get_cache answers_check_cache
  answers_update_cache answers_find_existing_record lands_update_db_status
  lands_perform lands_create_db_record : outcome.

Lemma lands_run_sync_generation (env : Env) (i : UUID) (u : string)
    (width height : Z) (key : string) (expires : datetime) :
  lands (run_sync_generation env i u width height key expires).
Proof. unfold run_sync_generation. outcome. Qed.

Lemma lands_dispatch_celery_task (env : Env) (i : UUID) (u : string)
    (width height : Z) : lands (dispatch_celery_task env i u width height).
Proof. unfold dispatch_celery_task. outcome. Qed.

Lemma lands_generate_screenshot_task (env : Env) (record_id u : string)
    (width height : Z) :
  lands (generate_screenshot_task env record_id u width height).
Proof. unfold generate_screenshot_task. outcome. Qed.

#[export] Hint Resolve lands_run_sync_generation lands_dispatch_celery_task
  : outcome.











(** ** What the cache layer, the renderer and the status updates leave alone *)

Create HintDb frame.
#[export] Hint Resolve respects_ret respects_raise respects_lift
  respects_lift_sum respects_get_world respects_datetime_now : frame.

Ltac frame :=
  repeat first
    [ solve [auto with frame typeclass_instances]
    | apply respects_bind; [typeclasses eauto| |intros ?]
    | apply respects_try; [typeclasses eauto| |intros ?]
    | match goal with
      | |- respects _ (match ?x with _ => _ end) => destruct x
      end ].

Lemma same_store_tell (e : Event) : respects same_store (tell e).
Proof. intros w. repeat split. Qed.

Lemma same_store_pop_redis_fault : respects same_store pop_redis_fault.
Proof.
  intros w. unfold pop_redis_fault. destruct (w_redis_faults w); repeat split.
Qed.

Lemma same_store_put_redis (r : gmap string CacheEntry) :
  respects same_store (put_redis r).
Proof. intros w. repeat split. Qed.

#[export] Hint Resolve same_store_tell same_store_pop_redis_fault
  same_store_put_redis : frame.

Lemma same_store_set_cache (k : string) (v : list (string * string)) (ttl : Z) :
  respects same_store (set_cache k v ttl).
Proof. unfold set_cache. frame. Qed.

Lemma same_store_get_cache (k : string) : respects same_store (get_cache k).
Proof. unfold get_cache. frame. Qed.

#[export] Hint Resolve same_store_set_cache same_store_get_cache : frame.

Lemma same_store_check_cache (k : string) : respects same_store (check_cache k).
Proof. unfold check_cache. frame. Qed.

Lemma same_store_update_cache (k s3_url : string) (expires : datetime) :
  respects same_store (update_cache k s3_url expires).
Proof. unfold update_cache. frame. Qed.

Lemma same_store_find_existing_record (u : string) :
  respects same_store (find_existing_record u).
Proof. unfold find_existing_record. frame. Qed.

#[export] Hint Resolve same_store_check_cache same_store_update_cache
  same_store_find_existing_record : frame.

Lemma same_store_generate_db_check (env : Env) (key : string)
    (existing : option Screenshot) (force : bool) (now : datetime) :
  respects same_store (generate_db_check env key existing force now).
Proof. unfold generate_db_check. frame. Qed.

Lemma same_store_perform (env : Env) (rid u : string) (width height : Z) :
  respects same_store (_perform_screenshot_and_upload env rid u width height).
Proof. unfold _perform_screenshot_and_upload. frame. Qed.

Lemma same_store_rows (i : UUID) (w w' : World) :
  same_store w w' → same_rows_but i w w'.
Proof. intros (H & _) j _. now rewrite H. Qed.

(** A status update changes no row but its own. *)
Lemma same_rows_update_db_status (i : UUID) (st : ScreenshotStatus)
    (s3 err : option string) :
  respects (same_rows_but i) (_update_db_status i st s3 err).
Proof.
  intros w j Hj. rewrite update_table.
  destruct (hd None (w_db_faults w)); [reflexivity|].
  destruct (w_db w !! i); [|reflexivity].
  now apply lookup_insert_ne.
Qed.

Lemma same_rows_of_store {A} (i : UUID) (m : M A) :
  respects same_store m → respects (same_rows_but i) m.
Proof. apply respects_weaken, same_store_rows. Qed.

#[export] Hint Resolve same_rows_update_db_status : frame.
#[export] Hint Extern 5 (respects (same_rows_but _) _) =>
  apply same_rows_of_store; solve [auto with frame] : frame.
#[export] Hint Resolve same_store_perform same_store_generate_db_check : frame.

Lemma same_rows_run_sync_generation (env : Env) (i : UUID) (u : string)
    (width height : Z) (key : string) (expires : datetime) :
  respects (same_rows_but i)
    (run_sync_generation env i u width height key expires).
Proof. unfold run_sync_generation. frame. Qed.

Lemma same_rows_dispatch_celery_task (env : Env) (i : UUID) (u : string)
    (width height : Z) :
  respects (same_rows_but i) (dispatch_celery_task env i u width height).
Proof. unfold dispatch_celery_task. frame. Qed.

(** ** Creating a record *)

Lemma create_run (env : Env) (u : string) (expires : datetime) (w : World) :
  let new_id := uuid4 env (w_uuid_calls w) in
  let new_record := mkScreenshot new_id u None (w_now w) expires PENDING None in
  let w1 := with_db_faults (tl (w_db_faults w))
              (with_uuid_calls (S (w_uuid_calls w)) w) in
  let failed (e : exn) :=
    (Raise (HTTPException HTTP_500_INTERNAL_SERVER_ERROR
              "Database error during record creation"),
     emit (LogError ("Database error creating record for " +:+ u +:+ ": "
                     +:+ exn_str e)) (emit DbRollback w1)) in
  create_db_record env u expires w
  = match hd None (w_db_faults w), w_db w !! new_id with
    | None, None =>
        (Ok new_record,
         emit (DbInsert new_id) (with_db (<[new_id := new_record]> (w_db w)) w1))
    | None, Some _ => failed (Exception "IntegrityError" "duplicate key value")
    | Some e, _ => failed e
    end.
Proof.
  destruct w as [now db [|[e|] dbf] redis rf uc tr];
    unfold create_db_record, next_uuid; run_m; try reflexivity.
  all: destruct (db !! uuid4 env uc); reflexivity.
Qed.


(** The status endpoint on a row it finds. *)
Lemma get_task_status_found (i : UUID) (w : World) (r : Screenshot) :
  w_db w !! i = Some r →
  get_task_status i w
  = (Ok (mkStatusResponse (status r)
           (if bool_decide (status r = COMPLETED) then s3_path r else None)
           (if bool_decide (status r = FAILED) then error_message r else None)),
     emit (DbGet i) w).
Proof.
  intros Hr. unfold get_task_status, get_screenshot_record.
  erewrite bind_ok; cycle 1.
  { erewrite bind_ok; [|reflexivity]. erewrite bind_ok; reflexivity. }
  cbn [emit w_db]. rewrite Hr. reflexivity.
Qed.

(** A row newer than all the rows of its URL is the most recent one. *)
Lemma most_recent_insert (db : gmap N Screenshot) (i : UUID)
    (rec : Screenshot) :
  (∀ j r, db !! j = Some r → url r = url rec →
          created_at r < created_at rec) →
  most_recent_for_url (<[i := rec]> db) (url rec) = Some rec.
Proof.
  intros Hold.
  pose proof (most_recent_for_url_spec (<[i := rec]> db) (url rec)) as H.
  destruct (most_recent_for_url (<[i := rec]> db) (url rec)) as [r|].
  - destruct H as ([j Hj] & Hu & Hmax). f_equal.
    apply lookup_insert_Some in Hj as [[_ <-]|[Hne Hj]]; [reflexivity|].
    specialize (Hmax i rec (lookup_insert_eq _ _ _) eq_refl).
    specialize (Hold j r Hj Hu). lia.
  - exfalso. apply (H i rec); [apply lookup_insert_eq | reflexivity].
Qed.

(** X3.  A record just created is what the lookups find.  When creation
    succeeds and every older record for the URL was created strictly
    before the present time, the search by URL gives the new record, and
    the status endpoint reports it as pending, with neither image URL nor
    error text. *)
Theorem created_record_is_found (env : Env) (u : string) (expires : datetime)
    (w : World) :
  let new_id := uuid4 env (w_uuid_calls w) in
  let run := create_db_record env u expires w in
  next_write_ok w →
  w_db w !! new_id = None →
  (∀ i r, w_db w !! i = Some r → url r = u → created_at r < w_now w) →
  ∃ new_record,
    run.1 = Ok new_record
    ∧ id new_record = new_id
    ∧ (find_existing_record u run.2).1 = Ok (Some new_record)
    ∧ (get_task_status new_id run.2).1
      = Ok (mkStatusResponse PENDING None None).
Proof.
  intros new_id run Hf Hfree Hold. subst run.
  rewrite create_run. cbv zeta. unfold next_write_ok in Hf.
  fold new_id. rewrite Hf, Hfree.
  set (rec := mkScreenshot new_id u None (w_now w) expires PENDING None).
  exists rec. cbn [fst snd]. split; [reflexivity|]. split; [reflexivity|].
  split.
  - unfold find_existing_record.
    erewrite bind_ok; [|reflexivity]. erewrite bind_ok; [|reflexivity].
    cbn [mret M_ret fst emit with_db w_db]. f_equal.
    apply (most_recent_insert (w_db w) new_id rec). exact Hold.
  - rewrite (get_task_status_found new_id _ rec); [reflexivity|].
    cbn [emit with_db w_db]. apply lookup_insert_eq.
Qed.

Lemma created_record_is_found_witness :
  let w := Demo.world [Demo.row 7 FAILED None] in
  let run := create_db_record (Demo.env true None) "https://example.com/"
               (25 * Demo.hour) w in
  ∃ new_record,
    run.1 = Ok new_record
    ∧ id new_record = 100%N
    ∧ (find_existing_record "https://example.com/" run.2).1
      = Ok (Some new_record)
    ∧ (get_task_status 100 run.2).1 = Ok (mkStatusResponse PENDING None None).
Proof.
  intros w run.
  apply (created_record_is_found (Demo.env true None) "https://example.com/"
           (25 * Demo.hour) w).
  - reflexivity.
  - reflexivity.
  - intros i r Hi _.
    change (w_db w) with (<[7%N := Demo.row 7 FAILED None]>
                            (∅ : gmap N Screenshot)) in Hi.
    apply lookup_insert_Some in Hi as [[_ <-]|[_ Hi]];
      [reflexivity | discriminate].
Defined.

(** ** What a request does to the table *)

Lemma bind_same_store {A B} (m : M A) (f : A → M B) (Q : World → Prop)
    (w : World) :
  respects same_store m →
  (∀ w1, same_store w w1 → Q w1) →
  (∀ a w1, same_store w w1 → Q (f a w1).2) →
  Q ((m ≫= f) w).2.
Proof.
  intros Hm HQ Hf. unfold mbind, M_bind. specialize (Hm w).
  destruct (m w) as [[a|e|] w1]; cbn [snd] in *; auto.
Qed.

(** Creation and the attempt that follows touch no row but the new one,
    and not even that one if it was there before. *)
Lemma generate_new_rows (env : Env) (u : string) (width height : Z)
    (key : string) (expires : datetime) (w : World) :
  let new_id := uuid4 env (w_uuid_calls w) in
  let w' := (generate_new env u width height key expires w).2 in
  (∀ j, j ≠ new_id → w_db w' !! j = w_db w !! j)
  ∧ (∀ r, w_db w !! new_id = Some r → w_db w' !! new_id = Some r).
Proof.
  cbv zeta. unfold generate_new. set (new_id := uuid4 env (w_uuid_calls w)).
  pose proof (create_run env u expires w) as Hc. cbv zeta in Hc.
  fold new_id in Hc.
  destruct (hd None (w_db_faults w)) as [e|];
    [|destruct (w_db w !! new_id) as [r|] eqn:Hl].
  1, 2: erewrite bind_ok; cycle 1;
    [ erewrite try_raise; cycle 1;
      [ erewrite bind_raise; [reflexivity | exact Hc]
      | reflexivity ]
    | cbn [mret M_ret snd emit with_db_faults with_uuid_calls w_db];
      split; [reflexivity | intros; congruence] ].
  erewrite bind_ok; cycle 1.
  { erewrite try_ok; [reflexivity|].
    erewrite bind_ok; [reflexivity | exact Hc]. }
  cbv beta iota. cbn [id].
  match goal with
  | |- context [try_except ?m ?h ?w1] =>
      assert (Hrows : respects (same_rows_but new_id) (try_except m h))
  end.
  { pose proof (same_rows_run_sync_generation env new_id).
    pose proof (same_rows_dispatch_celery_task env new_id).
    frame. }
  match goal with
  | |- context [try_except ?m ?h ?w1] => specialize (Hrows w1)
  end.
  split.
  - intros j Hj. rewrite (Hrows j Hj).
    cbn [emit with_db w_db]. now apply lookup_insert_ne.
  - discriminate.
Qed.

(** X4.  A request to [/generate] never changes or deletes a record that
    exists, and adds at most one: after the handler has run, whatever it
    answered, every row but the one under the next id of [uuid4] is as it
    was, and so is that row if it was there before. *)
Theorem generate_adds_at_most_one_row (env : Env) (u : string)
    (ttl width height : option Z) (force_refresh : bool) (w : World) :
  let new_id := uuid4 env (w_uuid_calls w) in
  let w' := (generate_og_image env u ttl width height force_refresh w).2 in
  (∀ j r, w_db w !! j = Some r → w_db w' !! j = Some r)
  ∧ (∀ j, j ≠ new_id → w_db w' !! j = w_db w !! j).
Proof.
  cbv zeta.
  set (Q := λ w' : World,
         (∀ j, j ≠ uuid4 env (w_uuid_calls w) → w_db w' !! j = w_db w !! j)
         ∧ (∀ r, w_db w !! uuid4 env (w_uuid_calls w) = Some r →
                 w_db w' !! uuid4 env (w_uuid_calls w) = Some r)).
  assert (HQ : ∀ w1, same_store w w1 → Q w1).
  { intros w1 (Hdb & _). split; [intros j _ | intros r]; now rewrite Hdb. }
  assert (Hnew : ∀ rw rh key expires w1,
             same_store w w1 → Q (generate_new env u rw rh key expires w1).2).
  { intros rw rh key expires w1 (Hdb & _ & Huc & _).
    pose proof (generate_new_rows env u rw rh key expires w1) as H.
    cbv zeta in H. now rewrite Huc, Hdb in H. }
  assert (Hgoal : Q (generate_og_image env u ttl width height
                       force_refresh w).2).
  { unfold generate_og_image.
    destruct (validate_domain env u) as [e|d].
    { destruct e; apply HQ; repeat split. }
    apply bind_same_store; [frame | exact HQ | intros cached w1 H1].
    destruct cached as [d'|]; [apply HQ, H1|].
    apply bind_same_store;
      [frame | intros w2 H2; apply HQ; etransitivity; eassumption
      | intros now_utc w2 H2].
    assert (H12 : same_store w w2) by (etransitivity; eassumption).
    apply bind_same_store;
      [frame | intros w3 H3; apply HQ; etransitivity; eassumption
      | intros existing w3 H3].
    assert (H13 : same_store w w3) by (etransitivity; eassumption).
    apply bind_same_store;
      [frame | intros w4 H4; apply HQ; etransitivity; eassumption
      | intros decision w4 H4].
    assert (H14 : same_store w w4) by (etransitivity; eassumption).
    destruct decision as [resp|[]]; [apply HQ, H14 | apply Hnew, H14]. }
  destruct Hgoal as [H1 H2]. split; [|exact H1].
  intros j r Hr.
  destruct (decide (j = uuid4 env (w_uuid_calls w))) as [->|Hne].
  - now apply H2.
  - now rewrite H1.
Qed.

(** ** When a request starts a new generation *)

Lemma find_existing_record_run (u : string) (w : World) :
  find_existing_record u w
  = (Ok (most_recent_for_url (w_db w) u), emit (DbFind u) w).
Proof. reflexivity. Qed.

Lemma generate_db_check_goes_on (env : Env) (key : string)
    (existing : option Screenshot) (force : bool) (now : datetime) (w : World) :
  (force = true ∨ ∀ r, existing = Some r → reusable now r = false) →
  generate_db_check env key existing force now w = (Ok (GoOn tt), w).
Proof.
  intros H. unfold generate_db_check. destruct existing as [r|]; [|reflexivity].
  destruct force; [reflexivity|]. destruct H as [H|H]; [discriminate|].
  specialize (H r eq_refl). unfold reusable in H.
  destruct (now <? expires_at r); [|now rewrite !andb_false_r].
  rewrite !andb_true_r. cbn [andb] in H.
  apply orb_false_iff in H as [Hfl Hc]. rewrite Hfl.
  destruct (bool_decide (status r = COMPLETED)); [|reflexivity].
  cbn [andb] in Hc. now rewrite Hc.
Qed.

(** The handler on the way to a new generation. *)
Lemma generate_goes_on (env : Env) (u : string)
    (ttl width height : option Z) (force_refresh : bool) (w : World) :
  let key := make_cache_key u (default 1200 width) (default 630 height) in
  let w1 := if force_refresh then w else (check_cache key w).2 in
  (∃ domain, validate_domain env u = inr domain) →
  (force_refresh = true
   ∨ (check_cache key w).1 = Ok None
     ∧ ∀ r, most_recent_for_url (w_db w) u = Some r →
            reusable (w_now w) r = false) →
  generate_og_image env u ttl width height force_refresh w
  = generate_new env u (default 1200 width) (default 630 height) key
      (w_now w + ttl_seconds_of env ttl * micro) (emit (DbFind u) w1).
Proof.
  intros key w1 [domain Hv] H. unfold generate_og_image. rewrite Hv.
  fold key.
  assert (Hcc : (if force_refresh return M _ then mret None
                 else check_cache key) w = (Ok None, w1)).
  { subst w1. destruct force_refresh; [reflexivity|].
    destruct H as [H|[H _]]; [discriminate|].
    destruct (check_cache key w) as [res w0]. cbn [fst snd] in *.
    now subst res. }
  pose proof (same_store_check_cache key w) as (Hdb & _ & _ & Hnow).
  assert (Hdb1 : w_db w1 = w_db w) by (subst w1; now destruct force_refresh).
  assert (Hnow1 : w_now w1 = w_now w) by (subst w1; now destruct force_refresh).
  erewrite bind_ok; [|exact Hcc]. cbv beta iota.
  erewrite bind_ok; [|reflexivity]. cbv beta iota.
  erewrite bind_ok; [|apply find_existing_record_run]. cbv beta iota.
  erewrite bind_ok; cycle 1.
  { apply generate_db_check_goes_on.
    destruct H as [H|[_ H]]; [now left | right].
    rewrite Hdb1, Hnow1. exact H. }
  cbv beta iota. now rewrite Hnow1.
Qed.




(** ** A generation that succeeds *)

Lemma perform_run (env : Env) (rid : string) (i : UUID) (u : string)
    (width height : Z) (w : World) (path s3 : string) :
  uuid_parse env rid = Some i →
  take_screenshot env u width height = inr path →
  upload_to_s3 env path ("og_images/" +:+ uuid_str env i +:+ ".png") = inr s3 →
  _perform_screenshot_and_upload env rid u width height w
  = (Ok s3,
     emit (Publish path ("og_images/" +:+ uuid_str env i +:+ ".png"))
       (emit (Render u width height) w)).
Proof.
  intros Hp Hr Hu. unfold _perform_screenshot_and_upload. rewrite Hp.
  erewrite bind_ok; [|reflexivity].
  erewrite bind_ok; [|rewrite Hr; reflexivity].
  erewrite bind_ok; [|reflexivity].
  rewrite Hu. reflexivity.
Qed.



Lemma update_cache_healthy (key s3_url : string) (expires : datetime)
    (w : World) (store : gmap string CacheEntry) :
  let ttl := cache_ttl_of expires (w_now w) in
  w_redis w = Some store → w_redis_faults w = [] →
  s3_url ≠ EmptyString → 0 < ttl →
  update_cache key s3_url expires w
  = (Ok tt,
     with_redis (Some (<[key := mkCacheEntry [("s3_url", s3_url)] ttl
                                  (w_now w + ttl * micro)]> store))
       (emit (CacheSet key [("s3_url", s3_url)] ttl) w)).
Proof.
  intros ttl Hs Hf Hu Httl. unfold update_cache.
  erewrite bind_ok; [|reflexivity]. fold ttl.
  apply Z.ltb_lt in Httl. rewrite Httl.
  apply truthy_nonempty in Hu. rewrite Hu. cbn [andb].
  destruct w as [now db dbf redis rf uc tr]. cbn in Hs, Hf. subst redis rf.
  reflexivity.
Qed.

Lemma check_cache_healthy (key : string) (w : World)
    (store : gmap string CacheEntry) :
  w_redis w = Some store → w_redis_faults w = [] →
  check_cache key w
  = (Ok match redis_get store key (w_now w) with
        | Some ((_ :: _) as d) =>
            if bool_decide (is_Some (dict_get "s3_url" d)) then Some d
            else None
        | _ => None
        end,
     emit (CacheGet key) w).
Proof.
  intros Hs Hf.
  destruct w as [now db dbf redis rf uc tr]. cbn in Hs, Hf. subst redis rf.
  unfold check_cache, get_cache. run_m.
  destruct (redis_get store key now) as [[|? ?]|]; try reflexivity.
  destruct (bool_decide _); reflexivity.
Qed.




(** ** A request handed over to the task queue *)

Lemma dispatch_run (env : Env) (i : UUID) (u : string) (width height : Z)
    (w : World) (task : string) :
  delay env (uuid_str env i) u width height = inr task →
  dispatch_celery_task env i u width height w
  = (Ok tt, emit (Enqueue (uuid_str env i) u width height) w).
Proof.
  intros Hd. unfold dispatch_celery_task.
  erewrite try_ok; [reflexivity|].
  erewrite bind_ok; [|reflexivity].
  erewrite bind_ok; [|rewrite Hd; reflexivity].
  reflexivity.
Qed.

(** X7.  A deferred request that has to generate, with a write that goes
    through, a free id and a queue that accepts the task, answers
    "processing" with the new id and the address of its status, leaves one
    new row, Pending, with the time to live asked for, and calls neither
    the renderer nor the publisher: after the lookups the only things done
    are the insertion and the handoff.  A second request for the same URL
    and size, made while the cache still has no entry, creates nothing and
    answers "processing" with the same id. *)
Theorem deferred_request_is_handed_over (env : Env) (u : string)
    (ttl ttl' width height : option Z) (force_refresh : bool) (w : World)
    (task : string) :
  let key := make_cache_key u (default 1200 width) (default 630 height) in
  let new_id := uuid4 env (w_uuid_calls w) in
  let expires := w_now w + ttl_seconds_of env ttl * micro in
  let answer := ProcessingResponse "processing" new_id
                  (url_for_status env (uuid_str env new_id)) in
  let run := generate_og_image env u ttl width height force_refresh w in
  let again := generate_og_image env u ttl' width height false run.2 in
  CELERY_ENABLED (settings env) = true →
  (∃ domain, validate_domain env u = inr domain) →
  (force_refresh = true
   ∨ (check_cache key w).1 = Ok None
     ∧ ∀ r, most_recent_for_url (w_db w) u = Some r →
            reusable (w_now w) r = false) →
  next_write_ok w →
  w_db w !! new_id = None →
  delay env (uuid_str env new_id) u (default 1200 width) (default 630 height)
  = inr task →
  run.1 = Ok answer
  ∧ w_db run.2
    = <[new_id := mkScreenshot new_id u None (w_now w) expires PENDING None]>
        (w_db w)
  ∧ new_events w run.2
    = ((if force_refresh then [] else [CacheGet key])
       ++ [DbFind u; DbInsert new_id;
           Enqueue (uuid_str env new_id) u (default 1200 width)
             (default 630 height)])%list
  ∧ ((∀ i r, w_db w !! i = Some r → url r = u → created_at r < w_now w) →
     1 ≤ ttl_seconds_of env ttl →
     (check_cache key run.2).1 = Ok None →
     again.1 = Ok answer
     ∧ w_db again.2 = w_db run.2
     ∧ new_events run.2 again.2 = [CacheGet key; DbFind u]).
Proof.
  intros key new_id expires answer run again Hmode Hv Hstale Hf Hfree Hdelay.
  pose proof (generate_goes_on env u ttl width height force_refresh w Hv Hstale)
    as Hgo.
  cbv zeta in Hgo. fold key in Hgo. fold expires in Hgo. fold run in Hgo.
  set (w0 := if force_refresh then w else (check_cache key w).2) in *.
  assert (H0 : same_store w w0).
  { subst w0. destruct force_refresh; [reflexivity|].
    apply same_store_check_cache. }
  assert (Htr0 : w_trace w0
                 = (w_trace w ++ if force_refresh then [] else [CacheGet key])%list).
  { subst w0. destruct force_refresh; [now rewrite app_nil_r|].
    apply check_cache_frame. }
  destruct H0 as (Hdb0 & Hf0 & Huc0 & Hnow0).
  set (rec := mkScreenshot new_id u None (w_now w) expires PENDING None).
  set (w2 := emit (DbInsert new_id)
               (with_db (<[new_id := rec]> (w_db w))
                  (with_db_faults (tl (w_db_faults w))
                     (with_uuid_calls (S (w_uuid_calls w))
                        (emit (DbFind u) w0))))).
  assert (Hcreate : create_db_record env u expires (emit (DbFind u) w0)
                    = (Ok rec, w2)).
  { rewrite create_run. cbv zeta.
    cbn [emit w_db_faults w_db w_uuid_calls w_now].
    rewrite Hf0, Hdb0, Huc0, Hnow0. fold new_id.
    unfold next_write_ok in Hf. rewrite Hf, Hfree. reflexivity. }
  set (w3 := emit (Enqueue (uuid_str env new_id) u (default 1200 width)
                     (default 630 height)) w2).
  assert (Hrun : run = (Ok answer, w3)).
  { rewrite Hgo. unfold generate_new.
    erewrite bind_ok; cycle 1.
    { erewrite try_ok; [reflexivity|].
      erewrite bind_ok; [reflexivity | exact Hcreate]. }
    cbv beta iota. rewrite Hmode. cbn [id rec].
    erewrite try_ok; [reflexivity|].
    erewrite bind_ok; [reflexivity|]. now apply (dispatch_run env new_id _ _ _ _ task). }
  assert (Hdb3 : w_db w3 = <[new_id := rec]> (w_db w)) by reflexivity.
  subst again. rewrite Hrun. cbn [fst snd].
  split; [reflexivity|]. split; [exact Hdb3|]. split.
  { apply new_events_app. subst w3 w2.
    cbn [emit with_db with_db_faults with_uuid_calls w_trace].
    rewrite Htr0, <- !app_assoc. reflexivity. }
  intros Hold Httl Hmiss.
  pose proof (check_cache_frame key w3) as (_ & Hdbc & Hnowc & Htrc).
  destruct (check_cache key w3) as [res wc] eqn:Hcc.
  cbn [fst snd] in *. subst res.
  destruct Hv as [domain Hv].
  assert (Hrecent : most_recent_for_url (w_db wc) u = Some rec).
  { rewrite Hdbc, Hdb3. apply (most_recent_insert (w_db w) new_id rec).
    exact Hold. }
  assert (Hagain : generate_og_image env u ttl' width height false w3
                   = (Ok answer, emit (DbFind u) wc)).
  { unfold generate_og_image. rewrite Hv. fold key.
    erewrite bind_ok; [|exact Hcc]. cbv beta iota.
    erewrite bind_ok; [|reflexivity]. cbv beta iota.
    erewrite bind_ok; [|apply find_existing_record_run]. cbv beta iota.
    rewrite Hrecent. unfold generate_db_check. cbn [status expires_at rec].
    replace (w_now wc <? expires) with true; cycle 1.
    { symmetry. apply Z.ltb_lt. rewrite Hnowc. subst w3 w2 expires.
      cbn [emit with_db with_db_faults with_uuid_calls w_now].
      rewrite Hnow0. unfold micro. lia. }
    erewrite bind_ok; [|reflexivity]. reflexivity. }
  rewrite Hagain. cbn [fst snd emit w_db]. split; [reflexivity|].
  split; [exact Hdbc|].
  apply new_events_app. cbn [emit w_trace]. rewrite Htrc, <- app_assoc.
  reflexivity.
Qed.

Lemma deferred_request_is_handed_over_witness :
  let env := Demo.env true None in
  let u := "https://example.com/" in
  let key := "og_image:https://example.com/:1200:630" in
  let w := Demo.world [Demo.row 7 FAILED None] in
  let answer := ProcessingResponse "processing" 100 "/status/100" in
  let run := generate_og_image env u None None None false w in
  let again := generate_og_image env u None None None false run.2 in
  run.1 = Ok answer
  ∧ new_events w run.2
    = [CacheGet key; DbFind u; DbInsert 100; Enqueue "100" u 1200 630]
  ∧ again.1 = Ok answer
  ∧ w_db again.2 = w_db run.2.
Proof.
  intros env u key w answer run again.
  destruct (deferred_request_is_handed_over env u None None None None false w
              "celery-task-1") as (H1 & _ & H3 & H4).
  - reflexivity.
  - exists "example.com". reflexivity.
  - right. split; [reflexivity|].
    intros r Hr. vm_compute in Hr. injection Hr as <-. reflexivity.
  - reflexivity.
  - reflexivity.
  - reflexivity.
  - destruct H4 as (H5 & H6 & _).
    + intros i r Hi _.
      change (w_db w) with (<[7%N := Demo.row 7 FAILED None]>
                              (∅ : gmap N Screenshot)) in Hi.
      apply lookup_insert_Some in Hi as [[_ <-]|[_ Hi]];
        [reflexivity | discriminate].
    + vm_compute. discriminate.
    + vm_compute. reflexivity.
    + repeat split; assumption.
Defined.

(** ** The Celery task *)

Lemma cache_untouched_tell (e : Event) :
  cache_event e = false → respects cache_untouched (tell e).
Proof.
  intros He w. split; [reflexivity|]. split; [reflexivity|].
  exists [e]. split; [reflexivity|]. constructor; [|constructor].
  now rewrite He.
Qed.

Lemma cache_untouched_put_db (d : gmap N Screenshot) :
  respects cache_untouched (put_db d).
Proof.
  intros w. split; [reflexivity|]. split; [reflexivity|].
  exists []. split; [symmetry; apply app_nil_r | constructor].
Qed.

Lemma cache_untouched_pop_db_fault : respects cache_untouched pop_db_fault.
Proof.
  intros w. unfold pop_db_fault.
  destruct (w_db_faults w); (split; [reflexivity|]; split; [reflexivity|]);
    exists []; (split; [symmetry; apply app_nil_r | constructor]).
Qed.

#[export] Hint Resolve cache_untouched_put_db cache_untouched_pop_db_fault
  : frame.
#[export] Hint Extern 1 (respects cache_untouched (tell _)) =>
  apply cache_untouched_tell; reflexivity : frame.

Lemma cache_untouched_update_db_status (i : UUID) (st : ScreenshotStatus)
    (s3 err : option string) :
  respects cache_untouched (_update_db_status i st s3 err).
Proof. unfold _update_db_status. frame. Qed.

Lemma cache_untouched_perform (env : Env) (rid u : string) (width height : Z) :
  respects cache_untouched
    (_perform_screenshot_and_upload env rid u width height).
Proof. unfold _perform_screenshot_and_upload. frame. Qed.

#[export] Hint Resolve cache_untouched_update_db_status
  cache_untouched_perform : frame.

(** X8.  The Celery task never touches the cache, whichever way it ends:
    Redis is as it was and none of the calls it makes is a cache call.
    (Inline generation populates the cache itself; in deferred mode that is
    left to the poller and to the database check of a later request.) *)
Theorem task_never_touches_cache (env : Env) (record_id u : string)
    (width height : Z) (w : World) :
  let w' := (generate_screenshot_task env record_id u width height w).2 in
  w_redis w' = w_redis w
  ∧ w_redis_faults w' = w_redis_faults w
  ∧ Forall (λ e, cache_event e = false) (new_events w w').
Proof.
  assert (H : respects cache_untouched
                (generate_screenshot_task env record_id u width height)).
  { unfold generate_screenshot_task. frame. }
  destruct (H w) as (H1 & H2 & evs & Htr & Hev).
  cbv zeta. split; [exact H1|]. split; [exact H2|].
  erewrite new_events_app; [|exact Htr].
  eapply Forall_impl; [exact Hev|]. intros e He. cbv beta in He.
  now destruct (cache_event e).
Qed.



Lemma get_image_found (i : UUID) (w : World) (r : Screenshot) :
  w_db w !! i = Some r →
  get_image i w
  = (if negb (bool_decide (status r = COMPLETED))
        || negb (PyStr.truthy_opt (s3_path r))
     then Raise (HTTPException HTTP_404_NOT_FOUND
                   "Image not found, not ready, or URL missing")
     else Ok (RedirectResponse (s3_path r) HTTP_307_TEMPORARY_REDIRECT),
     emit (DbGet i) w).
Proof.
  intros Hr. unfold get_image, get_screenshot_record.
  erewrite bind_ok; cycle 1.
  { erewrite bind_ok; [|reflexivity]. erewrite bind_ok; reflexivity. }
  cbn [emit w_db]. rewrite Hr. now destruct (_ || _).
Qed.

(** X10.  The Celery task on a record it finds, with the record store
    working and a renderer and a publisher that succeed: it returns the
    publisher's URL, having written Processing, rendered, published under
    the key [og_images/<id>.png] and written Completed, in that order; the
    row keeps its id, URL and times, has the URL as artifact reference and
    no error text; after it the status endpoint reports "completed" with
    that URL and the image endpoint redirects to it. *)
Theorem task_completes_record (env : Env) (record_id : string) (i : UUID)
    (u : string) (width height : Z) (w : World) (r : Screenshot)
    (path s3 : string) :
  let s3_key := "og_images/" +:+ uuid_str env i +:+ ".png" in
  let run := generate_screenshot_task env record_id u width height w in
  uuid_parse env record_id = Some i →
  w_db w !! i = Some r →
  w_db_faults w = [] →
  take_screenshot env u width height = inr path →
  upload_to_s3 env path s3_key = inr s3 →
  s3 ≠ EmptyString →
  run.1 = Ok (Some s3)
  ∧ w_db run.2
    = <[i := mkScreenshot (id r) (url r) (Some s3) (created_at r)
                (expires_at r) COMPLETED None]> (w_db w)
  ∧ new_events w run.2
    = [DbSetStatus i PROCESSING; Render u width height; Publish path s3_key;
       DbSetStatus i COMPLETED]
  ∧ (get_task_status i run.2).1
    = Ok (mkStatusResponse COMPLETED (Some s3) None)
  ∧ (get_image i run.2).1
    = Ok (RedirectResponse (Some s3) HTTP_307_TEMPORARY_REDIRECT).
Proof.
  intros s3_key run Hp Hr Hnf Hrender Hpublish Hs3.
  assert (Hf : next_write_ok w) by (unfold next_write_ok; now rewrite Hnf).
  set (r1 := apply_status PROCESSING None None r).
  set (w1 := after_write i PROCESSING r1 w).
  set (w2 := emit (Publish path s3_key) (emit (Render u width height) w1)).
  set (r3 := mkScreenshot (id r) (url r) (Some s3) (created_at r)
               (expires_at r) COMPLETED None).
  set (w3 := after_write i COMPLETED r3 w2).
  assert (Hf2 : next_write_ok w2).
  { unfold next_write_ok. subst w2 w1.
    cbn [after_write emit with_db with_db_faults w_db_faults].
    now rewrite Hnf. }
  assert (Hr2 : w_db w2 !! i = Some r1).
  { subst w2 w1. cbn [after_write emit with_db w_db]. apply lookup_insert_eq. }
  assert (Hrun : run = (Ok (Some s3), w3)).
  { subst run. unfold generate_screenshot_task. rewrite Hp.
    erewrite bind_ok; cycle 1.
    { erewrite try_ok; [reflexivity|].
      apply (update_found _ _ _ _ _ _ Hf Hr). }
    cbn [negb].
    erewrite try_ok; [reflexivity|].
    erewrite bind_ok; [|eapply perform_run; eassumption].
    cbv beta.
    erewrite bind_ok; [|apply (update_found _ _ _ _ _ _ Hf2 Hr2)].
    reflexivity. }
  assert (Hr3 : w_db w3 !! i = Some r3).
  { subst w3. cbn [after_write emit with_db w_db]. apply lookup_insert_eq. }
  rewrite Hrun. cbn [fst snd].
  split; [reflexivity|]. split; [|split; [|split]].
  - subst w3 w2 w1. cbn [after_write emit with_db with_db_faults w_db].
    apply insert_insert_eq.
  - apply new_events_app. subst w3 w2 w1.
    cbn [after_write emit with_db with_db_faults w_trace].
    rewrite <- !app_assoc. reflexivity.
  - rewrite (get_task_status_found i w3 r3 Hr3). reflexivity.
  - rewrite (get_image_found i w3 r3 Hr3). cbn [status s3_path r3 fst].
    apply truthy_nonempty in Hs3. cbn [PyStr.truthy_opt]. rewrite Hs3.
    reflexivity.
Qed.

Lemma task_completes_record_witness :
  let w := Demo.world [Demo.row 7 PENDING None] in
  let s3 := "https://cdn.example.net/og_images/7.png" in
  let run := generate_screenshot_task (Demo.env true None) "7"
               "https://example.com/" 1200 630 w in
  run.1 = Ok (Some s3)
  ∧ (get_task_status 7 run.2).1 = Ok (mkStatusResponse COMPLETED (Some s3) None)
  ∧ (get_image 7 run.2).1 = Ok (RedirectResponse (Some s3) 307).
Proof.
  intros w s3 run.
  destruct (task_completes_record (Demo.env true None) "7" 7
              "https://example.com/" 1200 630 w (Demo.row 7 PENDING None)
              "/tmp/shot.png" s3)
    as (H1 & _ & _ & H4 & H5); try reflexivity; [discriminate|].
  repeat split; assumption.
Defined.

(** ** The cache *)

(** X11.  What cache population stores is what the lookup gives back, for
    as long as the record lives and no longer.  After [update_cache] has
    run on a working Redis with a reference that is not empty and at least
    one second left, a lookup of the key on that Redis finds the reference
    at every time up to one second before the record expires, and finds
    nothing from the time the record expires on: the cache never serves a
    record that has expired. *)
Theorem cache_round_trip (key s3_url : string) (expires : datetime)
    (w w2 : World) (store : gmap string CacheEntry) :
  let w1 := (update_cache key s3_url expires w).2 in
  w_redis w = Some store → w_redis_faults w = [] →
  s3_url ≠ EmptyString →
  w_now w + micro ≤ expires →
  w_redis w2 = w_redis w1 → w_redis_faults w2 = [] →
  (w_now w2 + micro ≤ expires →
   (check_cache key w2).1 = Ok (Some [("s3_url", s3_url)]))
  ∧ (expires ≤ w_now w2 → (check_cache key w2).1 = Ok None).
Proof.
  intros w1 Hs Hf Hu Hleft Hs2 Hf2.
  pose proof (whole_seconds_bounds expires (w_now w)) as [[_ Hle] Hgt].
  unfold ttl_as_stated in Hle, Hgt.
  set (ttl := cache_ttl_of expires (w_now w)) in *.
  assert (Httl : 0 < ttl) by (unfold micro in *; lia).
  subst w1. rewrite (update_cache_healthy key s3_url expires w store Hs Hf Hu)
    in Hs2 by exact Httl.
  cbn [snd with_redis w_redis] in Hs2. fold ttl in Hs2.
  rewrite (check_cache_healthy key w2 _ Hs2 Hf2). cbn [fst].
  unfold redis_get. rewrite lookup_insert_eq. cbn [ce_expiry ce_value].
  split; intros Ht.
  - replace (w_now w2 <? w_now w + ttl * micro) with true; [reflexivity|].
    symmetry. apply Z.ltb_lt. unfold micro in *. lia.
  - replace (w_now w2 <? w_now w + ttl * micro) with false; [reflexivity|].
    symmetry. apply Z.ltb_ge. unfold micro in *. lia.
Qed.

Lemma cache_round_trip_witness :
  let key := "og_image:https://example.com/:1200:630" in
  let url := "https://cdn.example.net/og_images/7.png" in
  let w1 := (update_cache key url (Demo.hour + 1500000) (Demo.world [])).2 in
  (check_cache key w1).1 = Ok (Some [("s3_url", url)])
  ∧ (check_cache key (with_now (Demo.hour + 1500000) w1)).1 = Ok None.
Proof.
  intros key url w1. split.
  - apply (cache_round_trip key url (Demo.hour + 1500000) (Demo.world []) w1 ∅);
      try reflexivity; try discriminate.
  - apply (cache_round_trip key url (Demo.hour + 1500000) (Demo.world [])
             (with_now (Demo.hour + 1500000) w1) ∅);
      try reflexivity; try discriminate.
Defined.

(** X12.  A cache that is down counts as a miss and is never an error.
    When there is no Redis client, or when the call to Redis fails, a
    lookup gives nothing and a write stores nothing; neither raises, and
    neither touches the table. *)
Theorem cache_outage_is_a_miss (key : string) (value : list (string * string))
    (ttl : Z) (w : World) :
  (w_redis w = None ∨ ∃ msg, hd None (w_redis_faults w) = Some msg) →
  (check_cache key w).1 = Ok None
  ∧ (set_cache key value ttl w).1 = Ok tt
  ∧ w_redis (set_cache key value ttl w).2 = w_redis w
  ∧ w_db (check_cache key w).2 = w_db w
  ∧ w_db (set_cache key value ttl w).2 = w_db w.
Proof.
  intros H.
  destruct w as [now db dbf [store|] [|[msg|] rf] uc tr];
    cbn in H; destruct H as [H|[msg' H]]; try discriminate;
    repeat split.
Qed.

Lemma cache_outage_is_a_miss_witness :
  let w := with_redis None (Demo.world []) in
  (check_cache "k" w).1 = Ok None
  ∧ (set_cache "k" [("s3_url", "https://cdn.example.net/x.png")] 60 w).1 = Ok tt.
Proof.
  intros w.
  destruct (cache_outage_is_a_miss "k"
              [("s3_url", "https://cdn.example.net/x.png")] 60 w)
    as (H1 & H2 & _).
  - left. reflexivity.
  - split; assumption.
Defined.

(** ** Looking records up *)

(** X13.  The search by URL never fails and gives the most recent record:
    a row of the table that has the URL and whose [created_at] no other
    row with the URL exceeds; it gives nothing only when no row has the
    URL.  It changes nothing but the trace. *)
Theorem find_existing_record_most_recent (u : string) (w : World) :
  ∃ found,
    find_existing_record u w = (Ok found, emit (DbFind u) w)
    ∧ match found with
      | Some r =>
          (∃ i, w_db w !! i = Some r) ∧ url r = u
          ∧ ∀ i r', w_db w !! i = Some r' → url r' = u →
                    created_at r' ≤ created_at r
      | None => ∀ i r', w_db w !! i = Some r' → url r' ≠ u
      end.
Proof.
  exists (most_recent_for_url (w_db w) u).
  split; [apply find_existing_record_run | apply most_recent_for_url_spec].
Qed.

Lemma get_task_status_missing (i : UUID) (w : World) :
  w_db w !! i = None →
  get_task_status i w
  = (Raise (HTTPException HTTP_404_NOT_FOUND "Task/Record not found"),
     emit (DbGet i) w).
Proof.
  intros Hr. unfold get_task_status, get_screenshot_record.
  erewrite bind_ok; cycle 1.
  { erewrite bind_ok; [|reflexivity]. erewrite bind_ok; reflexivity. }
  cbn [emit w_db]. rewrite Hr. reflexivity.
Qed.

Lemma get_image_missing (i : UUID) (w : World) :
  w_db w !! i = None →
  get_image i w
  = (Raise (HTTPException HTTP_404_NOT_FOUND
              "Image not found, not ready, or URL missing"),
     emit (DbGet i) w).
Proof.
  intros Hr. unfold get_image, get_screenshot_record.
  erewrite bind_ok; cycle 1.
  { erewrite bind_ok; [|reflexivity]. erewrite bind_ok; reflexivity. }
  cbn [emit w_db]. rewrite Hr. reflexivity.
Qed.

(** X14.  The status and image endpoints agree and disclose no more than
    the status allows.  Both only read: the world after them differs by
    the lookup in the trace.  On an id the table does not have both raise
    a 404.  The status endpoint shows an image URL only for a Completed
    record and an error text only for a Failed one.  The image endpoint
    redirects to a URL exactly when the status endpoint reports the record
    as completed with that URL and the URL is not empty; in every other
    case it raises a 404. *)
Theorem status_and_image_endpoints (i : UUID) (w : World) :
  (get_task_status i w).2 = emit (DbGet i) w
  ∧ (get_image i w).2 = emit (DbGet i) w
  ∧ (w_db w !! i = None →
     (get_task_status i w).1
     = Raise (HTTPException 404 "Task/Record not found")
     ∧ (get_image i w).1
       = Raise (HTTPException 404 "Image not found, not ready, or URL missing"))
  ∧ (∀ st image_url error_message,
       (get_task_status i w).1
       = Ok (mkStatusResponse st image_url error_message) →
       (is_Some image_url → st = COMPLETED)
       ∧ (is_Some error_message → st = FAILED))
  ∧ (∀ target,
       (get_image i w).1
       = Ok (RedirectResponse (Some target) HTTP_307_TEMPORARY_REDIRECT)
       ↔ (get_task_status i w).1
         = Ok (mkStatusResponse COMPLETED (Some target) None)
         ∧ target ≠ EmptyString)
  ∧ ((get_image i w).1
     = Raise (HTTPException 404 "Image not found, not ready, or URL missing")
     ∨ ∃ target, (get_image i w).1
                 = Ok (RedirectResponse (Some target)
                         HTTP_307_TEMPORARY_REDIRECT)).
Proof.
  destruct (w_db w !! i) as [r|] eqn:Hr.
  - rewrite (get_task_status_found i w r Hr), (get_image_found i w r Hr).
    cbn [fst snd]. split; [reflexivity|]. split; [reflexivity|].
    split; [discriminate|].
    destruct r as [ri ru rs rc re rst rerr]. cbn [status s3_path error_message].
    split; [|split].
    + intros st img err [= <- <- <-].
      destruct rst; split; intros [x Hx]; first
        [ reflexivity | vm_compute in Hx; discriminate Hx ].
    + intros target.
      destruct rst, rs as [[|c s]|]; vm_compute;
        (split; [intros H | intros [H Hne]]);
        try discriminate H; try (now destruct Hne);
        try (injection H as <-; split; [reflexivity | discriminate]);
        try (injection H as <-; reflexivity);
        try (injection H as <-; now destruct Hne).
    + destruct rst, rs as [[|c s]|]; vm_compute; eauto.
  - rewrite (get_task_status_missing i w Hr), (get_image_missing i w Hr).
    cbn [fst snd]. split; [reflexivity|]. split; [reflexivity|].
    split; [intros _; split; reflexivity|].
    split; [discriminate|]. split.
    + intros target. split; [discriminate | intros [H _]; discriminate].
    + left. reflexivity.
Qed.

(** ** Identity of rows under status updates *)

Lemma apply_status_identity (st : ScreenshotStatus) (s3 err : option string)
    (r : Screenshot) :
  id (apply_status st s3 err r) = id r
  ∧ url (apply_status st s3 err r) = url r
  ∧ created_at (apply_status st s3 err r) = created_at r
  ∧ expires_at (apply_status st s3 err r) = expires_at r.
Proof. destruct st; repeat split. Qed.

(** X15.  Status updates neither create nor delete rows, and never change
    what identifies a record.  After any sequence of status updates,
    whether each found its row, went through or was rolled back, the
    table has a row under an id exactly when it had one before, and that
    row has the same id, URL, creation time and expiry. *)
Theorem status_updates_preserve_identity (ops : list StatusUpdate) (w : World)
    (j : UUID) :
  match w_db w !! j, w_db (run_updates ops w) !! j with
  | Some r, Some r' =>
      id r' = id r ∧ url r' = url r ∧ created_at r' = created_at r
      ∧ expires_at r' = expires_at r
  | None, None => True
  | _, _ => False
  end.
Proof.
  revert w. induction ops as [|op ops IH]; intros w.
  - cbn. destruct (w_db w !! j); auto.
  - change (run_updates (op :: ops) w)
      with (run_updates ops
              (_update_db_status (su_id op) (su_status op) (su_s3_path op)
                 (su_error_message op) w).2).
    specialize (IH (_update_db_status (su_id op) (su_status op)
                      (su_s3_path op) (su_error_message op) w).2).
    rewrite update_table in IH.
    destruct (hd None (w_db_faults w)); [exact IH|].
    destruct (w_db w !! su_id op) as [r0|] eqn:Hr0; [|exact IH].
    destruct (decide (j = su_id op)) as [->|Hne].
    + rewrite lookup_insert_eq in IH. rewrite Hr0.
      destruct (w_db (run_updates ops _) !! su_id op) as [r'|]; [|exact IH].
      pose proof (apply_status_identity (su_status op) (su_s3_path op)
                    (su_error_message op) r0) as (H1 & H2 & H3 & H4).
      destruct IH as (K1 & K2 & K3 & K4). repeat split; congruence.
    + rewrite lookup_insert_ne in IH by congruence. exact IH.
Qed.

(** ** The allow-list of [Settings] *)

Lemma lower_char_idem (c : ascii) :
  PyStr.lower_char (PyStr.lower_char c) = PyStr.lower_char c.
Proof. destruct c as [[] [] [] [] [] [] [] []]; reflexivity. Qed.

Lemma is_space_lower (c : ascii) :
  Config.is_space (PyStr.lower_char c) = Config.is_space c.
Proof. destruct c as [[] [] [] [] [] [] [] []]; reflexivity. Qed.

Lemma comma_lower (c : ascii) :
  Ascii.eqb "," (PyStr.lower_char c) = Ascii.eqb "," c.
Proof. destruct c as [[] [] [] [] [] [] [] []]; reflexivity. Qed.

Lemma lower_idem (s : string) : PyStr.lower (PyStr.lower s) = PyStr.lower s.
Proof.
  induction s as [|c s IH]; [reflexivity|].
  cbn [PyStr.lower]. now rewrite lower_char_idem, IH.
Qed.

Lemma lower_lstrip (s : string) :
  PyStr.lower (Config.lstrip s) = Config.lstrip (PyStr.lower s).
Proof.
  induction s as [|c s IH]; [reflexivity|].
  cbn [Config.lstrip PyStr.lower]. rewrite is_space_lower.
  destruct (Config.is_space c); [exact IH | reflexivity].
Qed.

Lemma lower_rstrip (s : string) :
  PyStr.lower (Config.rstrip s) = Config.rstrip (PyStr.lower s).
Proof.
  induction s as [|c s IH]; [reflexivity|].
  cbn [Config.rstrip PyStr.lower]. rewrite <- IH, is_space_lower.
  destruct (Config.rstrip s) as [|d t]; cbn [PyStr.lower];
    [destruct (Config.is_space c)|]; reflexivity.
Qed.

Lemma lower_strip (s : string) :
  PyStr.lower (Config.strip s) = Config.strip (PyStr.lower s).
Proof. unfold Config.strip. now rewrite lower_rstrip, lower_lstrip. Qed.

Lemma rstrip_idem (s : string) :
  Config.rstrip (Config.rstrip s) = Config.rstrip s.
Proof.
  induction s as [|c s IH]; [reflexivity|].
  cbn [Config.rstrip]. destruct (Config.rstrip s) as [|d t] eqn:E.
  - destruct (Config.is_space c) eqn:Hc; [reflexivity|].
    cbn [Config.rstrip]. now rewrite Hc.
  - cbn [Config.rstrip] in *. now rewrite IH.
Qed.

(** The text left by [lstrip] is empty or starts with a character that is
    not a blank, and so does what [rstrip] keeps of it. *)
Lemma lstrip_rstrip_lstrip (s : string) :
  Config.lstrip (Config.rstrip (Config.lstrip s))
  = Config.rstrip (Config.lstrip s).
Proof.
  induction s as [|c s IH]; [reflexivity|].
  cbn [Config.lstrip]. destruct (Config.is_space c) eqn:Hc; [exact IH|].
  cbn [Config.rstrip]. destruct (Config.rstrip s) as [|d t];
    [rewrite Hc|]; cbn [Config.lstrip]; now rewrite Hc.
Qed.

Lemma strip_idem (s : string) : Config.strip (Config.strip s) = Config.strip s.
Proof.
  unfold Config.strip. now rewrite lstrip_rstrip_lstrip, rstrip_idem.
Qed.

Lemma mem_lower_comma (s : string) :
  PyStr.mem "," (PyStr.lower s) = PyStr.mem "," s.
Proof.
  induction s as [|c s IH]; [reflexivity|].
  cbn [PyStr.lower PyStr.mem]. now rewrite comma_lower, IH.
Qed.

Lemma mem_lstrip (c : ascii) (s : string) :
  PyStr.mem c s = false → PyStr.mem c (Config.lstrip s) = false.
Proof.
  induction s as [|d s IH]; [reflexivity|].
  cbn [Config.lstrip]. destruct (Config.is_space d); [|auto].
  cbn [PyStr.mem]. intros H. apply orb_false_iff in H as [_ H]. auto.
Qed.

Lemma mem_rstrip (c : ascii) (s : string) :
  PyStr.mem c s = false → PyStr.mem c (Config.rstrip s) = false.
Proof.
  induction s as [|d s IH]; [reflexivity|].
  cbn [PyStr.mem]. intros H. apply orb_false_iff in H as [Hd H].
  specialize (IH H). cbn [Config.rstrip].
  destruct (Config.rstrip s) as [|e t].
  - destruct (Config.is_space d); cbn [PyStr.mem]; [reflexivity|].
    now rewrite Hd.
  - cbn [PyStr.mem] in *. now rewrite Hd, IH.
Qed.

Lemma split_comma_no_comma (s : string) :
  Forall (λ x, PyStr.mem "," x = false) (Config.split_comma s).
Proof.
  induction s as [|c s IH]; [repeat constructor|].
  cbn [Config.split_comma]. destruct (Ascii.eqb c ",") eqn:Hc.
  - constructor; [reflexivity | exact IH].
  - destruct (Config.split_comma s) as [|t ts].
    + repeat constructor. cbn [PyStr.mem].
      now rewrite Ascii.eqb_sym, Hc.
    + inversion IH as [|? ? Ht Hts]; subst. constructor; [|exact Hts].
      cbn [PyStr.mem]. now rewrite Ascii.eqb_sym, Hc.
Qed.

Lemma lower_nonempty (s : string) :
  s ≠ EmptyString → PyStr.lower s ≠ EmptyString.
Proof. destruct s; [congruence | discriminate]. Qed.

(** X16.  Whatever the text of the setting, the allow-list [Settings]
    derives from it holds clean entries only: none is empty, each is
    lower-case, none has blanks around it, none contains a comma.  The
    list is left unset exactly when the text is missing or empty. *)
Theorem allow_list_entries_are_clean (text : option string) :
  match Config.parse_allowed_domains text with
  | Some l => Forall clean_domain l ∧ ∃ t, text = Some t ∧ t ≠ EmptyString
  | None => text = None ∨ text = Some EmptyString
  end.
Proof.
  destruct text as [[|c t]|]; cbn [Config.parse_allowed_domains PyStr.truthy];
    [right; reflexivity | | left; reflexivity].
  split; [|eexists; split; [reflexivity | discriminate]].
  apply Forall_forall. intros d Hd. apply list_elem_of_In in Hd.
  apply in_map_iff in Hd as (x & <- & Hx).
  apply filter_In in Hx as [Hx Hne].
  apply truthy_nonempty in Hne.
  pose proof (split_comma_no_comma (String c t)) as Hnc.
  rewrite Forall_forall in Hnc.
  specialize (Hnc x (proj2 (list_elem_of_In _ _) Hx)). cbv beta in Hnc.
  split; [now apply lower_nonempty|]. split; [apply lower_idem|].
  split.
  - now rewrite <- lower_strip, strip_idem.
  - rewrite mem_lower_comma. unfold Config.strip.
    now apply mem_rstrip, mem_lstrip.
Qed.

Lemma split_comma_single (a : string) :
  PyStr.mem "," a = false → Config.split_comma a = [a].
Proof.
  induction a as [|c a IH]; [reflexivity|].
  cbn [PyStr.mem]. intros H. apply orb_false_iff in H as [Hc H].
  cbn [Config.split_comma]. rewrite Ascii.eqb_sym, Hc. now rewrite (IH H).
Qed.

Lemma split_comma_app (a rest : string) :
  PyStr.mem "," a = false →
  Config.split_comma (a +:+ String "," rest) = a :: Config.split_comma rest.
Proof.
  induction a as [|c a IH]; [reflexivity|].
  cbn [PyStr.mem]. intros H. apply orb_false_iff in H as [Hc H].
  change (String c a +:+ String "," rest)
    with (String c (a +:+ String "," rest)).
  cbn [Config.split_comma]. rewrite Ascii.eqb_sym, Hc. now rewrite (IH H).
Qed.

Lemma split_comma_concat (l : list string) :
  l ≠ [] → Forall (λ x, PyStr.mem "," x = false) l →
  Config.split_comma (String.concat "," l) = l.
Proof.
  induction l as [|a l IH]; [congruence|]. intros _ Hl.
  inversion Hl as [|? ? Ha Hl']; subst.
  destruct l as [|b l]; [now apply split_comma_single|].
  change (String.concat "," (a :: b :: l))
    with (a +:+ String "," (String.concat "," (b :: l))).
  rewrite (split_comma_app _ _ Ha). f_equal. now apply IH.
Qed.

(** X17.  Writing a list of clean entries with commas between them and
    reading it back through [Settings] gives the list: parsing the
    allow-list inverts joining it. *)
Theorem allow_list_round_trip (l : list string) :
  l ≠ [] → Forall clean_domain l →
  Config.parse_allowed_domains (Some (String.concat "," l)) = Some l.
Proof.
  intros Hne Hl. unfold Config.parse_allowed_domains.
  assert (Hnc : Forall (λ x, PyStr.mem "," x = false) l).
  { eapply Forall_impl; [exact Hl|]. now intros d (_ & _ & _ & H). }
  assert (Ht : PyStr.truthy (String.concat "," l) = true).
  { destruct l as [|a l]; [congruence|].
    inversion Hl as [|? ? (Ha & _) _]; subst.
    destruct a as [|c a]; [congruence|]. now destruct l. }
  rewrite Ht, (split_comma_concat l Hne Hnc). f_equal. clear Hne Hnc Ht.
  induction Hl as [|d l (Hd & Hlow & Hstrip & _) _ IH]; [reflexivity|].
  cbn [List.filter]. rewrite Hstrip.
  apply truthy_nonempty in Hd. rewrite Hd. cbn [List.map].
  now rewrite Hstrip, Hlow, IH.
Qed.

Lemma allow_list_round_trip_witness :
  Config.parse_allowed_domains (Some "example.com,kactica.com")
  = Some ["example.com"; "kactica.com"].
Proof.
  apply (allow_list_round_trip ["example.com"; "kactica.com"]).
  - discriminate.
  - repeat constructor; discriminate.
Defined.

(** X18.  The allow-list is matched without regard to case, on both
    sides, and to the blanks around an entry.  If the allow-list comes
    from a text one of whose comma-separated items, stripped, is not empty
    and equals the network location of an http or https URL up to case,
    then the URL is accepted, and the domain returned is the network
    location in lower case. *)
Theorem allow_list_matches_any_case (env : Env) (text u a : string)
    (p : Urllib.ParseResult) :
  ALLOWED_SCREENSHOT_DOMAINS (settings env)
  = Config.parse_allowed_domains (Some text) →
  In a (Config.split_comma text) →
  Config.strip a ≠ EmptyString →
  Urllib.urlparse u = inr p →
  Urllib.scheme p = "http" ∨ Urllib.scheme p = "https" →
  PyStr.lower (Urllib.netloc p) = PyStr.lower (Config.strip a) →
  validate_domain env u = inr (PyStr.lower (Urllib.netloc p)).
Proof.
  intros Hcfg Ha Hne Hp Hs Heq.
  apply validate_domain_accepts, validate_domain_body_accepts.
  exists p. split; [exact Hp|]. split; [exact Hs|]. split; [reflexivity|].
  split; [rewrite Heq; now apply lower_nonempty|].
  right. exists (PyStr.lower (Config.strip a)). split; [|now left].
  unfold allow_list. rewrite Hcfg. unfold Config.parse_allowed_domains.
  destruct text as [|c t].
  { destruct Ha as [<-|[]]. now destruct Hne. }
  cbn [PyStr.truthy default]. apply in_map_iff. exists a.
  split; [reflexivity|]. apply filter_In. split; [exact Ha|].
  now apply truthy_nonempty.
Qed.

Lemma allow_list_matches_any_case_witness :
  validate_domain (Demo.env false (Some "Example.COM , kactica.com"))
    "HTTPS://EXAMPLE.com/a"
  = inr "example.com".
Proof.
  apply (allow_list_matches_any_case
           (Demo.env false (Some "Example.COM , kactica.com"))
           "Example.COM , kactica.com" "HTTPS://EXAMPLE.com/a" "Example.COM "
           (Urllib.mkParseResult "https" "EXAMPLE.com" "/a")).
  - reflexivity.
  - left. reflexivity.
  - discriminate.
  - reflexivity.
  - right. reflexivity.
  - reflexivity.
Defined.

(** ** A cache hit *)

(** X19.  A cache hit is answered at once.  When the lookup of the key
    finds an entry with a reference that is not empty, [/generate] answers
    "cached" with the reference and the root handler redirects to it; the
    lookup is all they do: the table is neither read nor written and
    nothing is rendered, published or queued. *)
Theorem cache_hit_is_served_at_once (env : Env) (fuel : nat) (u : string)
    (ttl width height : option Z) (w : World) (d : list (string * string))
    (s3 : string) :
  let key := make_cache_key u (default 1200 width) (default 630 height) in
  let w1 := (check_cache key w).2 in
  (∃ domain, validate_domain env u = inr domain) →
  (check_cache key w).1 = Ok (Some d) →
  dict_get "s3_url" d = Some s3 →
  s3 ≠ EmptyString →
  generate_og_image env u ttl width height false w
  = (Ok (CachedResponse "cached" s3), w1)
  ∧ root_handler env fuel (Some u) ttl width height false w
    = (Ok (RedirectResponse (Some s3) HTTP_307_TEMPORARY_REDIRECT), w1)
  ∧ w_db w1 = w_db w
  ∧ new_events w w1 = [CacheGet key].
Proof.
  intros key w1 [domain Hv] Hhit Hd Hs3.
  pose proof (check_cache_frame key w) as (_ & Hdb & _ & Htr).
  destruct (check_cache key w) as [res w0] eqn:Hcc.
  cbn [fst snd] in *. subst res w1.
  split; [|split; [|split]].
  - unfold generate_og_image. rewrite Hv. fold key.
    erewrite bind_ok; [|exact Hcc]. cbv beta iota.
    now rewrite Hd.
  - unfold root_handler. rewrite Hv. fold key.
    erewrite bind_ok; [|reflexivity]. cbv beta iota.
    erewrite bind_ok; [|exact Hcc]. cbv beta iota.
    unfold cached_s3_url. destruct d as [|kv d]; [discriminate|].
    rewrite Hd. apply truthy_nonempty in Hs3. cbn [PyStr.truthy_opt].
    now rewrite Hs3.
  - exact Hdb.
  - now apply new_events_app.
Qed.

Lemma cache_hit_is_served_at_once_witness :
  let u := "https://example.com/" in
  let key := "og_image:https://example.com/:1200:630" in
  let s3 := "https://cdn.example.net/og_images/7.png" in
  let w := (update_cache key s3 (2 * Demo.hour) (Demo.world [])).2 in
  generate_og_image (Demo.env true None) u None None None false w
  = (Ok (CachedResponse "cached" s3), (check_cache key w).2)
  ∧ root_handler (Demo.env true None) 31 (Some u) None None None false w
    = (Ok (RedirectResponse (Some s3) 307), (check_cache key w).2).
Proof.
  intros u key s3 w.
  destruct (cache_hit_is_served_at_once (Demo.env true None) 31 u None None
              None w [("s3_url", s3)] s3) as (H1 & H2 & _).
  - exists "example.com". reflexivity.
  - reflexivity.
  - reflexivity.
  - discriminate.
  - split; assumption.
Defined.

(** ** The publisher's URL *)

Lemma rstrip_slash_slashes (n : nat) :
  Storage.rstrip_slash (slashes n) = EmptyString.
Proof.
  induction n as [|n IH]; [reflexivity|].
  cbn [slashes Storage.rstrip_slash]. now rewrite IH.
Qed.

Lemma rstrip_slash_app_slashes (s : string) (n : nat) :
  Storage.rstrip_slash (s +:+ slashes n) = Storage.rstrip_slash s.
Proof.
  induction s as [|c s IH]; [apply rstrip_slash_slashes|].
  change (String c s +:+ slashes n) with (String c (s +:+ slashes n)).
  cbn [Storage.rstrip_slash]. now rewrite IH.
Qed.

Lemma rstrip_slash_no_trailing (s t : string) :
  Storage.rstrip_slash s ≠ t +:+ "/".
Proof.
  revert t. induction s as [|c s IH]; intros t.
  - destruct t; discriminate.
  - cbn [Storage.rstrip_slash].
    destruct (Storage.rstrip_slash s) as [|d r] eqn:E.
    + destruct (Ascii.eqb c "/") eqn:Hc.
      * destruct t; discriminate.
      * destruct t as [|c' t].
        -- intros [= ->]. discriminate Hc.
        -- change (String c' t +:+ "/") with (String c' (t +:+ "/")).
           intros [= _ H]. destruct t; discriminate H.
    + destruct t as [|c' t]; [discriminate|].
      change (String c' t +:+ "/") with (String c' (t +:+ "/")).
      intros [= _ H]. exact (IH t H).
Qed.

(** X20.  With a CDN configured the publisher answers with a URL on the
    CDN, whatever the bucket and the endpoint are and however many slashes
    the CDN's base URL ends with: the URL is the base without its trailing
    slashes, one slash, and the key.  When the upload fails, the client's
    exception is raised unchanged and no URL is produced. *)
Theorem publisher_url_with_cdn (bucket : string) (endpoint : option string)
    (cdn : string) (n : nat)
    (upload_file : string → string → string → option exn)
    (local_file_path destination_s3_key : string) :
  let st := Storage.mkS3Settings bucket endpoint (Some (cdn +:+ slashes n)) in
  Storage.upload_to_s3 st upload_file local_file_path destination_s3_key
  = match upload_file local_file_path bucket destination_s3_key with
    | Some e => inl e
    | None =>
        inr (Storage.rstrip_slash cdn +:+ "/" +:+ destination_s3_key)
    end
  ∧ ∀ t, Storage.rstrip_slash cdn ≠ t +:+ "/".
Proof.
  cbv zeta. split; [|intros t; apply rstrip_slash_no_trailing].
  unfold Storage.upload_to_s3, Storage.object_url.
  cbn [Storage.AWS_BUCKET_NAME Storage.CDN_URL Storage.AWS_ENDPOINT_URL].
  now rewrite rstrip_slash_app_slashes.
Qed.

(** ** Cache keys *)

Lemma append_assoc_s (a b c : string) : (a +:+ b) +:+ c = a +:+ (b +:+ c).
Proof.
  induction a as [|d a IH]; [reflexivity|].
  rewrite !cons_app. now rewrite IH.
Qed.

Lemma append_inv_head (a b c : string) : a +:+ b = a +:+ c → b = c.
Proof.
  induction a as [|d a IH]; [auto|].
  rewrite !cons_app. intros [= H]. auto.
Qed.

(** A text is cut in one way only at its last colon. *)
Lemma colon_split_right (x x' t t' : string) :
  PyStr.mem ":" t = false → PyStr.mem ":" t' = false →
  x +:+ String ":" t = x' +:+ String ":" t' → x = x' ∧ t = t'.
Proof.
  intros Ht Ht'. revert x'.
  induction x as [|c x IH]; intros [|c' x']; rewrite ?cons_app;
    change (EmptyString +:+ ?y) with y; intros H.
  - now injection H as ->.
  - injection H as _ ->. rewrite mem_app in Ht. cbn in Ht.
    rewrite orb_true_r in Ht. discriminate.
  - injection H as _ <-. rewrite mem_app in Ht'. cbn in Ht'.
    rewrite orb_true_r in Ht'. discriminate.
  - injection H as -> H. destruct (IH x' H) as [-> ->]. auto.
Qed.

Lemma pretty_N_char_no_colon (x : N) :
  Ascii.eqb ":" (pretty_N_char x) = false.
Proof. unfold pretty_N_char. repeat case_match; reflexivity. Qed.

Lemma pretty_N_go_no_colon (x : N) (s : string) :
  PyStr.mem ":" s = false → PyStr.mem ":" (pretty_N_go x s) = false.
Proof.
  revert s. induction (N.lt_wf_0 x) as [x _ IH]; intros s Hs.
  assert (x = 0 ∨ 0 < x)%N as [->|Hx] by lia.
  - now rewrite pretty_N_go_0.
  - rewrite pretty_N_go_step by exact Hx. apply IH.
    + now apply N.div_lt.
    + cbn [PyStr.mem]. now rewrite pretty_N_char_no_colon, Hs.
Qed.

Lemma pretty_N_no_colon (x : N) : PyStr.mem ":" (pretty x) = false.
Proof.
  unfold pretty, pretty_N. case_decide; [reflexivity|].
  now apply pretty_N_go_no_colon.
Qed.

Lemma pretty_Z_no_colon (z : Z) : PyStr.mem ":" (pretty z) = false.
Proof.
  destruct z as [|p|p]; [reflexivity | apply pretty_N_no_colon|].
  change (pretty (Z.neg p)) with (String "-" (pretty (N.pos p))).
  cbn [PyStr.mem]. now rewrite pretty_N_no_colon.
Qed.

(** X21.  Cache keys do not collide: two requests have the same cache key
    exactly when they have the same URL, the same width and the same
    height, so that no request is ever answered from the cache entry of
    another URL or size. *)
Theorem cache_keys_do_not_collide (u u' : string)
    (width height width' height' : Z) :
  make_cache_key u width height = make_cache_key u' width' height'
  ↔ u = u' ∧ width = width' ∧ height = height'.
Proof.
  split; [|now intros (-> & -> & ->)].
  unfold make_cache_key. intros H.
  apply append_inv_head in H.
  assert (Hshape : ∀ a pw ph : string,
             a +:+ ":" +:+ pw +:+ ":" +:+ ph
             = (a +:+ String ":" pw) +:+ String ":" ph)
    by (intros; now rewrite append_assoc_s).
  rewrite !Hshape in H.
  apply colon_split_right in H as [H Hh]; try apply pretty_Z_no_colon.
  apply colon_split_right in H as [Hu Hw]; try apply pretty_Z_no_colon.
  apply (inj pretty) in Hh, Hw. auto.
Qed.

(** ** Failures, as the client sees them *)

Lemma stale_not_reusable (now : datetime) (r : Screenshot) :
  stale now r = true → reusable now r = false.
Proof.
  unfold stale, reusable. destruct (now <? expires_at r); [|reflexivity].
  destruct (status r); intros H; first
    [ reflexivity | vm_compute in H; discriminate H ].
Qed.

Lemma root_db_check_goes_on (env : Env) (key : string)
    (record : option Screenshot) (now : datetime) (w : World) :
  (∀ r, record = Some r → stale now r = true) →
  root_db_check env key record now w = (Ok (GoOn (None, None)), w).
Proof.
  intros H. unfold root_db_check. destruct record as [r|]; [|reflexivity].
  specialize (H r eq_refl). unfold stale in H.
  destruct (now <? expires_at r); [|now rewrite !andb_false_r].
  cbn [negb orb] in H. apply bool_decide_eq_true in H. rewrite H.
  reflexivity.
Qed.

(** The root handler on the way to a new generation. *)
Lemma root_goes_on (env : Env) (fuel : nat) (u : string)
    (ttl width height : option Z) (force_refresh : bool) (w : World) :
  let key := make_cache_key u (default 1200 width) (default 630 height) in
  let w1 := if force_refresh then w
            else emit (DbFind u) (check_cache key w).2 in
  (∃ domain, validate_domain env u = inr domain) →
  (force_refresh = true
   ∨ (check_cache key w).1 = Ok None
     ∧ ∀ r, most_recent_for_url (w_db w) u = Some r →
            stale (w_now w) r = true) →
  root_handler env fuel (Some u) ttl width height force_refresh w
  = root_step3 env fuel u (default 1200 width) (default 630 height) key
      (w_now w + ttl_seconds_of env ttl * micro) None None w1.
Proof.
  intros key w1 [domain Hv] H. unfold root_handler. rewrite Hv. fold key.
  erewrite bind_ok; [|reflexivity]. cbv beta iota.
  destruct force_refresh.
  - erewrite bind_ok; [|reflexivity]. cbv beta iota. cbn [cached_s3_url].
    unfold root_after_cache.
    erewrite bind_ok; [|reflexivity]. cbv beta iota.
    erewrite bind_ok; [|reflexivity]. reflexivity.
  - destruct H as [H|[Hmiss Hstale]]; [discriminate|].
    pose proof (same_store_check_cache key w) as (Hdb & _ & _ & Hnow).
    destruct (check_cache key w) as [res w0] eqn:Hcc.
    cbn [fst snd] in *. subst res.
    erewrite bind_ok; [|exact Hcc]. cbv beta iota. cbn [cached_s3_url].
    unfold root_after_cache.
    erewrite bind_ok; [|apply find_existing_record_run]. cbv beta iota.
    erewrite bind_ok; cycle 1.
    { apply root_db_check_goes_on. rewrite Hdb. exact Hstale. }
    reflexivity.
Qed.

Lemma root_step3_run (env : Env) (fuel : nat) (u : string) (width height : Z)
    (key : string) (expires : datetime) (record : option Screenshot)
    (task : option UUID) (w : World) :
  root_step3 env fuel u width height key expires record task w
  = match root_generate_or_poll env fuel u width height key expires record
            task w with
    | (Ok (Some resp), w') => (Ok resp, w')
    | (Ok None, w') =>
        (Ok (HTMLResponse html_processing HTTP_500_INTERNAL_SERVER_ERROR), w')
    | (Raise (HTTPException c d), w') =>
        (Ok (HTMLResponse (html_generation_failed d) c),
         emit (LogError ("HTTPException during root processing for "
                         +:+ u +:+ ": " +:+ d)) w')
    | (Raise e, w') =>
        (Ok (HTMLResponse html_unexpected HTTP_500_INTERNAL_SERVER_ERROR),
         emit (LogError ("Unexpected error during root processing for "
                         +:+ u +:+ ": " +:+ exn_str e)) w')
    | (Stuck, w') => (Stuck, w')
    end.
Proof.
  unfold root_step3, mbind, M_bind, try_except.
  destruct (root_generate_or_poll env fuel u width height key expires record
              task w) as [[[resp|]|e|] w']; try reflexivity.
  destruct e; reflexivity.
Qed.

(** The creation fails in every world that has the store of [w]. *)
Lemma create_fails (env : Env) (u : string) (expires : datetime)
    (w : World) :
  ¬ next_write_ok w ∨ is_Some (w_db w !! uuid4 env (w_uuid_calls w)) →
  ∃ msg,
    create_db_record env u expires w
    = (Raise (HTTPException 500 "Database error during record creation"),
       emit (LogError msg)
         (emit DbRollback
            (with_db_faults (tl (w_db_faults w))
               (with_uuid_calls (S (w_uuid_calls w)) w)))).
Proof.
  intros Hfail. rewrite create_run. cbv zeta. unfold next_write_ok in Hfail.
  destruct (hd None (w_db_faults w)) as [e|]; [eauto|].
  destruct Hfail as [Hfail|[r Hr]]; [congruence|]. rewrite Hr. eauto.
Qed.

(** X22.  When the new record cannot be created, because the write fails
    or the id is taken, both handlers answer with status 500 and the
    detail "Database error during record creation", [/generate] in JSON and
    the root handler as an error page; the record store is rolled back,
    the table is as it was, and nothing is rendered, published or
    queued. *)
Theorem creation_failure_is_reported (env : Env) (fuel : nat) (u : string)
    (ttl width height : option Z) (force_refresh : bool) (w : World) :
  let key := make_cache_key u (default 1200 width) (default 630 height) in
  let new_id := uuid4 env (w_uuid_calls w) in
  let run := generate_og_image env u ttl width height force_refresh w in
  let root := root_handler env fuel (Some u) ttl width height force_refresh w in
  (∃ domain, validate_domain env u = inr domain) →
  (force_refresh = true
   ∨ (check_cache key w).1 = Ok None
     ∧ ∀ r, most_recent_for_url (w_db w) u = Some r →
            stale (w_now w) r = true) →
  (¬ next_write_ok w ∨ is_Some (w_db w !! new_id)) →
  run.1 = Ok (JSONResponse 500 "Database error during record creation")
  ∧ root.1
    = Ok (HTMLResponse
            (html_generation_failed "Database error during record creation")
            500)
  ∧ w_db run.2 = w_db w ∧ w_db root.2 = w_db w
  ∧ Forall (λ e, starts_work e = false) (new_events w run.2)
  ∧ Forall (λ e, starts_work e = false) (new_events w root.2).
Proof.
  intros key new_id run root Hv Hstale Hfail.
  assert (Hstale' : force_refresh = true
                    ∨ (check_cache key w).1 = Ok None
                      ∧ ∀ r, most_recent_for_url (w_db w) u = Some r →
                             reusable (w_now w) r = false).
  { destruct Hstale as [H|[H1 H2]]; [now left | right].
    split; [exact H1|]. intros r Hr. apply stale_not_reusable. auto. }
  pose proof (generate_goes_on env u ttl width height force_refresh w Hv
                Hstale') as Hgo.
  pose proof (root_goes_on env fuel u ttl width height force_refresh w Hv
                Hstale) as Hroot.
  cbv zeta in Hgo, Hroot. fold key in Hgo, Hroot. fold run in Hgo.
  fold root in Hroot.
  pose proof (same_store_check_cache key w) as (Hdb & Hf & Huc & _).
  pose proof (check_cache_frame key w) as (_ & _ & _ & Htr).
  set (wc := (check_cache key w).2) in *.
  assert (Hw1 : ∀ w1, w1 = (if force_refresh then w else wc)
                      ∨ w1 = emit (DbFind u)
                               (if force_refresh then w else wc) →
                (¬ next_write_ok w1
                 ∨ is_Some (w_db w1 !! uuid4 env (w_uuid_calls w1)))
                ∧ w_db w1 = w_db w
                ∧ ∃ evs, w_trace w1 = (w_trace w ++ evs)%list
                         ∧ Forall (λ e, starts_work e = false) evs).
  { unfold next_write_ok in *.
    intros w1 [->| ->]; destruct force_refresh;
      cbn [emit w_db w_db_faults w_uuid_calls w_trace];
      rewrite ?Hdb, ?Hf, ?Huc; (split; [exact Hfail|]);
      (split; [reflexivity|]).
    - exists []. now rewrite app_nil_r.
    - exists [CacheGet key]. split; [exact Htr | repeat constructor].
    - exists [DbFind u]. split; [reflexivity | repeat constructor].
    - exists [CacheGet key; DbFind u]. rewrite Htr, <- app_assoc.
      split; [reflexivity | repeat constructor]. }
  destruct (Hw1 (emit (DbFind u) (if force_refresh then w else wc))
              (or_intror eq_refl)) as (G1 & G2 & evs & G4 & G5).
  destruct (create_fails env u (w_now w + ttl_seconds_of env ttl * micro) _ G1)
    as [msg Hc].
  assert (Hrw : ∃ w1, (w1 = (if force_refresh then w else wc)
                       ∨ w1 = emit (DbFind u)
                                (if force_refresh then w else wc))
                      ∧ root
                        = root_step3 env fuel u (default 1200 width)
                            (default 630 height) key
                            (w_now w + ttl_seconds_of env ttl * micro) None
                            None w1).
  { rewrite Hroot. destruct force_refresh; eauto. }
  destruct Hrw as (w1 & Hw1eq & Hroot1).
  destruct (Hw1 w1 Hw1eq) as (K1 & K2 & evs' & K4 & K5).
  destruct (create_fails env u (w_now w + ttl_seconds_of env ttl * micro) _ K1)
    as [msg' Hc'].
  assert (Hrun : run.1 = Ok (JSONResponse 500
                               "Database error during record creation")
                 ∧ ∃ wg, w_trace wg = (w_trace w ++ evs)%list
                         ∧ run.2 = emit (LogError msg)
                                     (emit DbRollback
                                        (with_db_faults (tl (w_db_faults wg))
                                           (with_uuid_calls
                                              (S (w_uuid_calls wg)) wg)))).
  { rewrite Hgo. unfold generate_new.
    erewrite bind_ok; cycle 1.
    { erewrite try_raise; cycle 1.
      { erewrite bind_raise; [reflexivity | exact Hc]. }
      reflexivity. }
    split; [reflexivity|]. eexists. split; [exact G4 | reflexivity]. }
  assert (Hgdb : w_db (generate_new env u (default 1200 width)
                         (default 630 height) key
                         (w_now w + ttl_seconds_of env ttl * micro)
                         (emit (DbFind u) (if force_refresh then w else wc))).2
                 = w_db w).
  { unfold generate_new.
    erewrite bind_ok; cycle 1.
    { erewrite try_raise; cycle 1.
      { erewrite bind_raise; [reflexivity | exact Hc]. }
      reflexivity. }
    exact G2. }
  assert (Hrootrun :
            root.1 = Ok (HTMLResponse
                           (html_generation_failed
                              "Database error during record creation") 500)
            ∧ root.2
              = emit (LogError
                        ("HTTPException during root processing for "
                         +:+ u +:+ ": "
                         +:+ "Database error during record creation"))
                  (emit (LogError msg')
                     (emit DbRollback
                        (with_db_faults (tl (w_db_faults w1))
                           (with_uuid_calls (S (w_uuid_calls w1)) w1))))).
  { rewrite Hroot1, root_step3_run. unfold root_generate_or_poll.
    rewrite bool_decide_eq_true_2 by (split; reflexivity).
    erewrite bind_raise; cycle 1.
    { erewrite bind_raise; [reflexivity | exact Hc']. }
    split; reflexivity. }
  destruct Hrun as (Hr1 & wg & Hwg & Hr2). destruct Hrootrun as [Hq1 Hq2].
  assert (Hdbg : w_db run.2 = w_db w) by (rewrite Hgo; apply Hgdb).
  rewrite Hr1, Hq1, Hdbg, Hr2, Hq2.
  split; [reflexivity|]. split; [reflexivity|].
  split; [reflexivity|]. split; [exact K2|]. split.
  - erewrite new_events_app; cycle 1.
    { cbn [emit with_db_faults with_uuid_calls w_trace].
      rewrite Hwg, <- !app_assoc. reflexivity. }
    apply Forall_app. split; [exact G5 | repeat constructor].
  - erewrite new_events_app; cycle 1.
    { cbn [emit with_db_faults with_uuid_calls w_trace].
      rewrite K4, <- !app_assoc. reflexivity. }
    apply Forall_app. split; [exact K5 | repeat constructor].
Qed.

Lemma creation_failure_is_reported_witness :
  let u := "https://example.com/" in
  let w := with_db_faults [Some (Exception "OperationalError" "server closed")]
             (Demo.world []) in
  (generate_og_image (Demo.env false None) u None None None false w).1
  = Ok (JSONResponse 500 "Database error during record creation")
  ∧ (root_handler (Demo.env false None) 31 (Some u) None None None false w).1
    = Ok (HTMLResponse
            (html_generation_failed "Database error during record creation")
            500).
Proof.
  intros u w.
  destruct (creation_failure_is_reported (Demo.env false None) 31 u None None
              None false w) as (H1 & H2 & _).
  - exists "example.com". reflexivity.
  - right. split; [reflexivity|]. intros r Hr. vm_compute in Hr. discriminate.
  - left. unfold next_write_ok. discriminate.
  - split; assumption.
Defined.

Lemma sync_fail_run (env : Env) (i : UUID) (u : string) (width height : Z)
    (key : string) (expires : datetime) (w : World) (r : Screenshot)
    (exc : exn) :
  let r1 := apply_status PROCESSING None None r in
  let run := run_sync_generation env i u width height key expires w in
  w_db w !! i = Some r →
  w_db_faults w = [] →
  (_perform_screenshot_and_upload env (uuid_str env i) u width height
     (after_write i PROCESSING r1 w)).1 = Raise exc →
  run.1 = Raise exc
  ∧ w_db run.2
    = <[i := apply_status FAILED None (Some (exn_str exc)) r1]> (w_db w).
Proof.
  intros r1 run Hr Hnf Hp. subst run.
  assert (Hf : next_write_ok w) by (unfold next_write_ok; now rewrite Hnf).
  set (w1 := after_write i PROCESSING r1 w) in *.
  pose proof (perform_frame env (uuid_str env i) u width height w1 i)
    as (Hdb & Hfaults & _).
  destruct (_perform_screenshot_and_upload env (uuid_str env i) u width
              height w1) as [res w2] eqn:Hrun.
  cbn [fst snd] in *. subst res.
  unfold run_sync_generation.
  erewrite try_raise; cycle 1.
  { erewrite bind_ok; [|apply (update_found _ _ _ _ _ _ Hf Hr)].
    erewrite bind_raise; [reflexivity|]. exact Hrun. }
  erewrite bind_ok; [|reflexivity].
  erewrite bind_ok; [|apply record_failure_run].
  cbn [raise fst snd]. split; [reflexivity|].
  cbn [emit w_db w_db_faults]. rewrite Hdb, Hfaults.
  cbn [w1 after_write emit with_db with_db_faults w_db w_db_faults].
  rewrite lookup_insert_eq, Hnf.
  cbn [tl hd after_write emit with_db with_db_faults w_db].
  rewrite Hdb. cbn [w1 after_write emit with_db with_db_faults w_db].
  apply insert_insert_eq.
Qed.

Lemma dispatch_fail_run (env : Env) (i : UUID) (u : string) (width height : Z)
    (w : World) (r : Screenshot) (e : exn) :
  let run := dispatch_celery_task env i u width height w in
  delay env (uuid_str env i) u width height = inl e →
  w_db w !! i = Some r →
  next_write_ok w →
  run.1 = Raise (HTTPException 500 "Failed to queue generation task")
  ∧ w_db run.2
    = <[i := apply_status FAILED None (Some "Failed to queue task") r]>
        (w_db w).
Proof.
  intros run Hd Hr Hf. subst run. unfold dispatch_celery_task.
  erewrite try_raise; cycle 1.
  { erewrite bind_ok; [|reflexivity].
    erewrite bind_raise; [reflexivity|]. rewrite Hd. reflexivity. }
  erewrite bind_ok; [|reflexivity].
  erewrite bind_ok; [|apply record_failure_run].
  cbn [raise fst snd]. split; [reflexivity|].
  unfold next_write_ok in Hf.
  cbn [emit w_db w_db_faults]. rewrite Hf, Hr. reflexivity.
Qed.

(** X23.  A generation attempt that fails is reported to the client and
    recorded.  With the new record created and the record store working:
    in deferred mode, when the queue refuses the task, [/generate] answers
    with status 500 and "Failed to queue generation task" and the new row
    is Failed with the text "Failed to queue task"; in inline mode, when
    rendering and publishing raises, [/generate] answers with status 500
    and "Generation failed: " followed by the text of the exception (or
    with the status and the detail of the exception if it is an
    [HTTPException]) and the new row is Failed with that text cut at 500
    characters.  In both cases the row has no artifact reference. *)
Theorem attempt_failure_is_reported (env : Env) (u : string)
    (ttl width height : option Z) (force_refresh : bool) (w : World)
    (exc : exn) :
  let key := make_cache_key u (default 1200 width) (default 630 height) in
  let new_id := uuid4 env (w_uuid_calls w) in
  let expires := w_now w + ttl_seconds_of env ttl * micro in
  let run := generate_og_image env u ttl width height force_refresh w in
  let deferred := CELERY_ENABLED (settings env) in
  (∃ domain, validate_domain env u = inr domain) →
  (force_refresh = true
   ∨ (check_cache key w).1 = Ok None
     ∧ ∀ r, most_recent_for_url (w_db w) u = Some r →
            reusable (w_now w) r = false) →
  w_db_faults w = [] →
  w_db w !! new_id = None →
  (if deferred
   then delay env (uuid_str env new_id) u (default 1200 width)
          (default 630 height) = inl exc
   else ∀ w', (_perform_screenshot_and_upload env (uuid_str env new_id) u
                 (default 1200 width) (default 630 height) w').1
              = Raise exc) →
  run.1 = Ok (if deferred
              then JSONResponse 500 "Failed to queue generation task"
              else generation_error_response exc)
  ∧ w_db run.2
    = <[new_id := mkScreenshot new_id u None (w_now w) expires FAILED
                    (Some (if deferred then "Failed to queue task"
                           else PyStr.take 500 (exn_str exc)))]> (w_db w).
Proof.
  intros key new_id expires run deferred Hv Hstale Hnf Hfree Hfail.
  pose proof (generate_goes_on env u ttl width height force_refresh w Hv Hstale)
    as Hgo.
  cbv zeta in Hgo. fold key in Hgo. fold expires in Hgo. fold run in Hgo.
  set (w0 := if force_refresh then w else (check_cache key w).2) in *.
  assert (H0 : same_store w w0).
  { subst w0. destruct force_refresh; [reflexivity|].
    apply same_store_check_cache. }
  destruct H0 as (Hdb0 & Hf0 & Huc0 & Hnow0).
  set (rec := mkScreenshot new_id u None (w_now w) expires PENDING None).
  set (w2 := emit (DbInsert new_id)
               (with_db (<[new_id := rec]> (w_db w))
                  (with_db_faults (tl (w_db_faults w))
                     (with_uuid_calls (S (w_uuid_calls w))
                        (emit (DbFind u) w0))))).
  assert (Hcreate : create_db_record env u expires (emit (DbFind u) w0)
                    = (Ok rec, w2)).
  { rewrite create_run. cbv zeta.
    cbn [emit w_db_faults w_db w_uuid_calls w_now].
    rewrite Hf0, Hdb0, Huc0, Hnow0. fold new_id.
    assert (Hhd : hd None (w_db_faults w) = None) by now rewrite Hnf.
    rewrite Hhd, Hfree. reflexivity. }
  assert (Hr2 : w_db w2 !! new_id = Some rec) by apply lookup_insert_eq.
  assert (Hnf2 : w_db_faults w2 = []) by (cbn; now rewrite Hnf).
  assert (Hdb2 : w_db w2 = <[new_id := rec]> (w_db w)) by reflexivity.
  rewrite Hgo. unfold generate_new.
  erewrite bind_ok; cycle 1.
  { erewrite try_ok; [reflexivity|].
    erewrite bind_ok; [reflexivity | exact Hcreate]. }
  cbv beta iota. cbn [id rec]. fold rec.
  subst deferred. destruct (CELERY_ENABLED (settings env)).
  - destruct (dispatch_fail_run env new_id u (default 1200 width)
                (default 630 height) w2 rec exc Hfail Hr2) as [Hd1 Hd2].
    { unfold next_write_ok. now rewrite Hnf2. }
    destruct (dispatch_celery_task env new_id u (default 1200 width)
                (default 630 height) w2) as [res w3] eqn:Hdis.
    cbn [fst snd] in Hd1, Hd2. subst res.
    erewrite try_raise; cycle 1.
    { erewrite bind_raise; [reflexivity | exact Hdis]. }
    cbn [mret M_ret fst snd]. split; [reflexivity|].
    rewrite Hd2, Hdb2. apply insert_insert_eq.
  - destruct (sync_fail_run env new_id u (default 1200 width)
                (default 630 height) key expires w2 rec exc Hr2 Hnf2
                (Hfail _)) as [Hs1 Hs2].
    destruct (run_sync_generation env new_id u (default 1200 width)
                (default 630 height) key expires w2) as [res w3] eqn:Hsync.
    cbn [fst snd] in Hs1, Hs2. subst res.
    erewrite try_raise; cycle 1.
    { erewrite bind_raise; [reflexivity | exact Hsync]. }
    assert (Hdb3 : w_db w3
                   = <[new_id := mkScreenshot new_id u None (w_now w) expires
                                   FAILED
                                   (Some (PyStr.take 500 (exn_str exc)))]>
                       (w_db w)).
    { rewrite Hs2, Hdb2. apply insert_insert_eq. }
    destruct exc; cbn [generation_error_response];
      (split; [reflexivity | exact Hdb3]).
Qed.

Lemma attempt_failure_is_reported_witness :
  let u := "https://example.com/" in
  let w := Demo.world [] in
  (generate_og_image (Demo.env_render_fails false) u None None None false w).1
  = Ok (JSONResponse 500 "Generation failed: Timeout waiting for page")
  ∧ (generate_og_image Demo.env_queue_down u None None None false w).1
    = Ok (JSONResponse 500 "Failed to queue generation task").
Proof.
  intros u w. split.
  - refine (proj1 (attempt_failure_is_reported (Demo.env_render_fails false) u
                     None None None false w
                     (Exception "TimeoutException" "Timeout waiting for page")
                     _ _ _ _ _)).
    + exists "example.com". reflexivity.
    + right. split; [reflexivity|].
      intros r Hr. vm_compute in Hr. discriminate.
    + reflexivity.
    + reflexivity.
    + intros w'. reflexivity.
  - refine (proj1 (attempt_failure_is_reported Demo.env_queue_down u
                     None None None false w
                     (Exception "OperationalError" "Connection refused")
                     _ _ _ _ _)).
    + exists "example.com". reflexivity.
    + right. split; [reflexivity|].
      intros r Hr. vm_compute in Hr. discriminate.
    + reflexivity.
    + reflexivity.
    + reflexivity.
Defined.

(** ** The root handler when it has to generate *)

Lemma root_step3_polls (env : Env) (fuel : nat) (u : string)
    (width height : Z) (key : string) (expires : datetime)
    (record : option Screenshot) (task : option UUID) (w w3 : World)
    (task_id : UUID) :
  root_generate_or_poll env fuel u width height key expires record task w
  = (s3_url ← poll_task_completion env fuel task_id key;
     mret (Some (RedirectResponse s3_url HTTP_307_TEMPORARY_REDIRECT))) w3 →
  root_step3 env fuel u width height key expires record task w
  = root_poll_answer u (poll_task_completion env fuel task_id key w3).
Proof.
  intros H. rewrite root_step3_run, H. unfold mbind, M_bind.
  destruct (poll_task_completion env fuel task_id key w3) as [[s3|e|] w4];
    reflexivity.
Qed.

(** X24.  The root handler in deferred mode, when it has to generate, with
    a write that goes through, a free id and a queue that accepts the
    task: it inserts one Pending row, hands the task over, and then waits
    for that very record through the completion poller; its answer is
    what the poller ends in, a redirect to the image or an error page.
    It renders and publishes nothing itself. *)
Theorem root_deferred_request_polls (env : Env) (fuel : nat) (u : string)
    (ttl width height : option Z) (force_refresh : bool) (w : World)
    (task : string) :
  let key := make_cache_key u (default 1200 width) (default 630 height) in
  let new_id := uuid4 env (w_uuid_calls w) in
  let expires := w_now w + ttl_seconds_of env ttl * micro in
  let root := root_handler env fuel (Some u) ttl width height force_refresh w in
  CELERY_ENABLED (settings env) = true →
  (∃ domain, validate_domain env u = inr domain) →
  (force_refresh = true
   ∨ (check_cache key w).1 = Ok None
     ∧ ∀ r, most_recent_for_url (w_db w) u = Some r →
            stale (w_now w) r = true) →
  next_write_ok w →
  w_db w !! new_id = None →
  delay env (uuid_str env new_id) u (default 1200 width) (default 630 height)
  = inr task →
  ∃ w3,
    root = root_poll_answer u (poll_task_completion env fuel new_id key w3)
    ∧ w_db w3
      = <[new_id := mkScreenshot new_id u None (w_now w) expires PENDING None]>
          (w_db w)
    ∧ w_now w3 = w_now w
    ∧ new_events w w3
      = ((if force_refresh then [] else [CacheGet key; DbFind u])
         ++ [DbInsert new_id;
             Enqueue (uuid_str env new_id) u (default 1200 width)
               (default 630 height)])%list.
Proof.
  intros key new_id expires root Hmode Hv Hstale Hf Hfree Hdelay.
  pose proof (root_goes_on env fuel u ttl width height force_refresh w Hv
                Hstale) as Hroot.
  cbv zeta in Hroot. fold key in Hroot. fold expires in Hroot.
  fold root in Hroot.
  set (w1 := if force_refresh then w
             else emit (DbFind u) (check_cache key w).2) in *.
  assert (H1 : same_store w w1
               ∧ w_trace w1
                 = (w_trace w ++ if force_refresh then []
                                 else [CacheGet key; DbFind u])%list).
  { subst w1. destruct force_refresh.
    - split; [reflexivity | now rewrite app_nil_r].
    - pose proof (same_store_check_cache key w) as Hs.
      pose proof (check_cache_frame key w) as (_ & _ & _ & Htr).
      split; [exact Hs|]. cbn [emit w_trace]. rewrite Htr, <- app_assoc.
      reflexivity. }
  destruct H1 as ((Hdb1 & Hf1 & Huc1 & Hnow1) & Htr1).
  set (rec := mkScreenshot new_id u None (w_now w) expires PENDING None).
  set (w2 := emit (DbInsert new_id)
               (with_db (<[new_id := rec]> (w_db w))
                  (with_db_faults (tl (w_db_faults w))
                     (with_uuid_calls (S (w_uuid_calls w)) w1)))).
  assert (Hcreate : create_db_record env u expires w1 = (Ok rec, w2)).
  { rewrite create_run. cbv zeta. rewrite Hf1, Hdb1, Huc1, Hnow1.
    fold new_id. unfold next_write_ok in Hf. rewrite Hf, Hfree. reflexivity. }
  set (w3 := emit (Enqueue (uuid_str env new_id) u (default 1200 width)
                     (default 630 height)) w2).
  exists w3. split; [|split; [reflexivity|split]].
  - rewrite Hroot. apply root_step3_polls. unfold root_generate_or_poll.
    rewrite bool_decide_eq_true_2 by (split; reflexivity).
    erewrite bind_ok; cycle 1.
    { erewrite bind_ok; [|exact Hcreate]. cbv beta. rewrite Hmode.
      erewrite bind_ok; [reflexivity|].
      now apply (dispatch_run env new_id _ _ _ _ task). }
    cbv beta iota. rewrite Hmode. reflexivity.
  - subst w3 w2. cbn [emit with_db with_db_faults with_uuid_calls w_now].
    exact Hnow1.
  - apply new_events_app. subst w3 w2.
    cbn [emit with_db with_db_faults with_uuid_calls w_trace].
    rewrite Htr1, <- !app_assoc. reflexivity.
Qed.

Lemma root_deferred_request_polls_witness :
  let env := Demo.env_worker 100 Demo.hour
               "https://cdn.example.net/og_images/100.png" in
  let u := "https://example.com/" in
  let key := "og_image:https://example.com/:1200:630" in
  let w := Demo.world [] in
  ∃ w3,
    root_handler env 31 (Some u) None None None false w
    = root_poll_answer u (poll_task_completion env 31 100 key w3)
    ∧ new_events w w3
      = [CacheGet key; DbFind u; DbInsert 100; Enqueue "100" u 1200 630].
Proof.
  intros env u key w.
  destruct (root_deferred_request_polls env 31 u None None None false w
              "celery-task-1") as (w3 & H1 & _ & _ & H4).
  - reflexivity.
  - exists "example.com". reflexivity.
  - right. split; [reflexivity|]. intros r Hr. vm_compute in Hr. discriminate.
  - reflexivity.
  - reflexivity.
  - reflexivity.
  - exists w3. split; assumption.
Defined.



(** ** The renderer's check of the URL *)

(** X26.  What validation accepts, the renderer accepts: for a URL that
    [validate_domain] lets through, the renderer's own check of the
    scheme and the network location passes and the browser session is
    started; the [ValueError] of that check is never raised for a request
    that came through a handler. *)
Theorem validated_url_reaches_the_browser (env : Env)
    (browser : string → Z → Z → exn + string) (u : string) (width height : Z) :
  (∃ domain, validate_domain env u = inr domain) →
  ScreenshotService.take_screenshot browser u width height
  = browser u width height.
Proof.
  intros [domain Hv].
  apply validate_domain_accepts, validate_domain_body_accepts in Hv
    as (p & Hp & Hs & -> & Hne & _).
  unfold ScreenshotService.take_screenshot. rewrite Hp.
  assert (Hscheme : String.eqb (Urllib.scheme p) "http"
                    || String.eqb (Urllib.scheme p) "https" = true).
  { destruct Hs as [-> | ->]; reflexivity. }
  assert (Hnet : PyStr.truthy (Urllib.netloc p) = true).
  { destruct (Urllib.netloc p); [now destruct Hne | reflexivity]. }
  now rewrite Hscheme, Hnet.
Qed.

Lemma validated_url_reaches_the_browser_witness :
  ScreenshotService.take_screenshot (λ _ _ _, inr "/tmp/shot.png")
    "https://example.com/" 1200 630
  = inr "/tmp/shot.png".
Proof.
  apply (validated_url_reaches_the_browser (Demo.env false None)
           (λ _ _ _, inr "/tmp/shot.png") "https://example.com/" 1200 630).
  exists "example.com". reflexivity.
Defined.
